(** * dumphfdl, SoapySDR input driver (src/input-soapysdr.c)

    A shallow embedding of the driver: format negotiation
    ([soapysdr_choose_sample_format]), device configuration
    ([soapysdr_input_init]) and the capture worker
    ([soapysdr_input_thread]).

    The driver is a client of two things it does not define: the SoapySDR
    library (with the device behind it) and the rest of dumphfdl (sample
    format tables, the circular buffer, the global [do_exit]).  Both are
    kept abstract.  Everything the driver does to them is recorded, in
    program order, in a trace of events; everything they answer is taken
    from an arbitrary environment. *)

From Stdlib Require Import ZArith Floats.SpecFloat.
From stdpp Require Import base tactics option list strings.

Local Open Scope Z_scope.

(** ** C scalars *)

(** Pointers to opaque objects ([SoapySDRDevice *], [SoapySDRStream *]). *)
Definition ptr := Z.
Definition NULL : ptr := 0.

(** [char *] that the code tests against, or may receive as, [NULL]. *)
Definition cstr := option string.

(** [(int32_t)x], two's complement. *)
Definition int32_t (x : Z) : Z := (x + 2 ^ 31) mod 2 ^ 32 - 2 ^ 31.
(** [(size_t)x] on an LP64 target. *)
Definition size_t (x : Z) : Z := x mod 2 ^ 64.

(** IEEE 754 values.  [double] is binary64, [float] is binary32; both are
    carried by [spec_float], so widening a [float] to [double] is the
    identity on values. *)
Definition double := spec_float.
Definition float := spec_float.

(** [(float)d]: binary64 to binary32, round to nearest even. *)
Definition float_of_double (d : double) : float :=
  match d with
  | S754_finite s m e => binary_round 24 128 s m e
  | _ => d
  end.

(** [(double)f]: binary32 to binary64, exact on binary32 values. *)
Definition double_of_float (f : float) : double :=
  match f with
  | S754_finite s m e => binary_round 53 1024 s m e
  | _ => f
  end.

(** [(double)n] and [(float)n] for an integer [n]. *)
Definition float_of_int (n : Z) : float := binary_normalize 24 128 n 0 false.
Definition double_of_int (n : Z) : double := binary_normalize 53 1024 n 0 false.

(** [x > 0.0].  The test looks at the class and the sign of [x] only, which
    widening to [double] keeps, so it is written on the value as it is. *)
Definition gt_zero (x : spec_float) : bool := SFltb (S754_zero false) x.

(** [x != y] on floating-point values: true as soon as one is a NaN. *)
Definition fp_ne (x y : spec_float) : bool := negb (SFeqb x y).

Definition cfloat : Type := float * float.
Definition czero : cfloat := (S754_zero false, S754_zero false).

(** [SoapySDRKwargs]: [size] is the length, [keys[i]], [vals[i]] the
    components of the i-th pair. *)
Definition SoapySDRKwargs := list (string * string).

(** ** Objects *)

(** [sample_format] is a C enum declared in input-common.h; its enumerators
    are not part of this file, so values stay C integers and [SFMT_UNDEF]
    comes from the environment below. *)
Definition sample_format := Z.

(** [struct input_cfg], the fields the driver reads or writes.  A [NULL]
    string is [None].  The declaration is in input-common.h, not in this
    file; the scalar fields have the types its uses here go with: [float]
    for what is printed with [%f] and compared with [AUTO_GAIN], [int] for
    the rate and the frequencies, whose sum is far from overflowing. *)
Record input_cfg := {
  cfg_source : string;
  cfg_gain_elements : cstr;
  cfg_antenna : cstr;
  cfg_device_settings : cstr;
  cfg_gain : float;
  cfg_correction : float;
  cfg_sample_rate : Z;
  cfg_centerfreq : Z;
  cfg_freq_offset : Z;
  cfg_sfmt : sample_format;
}.

(** [struct input], with [block.producer.max_tu] and [block.running]
    flattened into it.  [config] points to the [input_cfg] kept next to it
    in the state.  [max_tu] is a [size_t]; [bytes_per_sample], printed with
    [%d], is an [int]. *)
Record input := {
  in_max_tu : Z;
  in_running : bool;
  in_full_scale : float;
  in_bytes_per_sample : Z;
}.

Record soapysdr_input := {
  si_input : input;
  sdr : ptr;
  stream : ptr;
}.

(** ** Trace *)

(** Lines written to [stderr], one constructor per format string, carrying
    the arguments that are printed. *)
Inductive message :=
  | msg_found_device (i : Z)
  | msg_device_key (k v : string)
  | msg_using_native (source : string) (fmt : cstr) (full_scale : float)
  | msg_failed_read_formats (source : string)
  | msg_using_non_native (source : string) (fmt : string) (full_scale : float)
  | msg_could_not_open (source err : string)
  | msg_setSampleRate_failed (source err : string)
  | msg_setFrequency_failed (source err : string)
  | msg_center_frequency_set (source : string) (hz : Z)
  | msg_setFrequencyCorrection_failed (source err : string)
  | msg_frequency_correction_set (source : string) (ppm : double)
  | msg_setDCOffsetMode_failed (source err : string)
  | msg_unable_to_parse_gains
  | msg_gain_element_set (source key : string) (db : double)
  | msg_could_not_set_gain (source err : string)
  | msg_gain_set (source : string) (db : double)
  | msg_no_auto_gain (source : string)
  | msg_could_not_enable_auto_gain (source err : string)
  | msg_auto_gain_enabled (source : string)
  | msg_could_not_select_antenna (antenna err : string)
  | msg_using_antenna (source : string) (antenna : cstr)
  | msg_unable_to_parse_settings (source settings : string)
  | msg_setting (source key value : string) (done : bool)
  | msg_no_suitable_format (source : string)
  | msg_could_not_set_up_stream (source err : string)
  | msg_activate_failed (source err : string)
  | msg_readStream_failed (source err : string).

Inductive buffer := Inbuf | Outbuf.

(** What the driver does, as seen from outside, in program order.  A call
    into the outside world is recorded with its arguments and, last, with
    what it answered. *)
Inductive event :=
  | Stderr (m : message)
  | Debug_chosen (source : string) (sfmt : sample_format) (soapy_sfmt : cstr)
      (full_scale : float) (bytes_per_sample : Z)
  | Debug_shutdown
  | Ev_enumerate (results : list SoapySDRKwargs)
  | Ev_KwargsList_clear
  | Ev_Kwargs_clear
  | Ev_makeStrArgs (args : string) (sdr : ptr)
  | Ev_setSampleRate (sdr : ptr) (rate : double) (rc : Z)
  | Ev_setFrequency (sdr : ptr) (hz : double) (rc : Z)
  | Ev_setFrequencyCorrection (sdr : ptr) (ppm : double) (rc : Z)
  | Ev_hasDCOffsetMode (sdr : ptr) (has : bool)
  | Ev_setDCOffsetMode (sdr : ptr) (on : bool) (rc : Z)
  | Ev_setGainElement (sdr : ptr) (name : string) (db : double) (rc : Z)
  | Ev_getGainElement (sdr : ptr) (name : string) (db : double)
  | Ev_setGain (sdr : ptr) (db : double) (rc : Z)
  | Ev_hasGainMode (sdr : ptr) (has : bool)
  | Ev_setGainMode (sdr : ptr) (on : bool) (rc : Z)
  | Ev_setAntenna (sdr : ptr) (name : string) (rc : Z)
  | Ev_getAntenna (sdr : ptr) (name : cstr)
  | Ev_writeSetting (sdr : ptr) (key value : string) (rc : Z)
  | Ev_readSetting (sdr : ptr) (key : string) (value : string)
  | Ev_getNativeStreamFormat (sdr : ptr) (answer : cstr * double)
  | Ev_getStreamFormats (sdr : ptr) (formats : option (list string))
  | Ev_setupStream (sdr : ptr) (fmt : cstr) (stream : ptr)
  | Ev_setupStream_legacy (sdr : ptr) (fmt : cstr) (answer : Z * ptr)
  | Ev_getStreamMTU (sdr stream : ptr) (mtu : Z)
  | Ev_activateStream (sdr stream : ptr) (rc : Z)
  | Ev_readStream (sdr stream : ptr) (num_elems timeout_us : Z) (answer : Z * list Byte.byte)
  | Ev_deactivateStream (sdr stream : ptr) (rc : Z)
  | Ev_closeStream (sdr stream : ptr) (rc : Z)
  | Ev_unmake (sdr : ptr) (rc : Z)
  | Ev_usleep (us : Z)
  | Ev_convert_sample_buffer (len : Z)
  | Ev_complex_samples_produce (samples : list cfloat)
  | Ev_connection_shutdown
  | Ev_XCALLOC (b : buffer) (nmemb size : Z)
  | Ev_XFREE (b : buffer)
  | Ev_load_do_exit (v : Z)
  | Ev_store_do_exit (v : Z)
  | Ev_store_running (v : bool).

(** ** The environment *)

(** The SoapySDR C API, as far as the driver uses it.  [X] is the state of
    everything outside the driver: library, devices, other threads.  Every
    call is on direction [SOAPY_SDR_RX], channel 0; the model fixes both.
    Setters answer the C [int] status, 0 for success. *)
Class SoapySDR (X : Type) := {
  SOAPY_SDR_API_VERSION : Z;
  api_enumerate : X → list SoapySDRKwargs * X;
  api_makeStrArgs : string → X → ptr * X;
  api_lastError : X → string;
  api_setSampleRate : ptr → double → X → Z * X;
  api_setFrequency : ptr → double → X → Z * X;
  api_setFrequencyCorrection : ptr → double → X → Z * X;
  api_hasDCOffsetMode : ptr → X → bool * X;
  api_setDCOffsetMode : ptr → bool → X → Z * X;
  api_setGainElement : ptr → string → double → X → Z * X;
  api_getGainElement : ptr → string → X → double * X;
  api_setGain : ptr → double → X → Z * X;
  api_hasGainMode : ptr → X → bool * X;
  api_setGainMode : ptr → bool → X → Z * X;
  api_setAntenna : ptr → string → X → Z * X;
  api_getAntenna : ptr → X → cstr * X;
  api_writeSetting : ptr → string → string → X → Z * X;
  api_readSetting : ptr → string → X → string * X;
  api_getNativeStreamFormat : ptr → X → (cstr * double) * X;
  (** [None] is a [NULL] array; otherwise [len] is the length of the list *)
  api_getStreamFormats : ptr → X → option (list string) * X;
  (** API 0.8 and later: the stream, or [NULL] *)
  api_setupStream : ptr → cstr → X → ptr * X;
  (** before API 0.8: a status, and the value left in [stream] *)
  api_setupStream_legacy : ptr → cstr → X → (Z * ptr) * X;
  api_getStreamMTU : ptr → ptr → X → Z * X;
  api_activateStream : ptr → ptr → X → Z * X;
  (** the status or sample count, and the bytes stored at [buffs[0]] *)
  api_readStream : ptr → ptr → Z → Z → X → (Z * list Byte.byte) * X;
  api_deactivateStream : ptr → ptr → X → Z * X;
  api_closeStream : ptr → ptr → X → Z * X;
  api_unmake : ptr → X → Z * X;
  SoapySDRKwargs_fromString : string → SoapySDRKwargs;
  SoapySDR_formatToSize : cstr → Z;
  SoapySDR_errToStr : Z → string;
}.

(** What the driver uses of the rest of dumphfdl and of libc
    (globals.h, block.h, input-common.h, input-helpers.h, util.h). *)
Class Dumphfdl (X : Type) := {
  SFMT_UNDEF : sample_format;
  sample_format_from_string : cstr → sample_format;
  get_sample_size : sample_format → Z;
  get_sample_full_scale_value : sample_format → float;
  AUTO_GAIN : float;
  atof : string → double;
  (** [input->convert_sample_buffer]: from the [len] bytes handed over, the
      samples it stores at the start of [outbuf] *)
  convert_sample_buffer : input_cfg → input → list Byte.byte → list cfloat;
  env_complex_samples_produce : list cfloat → X → X;
  env_connection_shutdown : X → X;
  env_usleep : Z → X → X;
  (** the global [do_exit], shared with the other threads *)
  load_do_exit : X → Z;
  store_do_exit : Z → X → X;
}.

(** ** Programs *)

(** [struct sample_format_search_result] *)
Record sample_format_search_result := {
  sfmt : sample_format;
  soapy_sfmt : cstr;
  full_scale : float;
  sample_size : Z;
}.

Definition with_sfmt v (r : sample_format_search_result) :=
  {| sfmt := v; soapy_sfmt := soapy_sfmt r; full_scale := full_scale r;
     sample_size := sample_size r |}.
Definition with_soapy_sfmt v (r : sample_format_search_result) :=
  {| sfmt := sfmt r; soapy_sfmt := v; full_scale := full_scale r;
     sample_size := sample_size r |}.
Definition with_full_scale v (r : sample_format_search_result) :=
  {| sfmt := sfmt r; soapy_sfmt := soapy_sfmt r; full_scale := v;
     sample_size := sample_size r |}.
Definition with_sample_size v (r : sample_format_search_result) :=
  {| sfmt := sfmt r; soapy_sfmt := soapy_sfmt r; full_scale := full_scale r;
     sample_size := v |}.

(** How a statement ends: it falls through with a value, or it executes
    [return r]. *)
Inductive outcome (R A : Type) :=
  | Next (a : A)
  | Returned (r : R).
Arguments Next {R A} a.
Arguments Returned {R A} r.

Section Driver.
Context {X : Type} `{!SoapySDR X, !Dumphfdl X}.

(** What a run of the driver can touch: the outside world, the
    [soapysdr_input] object and the [input_cfg] it points to. *)
Record state := {
  env : X;
  self : soapysdr_input;
  cfg : input_cfg;
}.

(** Statements of a function whose [return] type is [R]: from a state,
    how the statement ends, the events it caused, and the state after. *)
Definition M (R A : Type) : Type := state → outcome R A * list event * state.

Definition ret {R A} (a : A) : M R A := λ s, (Next a, [], s).
Definition bind {R A B} (m : M R A) (k : A → M R B) : M R B :=
  λ s, match m s with
       | (Next a, t, s') => let '(o, t', s'') := k a s' in (o, t ++ t', s'')
       | (Returned r, t, s') => (Returned r, t, s')
       end.
(** [return r;] *)
Definition Return {R A} (r : R) : M R A := λ s, (Returned r, [], s).

(** A whole function body: reaching the end and returning are the same. *)
Definition run {R} (body : M R R) (s : state) : R * list event * state :=
  match body s with
  | (Next r, t, s') | (Returned r, t, s') => (r, t, s')
  end.
(** A call of one function of this file from another. *)
Definition invoke {R R'} (body : M R R) : M R' R :=
  λ s, let '(r, t, s') := run body s in (Next r, t, s').

Definition emit {R} (e : event) : M R unit := λ s, (Next tt, [e], s).
(** A call into the outside world: answered, and recorded with the
    answer. *)
Definition call {R A} (e : A → event) (f : X → A * X) : M R A :=
  λ s, let '(a, x) := f (env s) in
       (Next a, [e a], {| env := x; self := self s; cfg := cfg s |}).
Definition call_void {R} (e : event) (f : X → X) : M R unit :=
  call (λ _, e) (λ x, (tt, f x)).
Definition fprintf {R} (m : message) : M R unit := emit (Stderr m).
Definition SoapySDRDevice_lastError {R} : M R string :=
  λ s, (Next (api_lastError (env s)), [], s).
Definition get_cfg {R} : M R input_cfg := λ s, (Next (cfg s), [], s).
Definition get_self {R} : M R soapysdr_input := λ s, (Next (self s), [], s).
Definition put_cfg {R} (c : input_cfg) : M R unit :=
  λ s, (Next tt, [], {| env := env s; self := self s; cfg := c |}).
Definition put_self {R} (o : soapysdr_input) : M R unit :=
  λ s, (Next tt, [], {| env := env s; self := o; cfg := cfg s |}).
(** [if(c) { body }] *)
Definition when {R} (c : bool) (body : M R unit) : M R unit :=
  if c then body else ret tt.

End Driver.

Arguments state X : clear implicits.
Arguments M X R A : clear implicits.

Declare Scope prog_scope.
Delimit Scope prog_scope with prog.
Notation "'let*' x ':=' m 'in' k" := (bind m (λ x, k))
  (at level 10, x pattern, m at level 100, k at level 200) : prog_scope.
Notation "m ';;;' k" := (bind m (λ _, k))
  (at level 100, k at level 200, right associativity) : prog_scope.
Local Open Scope prog_scope.

Section Negotiation.
Context {X : Type} `{!SoapySDR X, !Dumphfdl X}.

Definition SoapySDRDevice_getNativeStreamFormat {R} (sdr : ptr) : M X R (cstr * double) :=
  call (Ev_getNativeStreamFormat sdr) (api_getNativeStreamFormat sdr).
Definition SoapySDRDevice_getStreamFormats {R} (sdr : ptr) : M X R (option (list string)) :=
  call (Ev_getStreamFormats sdr) (api_getStreamFormats sdr).

(** The condition of the first [if]: three clauses joined by [&&], each
    storing into [result] before it tests; a clause that is not reached
    stores nothing. *)
Definition native_condition (fmt : cstr) (fullscale : double)
    (result : sample_format_search_result) : bool * sample_format_search_result :=
  let result := with_sfmt (sample_format_from_string fmt) result in
  if bool_decide (sfmt result ≠ SFMT_UNDEF) then
    let result := with_sample_size (SoapySDR_formatToSize fmt) result in
    if bool_decide (sample_size result = get_sample_size (sfmt result)) then
      let result := with_full_scale (float_of_double fullscale) result in
      (gt_zero (full_scale result), result)
    else (false, result)
  else (false, result).

(** The condition inside the [for] loop, on [formats[i]]. *)
Definition fallback_condition (f : string)
    (result : sample_format_search_result) : bool * sample_format_search_result :=
  let result := with_sfmt (sample_format_from_string (Some f)) result in
  if bool_decide (sfmt result ≠ SFMT_UNDEF) then
    let result := with_sample_size (SoapySDR_formatToSize (Some f)) result in
    (bool_decide (sample_size result = get_sample_size (sfmt result)), result)
  else (false, result).

(** [for(size_t i = 0; i < len; i++)] over the entries not yet visited. *)
Fixpoint choose_loop {R} (source : string) (formats : list string)
    (result : sample_format_search_result) : M X R sample_format_search_result :=
  match formats with
  | [] => ret result
  | f :: formats =>
      let '(ok, result) := fallback_condition f result in
      if ok then
        let result := with_full_scale (get_sample_full_scale_value (sfmt result)) result in
        let result := with_soapy_sfmt (Some f) result in
        fprintf (msg_using_non_native source f (full_scale result));;;
        ret result
      else choose_loop source formats result
  end.

Definition soapysdr_choose_sample_format (sdr : ptr) (source : string)
    : M X sample_format_search_result sample_format_search_result :=
  let result := {| sfmt := 0; soapy_sfmt := None; full_scale := S754_zero false;
                   sample_size := 0 |} in
  let result := with_sfmt SFMT_UNDEF result in
  let* (fmt, fullscale) := SoapySDRDevice_getNativeStreamFormat sdr in
  let '(ok, result) := native_condition fmt fullscale result in
  when ok (
    fprintf (msg_using_native source fmt (full_scale result));;;
    Return (with_soapy_sfmt fmt result));;;
  let* formats := SoapySDRDevice_getStreamFormats sdr in
  let len := from_option (λ l, Z.of_nat (length l)) 0 formats in
  when (bool_decide (formats = None) || bool_decide (len = 0)) (
    fprintf (msg_failed_read_formats source);;;
    Return (with_sfmt SFMT_UNDEF result));;;
  let* result := choose_loop source (default [] formats) result in
  Return result.

End Negotiation.

Section Init.
Context {X : Type} `{!SoapySDR X, !Dumphfdl X}.

(** [for(size_t i = i0; i < size; i++)] over a list, [i] counting up. *)
Fixpoint for_each {R A} (body : Z → A → M X R unit) (i : Z) (l : list A) : M X R unit :=
  match l with
  | [] => ret tt
  | a :: l => body i a;;; for_each body (i + 1) l
  end.

Definition soapysdr_verbose_device_search : M X unit unit :=
  let* results := call Ev_enumerate api_enumerate in
  for_each (λ i kw,
    fprintf (msg_found_device (int32_t i));;;
    for_each (λ _ '(k, v), fprintf (msg_device_key k v)) 0 kw) 0 results;;;
  emit Ev_KwargsList_clear.

(** [struct input *soapysdr_input_create(cfg)]: [NEW] hands out a zeroed
    object. *)
Definition soapysdr_input_create (_ : input_cfg) : soapysdr_input :=
  {| si_input := {| in_max_tu := 0; in_running := false;
                    in_full_scale := S754_zero false; in_bytes_per_sample := 0 |};
     sdr := NULL; stream := NULL |}.

(** The error exit shared by the setters: print the library's last error
    under the given heading and [return -1]. *)
Definition fail_with (heading : string → message) : M X Z unit :=
  let* err := SoapySDRDevice_lastError in
  fprintf (heading err);;;
  Return (-1).

(** Lines 118-151: gain. *)
Definition init_gain (sdr : ptr) (cfg : input_cfg) : M X Z unit :=
  match cfg_gain_elements cfg with
  | Some gain_elements =>
      let gains := SoapySDRKwargs_fromString gain_elements in
      when (bool_decide (Z.of_nat (length gains) < 1)) (
        fprintf msg_unable_to_parse_gains;;;
        Return (-1));;;
      for_each (λ _ '(key, val),
        let* _ := call (Ev_setGainElement sdr key (atof val))
                       (api_setGainElement sdr key (atof val)) in
        let* gain_value := call (Ev_getGainElement sdr key) (api_getGainElement sdr key) in
        fprintf (msg_gain_element_set (cfg_source cfg) key gain_value)) 0 gains;;;
      emit Ev_Kwargs_clear
  | None =>
      if fp_ne (cfg_gain cfg) AUTO_GAIN then
        let* rc := call (Ev_setGain sdr (double_of_float (cfg_gain cfg)))
                        (api_setGain sdr (double_of_float (cfg_gain cfg))) in
        when (bool_decide (rc ≠ 0)) (fail_with (msg_could_not_set_gain (cfg_source cfg)));;;
        fprintf (msg_gain_set (cfg_source cfg) (cfg_gain cfg))
      else
        let* has := call (Ev_hasGainMode sdr) (api_hasGainMode sdr) in
        when (bool_decide (has = false)) (
          fprintf (msg_no_auto_gain (cfg_source cfg));;;
          Return (-1));;;
        let* rc := call (Ev_setGainMode sdr true) (api_setGainMode sdr true) in
        when (bool_decide (rc ≠ 0)) (fail_with (msg_could_not_enable_auto_gain (cfg_source cfg)));;;
        fprintf (msg_auto_gain_enabled (cfg_source cfg))
  end.

(** Lines 160-176: vendor settings. *)
Definition init_settings (sdr : ptr) (cfg : input_cfg) : M X Z unit :=
  match cfg_device_settings cfg with
  | Some device_settings =>
      let settings_param := SoapySDRKwargs_fromString device_settings in
      when (bool_decide (Z.of_nat (length settings_param) < 1)) (
        fprintf (msg_unable_to_parse_settings (cfg_source cfg) device_settings);;;
        Return (-1));;;
      for_each (λ _ '(key, val),
        let* _ := call (Ev_writeSetting sdr key val) (api_writeSetting sdr key val) in
        let* setting_value := call (Ev_readSetting sdr key) (api_readSetting sdr key) in
        fprintf (msg_setting (cfg_source cfg) key setting_value
                   (bool_decide (val = setting_value)))) 0 settings_param;;;
      emit Ev_Kwargs_clear
  | None => ret tt
  end.

(** Lines 189-198: the stream, by the API the file is compiled against. *)
Definition init_stream (sdr : ptr) (cfg : input_cfg)
    (chosen : sample_format_search_result) : M X Z ptr :=
  if SOAPY_SDR_API_VERSION <? 0x00080000 then
    let* (rc, stream) := call (Ev_setupStream_legacy sdr (soapy_sfmt chosen))
                              (api_setupStream_legacy sdr (soapy_sfmt chosen)) in
    when (bool_decide (rc ≠ 0)) (fail_with (msg_could_not_set_up_stream (cfg_source cfg)));;;
    ret stream
  else
    let* stream := call (Ev_setupStream sdr (soapy_sfmt chosen))
                        (api_setupStream sdr (soapy_sfmt chosen)) in
    when (bool_decide (stream = NULL)) (fail_with (msg_could_not_set_up_stream (cfg_source cfg)));;;
    ret stream.

Definition set_cfg_sfmt (v : sample_format) (c : input_cfg) : input_cfg :=
  {| cfg_source := cfg_source c; cfg_gain_elements := cfg_gain_elements c;
     cfg_antenna := cfg_antenna c; cfg_device_settings := cfg_device_settings c;
     cfg_gain := cfg_gain c; cfg_correction := cfg_correction c;
     cfg_sample_rate := cfg_sample_rate c; cfg_centerfreq := cfg_centerfreq c;
     cfg_freq_offset := cfg_freq_offset c; cfg_sfmt := v |}.
Definition set_input (f : input → input) (o : soapysdr_input) : soapysdr_input :=
  {| si_input := f (si_input o); sdr := sdr o; stream := stream o |}.
Definition set_full_scale (v : float) (i : input) : input :=
  {| in_max_tu := in_max_tu i; in_running := in_running i; in_full_scale := v;
     in_bytes_per_sample := in_bytes_per_sample i |}.
Definition set_bytes_per_sample (v : Z) (i : input) : input :=
  {| in_max_tu := in_max_tu i; in_running := in_running i;
     in_full_scale := in_full_scale i; in_bytes_per_sample := v |}.
Definition set_max_tu (v : Z) (i : input) : input :=
  {| in_max_tu := v; in_running := in_running i; in_full_scale := in_full_scale i;
     in_bytes_per_sample := in_bytes_per_sample i |}.
Definition set_running (v : bool) (i : input) : input :=
  {| in_max_tu := in_max_tu i; in_running := v; in_full_scale := in_full_scale i;
     in_bytes_per_sample := in_bytes_per_sample i |}.
Definition set_sdr (v : ptr) (o : soapysdr_input) : soapysdr_input :=
  {| si_input := si_input o; sdr := v; stream := stream o |}.
Definition set_stream (v : ptr) (o : soapysdr_input) : soapysdr_input :=
  {| si_input := si_input o; sdr := sdr o; stream := v |}.
Definition modify_self {R} (f : soapysdr_input → soapysdr_input) : M X R unit :=
  let* o := get_self in put_self (f o).

(** [cfg->centerfreq + cfg->freq_offset] is an addition of two [int32_t]:
    the model takes the sum as the compiled code does, wrapped to 32
    bits. *)
Definition soapysdr_input_init : M X Z Z :=
  invoke soapysdr_verbose_device_search;;;
  let* cfg := get_cfg in
  let* sdr := call (Ev_makeStrArgs (cfg_source cfg)) (api_makeStrArgs (cfg_source cfg)) in
  when (bool_decide (sdr = NULL)) (fail_with (msg_could_not_open (cfg_source cfg)));;;
  let* rc := call (Ev_setSampleRate sdr (double_of_int (cfg_sample_rate cfg)))
                  (api_setSampleRate sdr (double_of_int (cfg_sample_rate cfg))) in
  when (bool_decide (rc ≠ 0)) (fail_with (msg_setSampleRate_failed (cfg_source cfg)));;;
  let hz := int32_t (cfg_centerfreq cfg + cfg_freq_offset cfg) in
  let* rc := call (Ev_setFrequency sdr (double_of_int hz))
                  (api_setFrequency sdr (double_of_int hz)) in
  when (bool_decide (rc ≠ 0)) (fail_with (msg_setFrequency_failed (cfg_source cfg)));;;
  fprintf (msg_center_frequency_set (cfg_source cfg) hz);;;
  let* rc := call (Ev_setFrequencyCorrection sdr (double_of_float (cfg_correction cfg)))
                  (api_setFrequencyCorrection sdr (double_of_float (cfg_correction cfg))) in
  when (bool_decide (rc ≠ 0)) (fail_with (msg_setFrequencyCorrection_failed (cfg_source cfg)));;;
  fprintf (msg_frequency_correction_set (cfg_source cfg) (cfg_correction cfg));;;
  let* has := call (Ev_hasDCOffsetMode sdr) (api_hasDCOffsetMode sdr) in
  when has (
    let* rc := call (Ev_setDCOffsetMode sdr true) (api_setDCOffsetMode sdr true) in
    when (bool_decide (rc ≠ 0)) (fail_with (msg_setDCOffsetMode_failed (cfg_source cfg))));;;
  init_gain sdr cfg;;;
  match cfg_antenna cfg with
  | Some antenna =>
      let* rc := call (Ev_setAntenna sdr antenna) (api_setAntenna sdr antenna) in
      when (bool_decide (rc ≠ 0)) (fail_with (msg_could_not_select_antenna antenna))
  | None => ret tt
  end;;;
  let* antenna := call (Ev_getAntenna sdr) (api_getAntenna sdr) in
  fprintf (msg_using_antenna (cfg_source cfg) antenna);;;
  init_settings sdr cfg;;;
  let* chosen := invoke (soapysdr_choose_sample_format sdr (cfg_source cfg)) in
  when (bool_decide (sfmt chosen = SFMT_UNDEF)) (
    fprintf (msg_no_suitable_format (cfg_source cfg));;;
    Return (-1));;;
  put_cfg (set_cfg_sfmt (sfmt chosen) cfg);;;
  modify_self (set_input (set_full_scale (full_scale chosen)));;;
  modify_self (set_input (set_bytes_per_sample (int32_t (sample_size chosen))));;;
  let* o := get_self in
  emit (Debug_chosen (cfg_source cfg) (sfmt chosen) (soapy_sfmt chosen)
          (in_full_scale (si_input o)) (in_bytes_per_sample (si_input o)));;;
  let* stream := init_stream sdr cfg chosen in
  let* mtu := call (Ev_getStreamMTU sdr stream) (api_getStreamMTU sdr stream) in
  modify_self (set_input (set_max_tu mtu));;;
  modify_self (set_sdr sdr);;;
  modify_self (set_stream stream);;;
  Return 0.

End Init.

Section Capture.
Context {X : Type} `{!SoapySDR X, !Dumphfdl X}.

Definition SOAPYSDR_READSTREAM_TIMEOUT_US : Z := 1000000.

(** The effect on a buffer of a callee that stores [data] at its start. *)
Definition stored {A} (data buf : list A) : list A :=
  take (length buf) (data ++ drop (length data) buf).

Definition do_exit {R} : M X R Z := call Ev_load_do_exit (λ x, (load_do_exit x, x)).

(** What the worker holds while it runs: [inbuf] and [outbuf]. *)
Definition buffers : Type := list Byte.byte * list cfloat.

(** [while(do_exit == 0) { ... }], cut after [fuel] tests of the
    condition: [None] says the loop was still running then, [Some] that
    it was left, with the buffers as they are at that point. *)
Fixpoint capture_loop {R} (fuel : nat) (inbuf : list Byte.byte) (outbuf : list cfloat)
    : M X R (option buffers) :=
  match fuel with
  | O => ret None
  | S fuel =>
      let* flag := do_exit in
      if bool_decide (flag = 0) then
        let* o := get_self in
        let* c := get_cfg in
        let input := si_input o in
        let* (samples_read, raw) :=
          call (Ev_readStream (sdr o) (stream o) (in_max_tu input) SOAPYSDR_READSTREAM_TIMEOUT_US)
               (api_readStream (sdr o) (stream o) (in_max_tu input) SOAPYSDR_READSTREAM_TIMEOUT_US) in
        let inbuf := stored raw inbuf in
        if bool_decide (samples_read < 0) then
          fprintf (msg_readStream_failed (cfg_source c) (SoapySDR_errToStr samples_read));;;
          capture_loop fuel inbuf outbuf
        else
          let len := size_t (int32_t (samples_read * in_bytes_per_sample input)) in
          emit (Ev_convert_sample_buffer len);;;
          let outbuf := stored (convert_sample_buffer c input (take (Z.to_nat len) inbuf)) outbuf in
          let samples := take (Z.to_nat (size_t samples_read)) outbuf in
          call_void (Ev_complex_samples_produce samples) (env_complex_samples_produce samples);;;
          capture_loop fuel inbuf outbuf
      else ret (Some (inbuf, outbuf))
  end.

(** From the label [shutdown] to the end of the function. *)
Definition shutdown : M X (option ptr) (option ptr) :=
  let* o := get_self in
  emit Debug_shutdown;;;
  let* _ := call (Ev_deactivateStream (sdr o) (stream o)) (api_deactivateStream (sdr o) (stream o)) in
  let* _ := call (Ev_closeStream (sdr o) (stream o)) (api_closeStream (sdr o) (stream o)) in
  let* _ := call (Ev_unmake (sdr o)) (api_unmake (sdr o)) in
  call_void Ev_connection_shutdown env_connection_shutdown;;;
  emit (Ev_store_running false);;;
  modify_self (set_input (set_running false));;;
  emit (Ev_XFREE Inbuf);;;
  emit (Ev_XFREE Outbuf);;;
  Return (Some NULL).

(** The worker.  [Some NULL] is its C result; [None] says that after
    [fuel] tests of [do_exit] it was still in its loop. *)
Definition soapysdr_input_thread (fuel : nat) : M X (option ptr) (option ptr) :=
  let* o := get_self in
  let* c := get_cfg in
  let input := si_input o in
  emit (Ev_XCALLOC Inbuf (in_max_tu input) (in_bytes_per_sample input));;;
  let inbuf := replicate (Z.to_nat (in_max_tu input * in_bytes_per_sample input)) Byte.x00 in
  emit (Ev_XCALLOC Outbuf (in_max_tu input) 8);;;
  let outbuf := replicate (Z.to_nat (in_max_tu input)) czero in
  let* rc := call (Ev_activateStream (sdr o) (stream o)) (api_activateStream (sdr o) (stream o)) in
  let* exited :=
    if bool_decide (rc ≠ 0) then
      fprintf (msg_activate_failed (cfg_source c) (SoapySDR_errToStr rc));;;
      call_void (Ev_store_do_exit 1) (store_do_exit 1);;;
      ret (Some (inbuf, outbuf))
    else
      call_void (Ev_usleep 100000) (env_usleep 100000);;;
      capture_loop fuel inbuf outbuf in
  match exited with
  | None => Return None
  | Some _ => shutdown
  end.

End Capture.

(** ** A bench environment

    A scripted device and stand-ins for the dumphfdl helpers, to run the
    driver on.  The statuses, formats and reads are those of the [rig]. *)
Module Bench.

Record rig := {
  rig_version : Z;
  rig_handle : ptr;
  (** the setters that fail, by name *)
  rig_failing : list string;
  rig_has_dc_offset_mode : bool;
  rig_has_gain_mode : bool;
  rig_native : cstr * double;
  rig_formats : option (list string);
  rig_format_size : cstr → Z;
  rig_readback : string → string;
  rig_stream : ptr;
  rig_mtu : Z;
  rig_activate : Z;
}.

(** The outside world: the reads still to come, and [do_exit]. *)
Record world := {
  reads : list (Z * list Byte.byte);
  flag : Z;
}.

Definition status (r : rig) (name : string) (x : world) : Z * world :=
  (if bool_decide (name ∈ rig_failing r) then -1 else 0, x).

Definition kwargs_of (s : string) : SoapySDRKwargs :=
  if bool_decide (s = "LNA=20,VGA=10") then [("LNA", "20"); ("VGA", "10")]
  else if bool_decide (s = "LNA=20") then [("LNA", "20")]
  else if bool_decide (s = "biastee=true") then [("biastee", "true")]
  else [].

(** A read consumes the script; when the script is over, the controller
    has asked for the end and the read times out. *)
Definition read (x : world) : (Z * list Byte.byte) * world :=
  match reads x with
  | r :: rs => (r, {| reads := rs; flag := flag x |})
  | [] => ((-1, []), {| reads := []; flag := 1 |})
  end.

Definition soapy (r : rig) : SoapySDR world := {|
  SOAPY_SDR_API_VERSION := rig_version r;
  api_enumerate x := ([[("driver", "bench")]], x);
  api_makeStrArgs _ x := (rig_handle r, x);
  api_lastError _ := "bench error";
  api_setSampleRate _ _ := status r "setSampleRate";
  api_setFrequency _ _ := status r "setFrequency";
  api_setFrequencyCorrection _ _ := status r "setFrequencyCorrection";
  api_hasDCOffsetMode _ x := (rig_has_dc_offset_mode r, x);
  api_setDCOffsetMode _ _ := status r "setDCOffsetMode";
  api_setGainElement _ _ _ := status r "setGainElement";
  api_getGainElement _ _ x := (double_of_int 7, x);
  api_setGain _ _ := status r "setGain";
  api_hasGainMode _ x := (rig_has_gain_mode r, x);
  api_setGainMode _ _ := status r "setGainMode";
  api_setAntenna _ _ := status r "setAntenna";
  api_getAntenna _ x := (Some "RX", x);
  api_writeSetting _ _ _ := status r "writeSetting";
  api_readSetting _ key x := (rig_readback r key, x);
  api_getNativeStreamFormat _ x := (rig_native r, x);
  api_getStreamFormats _ x := (rig_formats r, x);
  api_setupStream _ _ x := (rig_stream r, x);
  api_setupStream_legacy _ _ x := ((if bool_decide (rig_stream r = NULL) then -1 else 0, rig_stream r), x);
  api_getStreamMTU _ _ x := (rig_mtu r, x);
  api_activateStream _ _ x := (rig_activate r, x);
  api_readStream _ _ _ _ := read;
  api_deactivateStream _ _ x := (0, x);
  api_closeStream _ _ x := (0, x);
  api_unmake _ x := (0, x);
  SoapySDRKwargs_fromString := kwargs_of;
  SoapySDR_formatToSize := rig_format_size r;
  SoapySDR_errToStr _ := "TIMEOUT";
|}.

(** Sample kinds 1, 2, 3 under the names CU8, CS16, CF32, with 2, 4 and 8
    bytes per sample. *)
Definition kind_of (s : cstr) : sample_format :=
  match s with
  | Some name =>
      if bool_decide (name = "CU8") then 1
      else if bool_decide (name = "CS16") then 2
      else if bool_decide (name = "CF32") then 3
      else 0
  | None => 0
  end.
Definition size_of (k : sample_format) : Z :=
  if bool_decide (k = 1) then 2
  else if bool_decide (k = 2) then 4
  else if bool_decide (k = 3) then 8
  else 0.
Definition scale_of (k : sample_format) : float :=
  if bool_decide (k = 1) then float_of_int 127
  else if bool_decide (k = 2) then float_of_int 32767
  else float_of_int 1.

(** A converter that yields one sample per [bytes_per_sample] bytes: the
    first byte of each group as the real part. *)
Definition groups (n : nat) (l : list Byte.byte) : list cfloat :=
  (λ k, (float_of_int (Z.of_N (Byte.to_N (default Byte.x00 (l !! (k * n)%nat)))),
         S754_zero false)) <$> seq 0 (length l / n).

Definition helpers : Dumphfdl world := {|
  SFMT_UNDEF := 0;
  sample_format_from_string := kind_of;
  get_sample_size := size_of;
  get_sample_full_scale_value := scale_of;
  AUTO_GAIN := float_of_int (-100);
  atof s := if bool_decide (s = "20") then double_of_int 20
            else if bool_decide (s = "10") then double_of_int 10
            else S754_zero false;
  convert_sample_buffer _ i bytes :=
    groups (Z.to_nat (in_bytes_per_sample i)) bytes;
  env_complex_samples_produce _ x := x;
  env_connection_shutdown x := x;
  env_usleep _ x := x;
  load_do_exit := flag;
  store_do_exit v x := {| reads := reads x; flag := v |};
|}.

(** The real size of a format name is what the helper table says. *)
Definition honest_size (s : cstr) : Z := size_of (kind_of s).

Definition default_rig : rig := {|
  rig_version := 0x00080000;
  rig_handle := 4096;
  rig_failing := [];
  rig_has_dc_offset_mode := true;
  rig_has_gain_mode := true;
  rig_native := (Some "CS16", double_of_int 32768);
  rig_formats := Some ["CS8"; "CS16"; "CF32"];
  rig_format_size := honest_size;
  rig_readback _ := "true";
  rig_stream := 8192;
  rig_mtu := 4;
  rig_activate := 0;
|}.

Definition default_cfg : input_cfg := {|
  cfg_source := "driver=bench";
  cfg_gain_elements := None;
  cfg_antenna := None;
  cfg_device_settings := None;
  cfg_gain := float_of_int (-100);
  cfg_correction := S754_zero false;
  cfg_sample_rate := 250000;
  cfg_centerfreq := 10000000;
  cfg_freq_offset := 0;
  cfg_sfmt := 0;
|}.

Definition boot (c : input_cfg) (script : list (Z * list Byte.byte)) : state world := {|
  env := {| reads := script; flag := 0 |};
  self := @soapysdr_input_create c;
  cfg := c;
|}.

End Bench.


(** * Properties *)

(** ** Format negotiation *)

Section Negotiation_facts.
Context {X : Type} `{!SoapySDR X, !Dumphfdl X}.

(** A format name the driver can use: it names a sample kind, and the
    library gives it the byte size of that kind. *)
Definition usable (fmt : cstr) : Prop :=
  sample_format_from_string fmt ≠ SFMT_UNDEF ∧
  SoapySDR_formatToSize fmt = get_sample_size (sample_format_from_string fmt).

#[global] Instance usable_dec fmt : Decision (usable fmt).
Proof. unfold usable. apply _. Defined.

(** The native format is taken: it is usable and its full scale, as a
    [float], is positive. *)
Definition native_accepted (fmt : cstr) (fullscale : double) : Prop :=
  usable fmt ∧ gt_zero (float_of_double fullscale) = true.

(** [result] after the loop has visited and rejected the given entries. *)
Definition rejected (formats : list string) (result : sample_format_search_result) :=
  foldl (λ r f, (fallback_condition f r).2) result formats.

Lemma native_condition_true fmt fullscale result :
  native_accepted fmt fullscale →
  native_condition fmt fullscale result =
    (true, {| sfmt := sample_format_from_string fmt; soapy_sfmt := soapy_sfmt result;
              full_scale := float_of_double fullscale;
              sample_size := SoapySDR_formatToSize fmt |}).
Proof.
  intros [[Hk Hs] Hp]. unfold native_condition. cbn.
  rewrite bool_decide_eq_true_2 by done.
  rewrite bool_decide_eq_true_2 by done.
  by rewrite Hp.
Qed.

Lemma native_condition_false fmt fullscale result :
  ¬ native_accepted fmt fullscale →
  (native_condition fmt fullscale result).1 = false.
Proof.
  intros Hn. unfold native_condition. cbn.
  repeat case_bool_decide; cbn; try done.
  destruct (gt_zero (float_of_double fullscale)) eqn:Hp; [|done].
  destruct Hn. by repeat split.
Qed.

Lemma fallback_condition_true f result :
  usable (Some f) →
  fallback_condition f result =
    (true, {| sfmt := sample_format_from_string (Some f); soapy_sfmt := soapy_sfmt result;
              full_scale := full_scale result;
              sample_size := SoapySDR_formatToSize (Some f) |}).
Proof.
  intros [Hk Hs]. unfold fallback_condition. cbn.
  by rewrite !bool_decide_eq_true_2.
Qed.

Lemma fallback_condition_false f result :
  ¬ usable (Some f) → (fallback_condition f result).1 = false.
Proof.
  intros Hn. unfold fallback_condition. cbn.
  repeat case_bool_decide; cbn; try done. destruct Hn. by split.
Qed.

Lemma fallback_condition_sfmt f result :
  sfmt (fallback_condition f result).2 = sample_format_from_string (Some f).
Proof. unfold fallback_condition. cbn. by repeat case_bool_decide. Qed.

Lemma fallback_condition_soapy_sfmt f result :
  soapy_sfmt (fallback_condition f result).2 = soapy_sfmt result.
Proof. unfold fallback_condition. cbn. by repeat case_bool_decide. Qed.

Lemma rejected_soapy_sfmt formats result :
  soapy_sfmt (rejected formats result) = soapy_sfmt result.
Proof.
  revert result. induction formats as [|f formats IH]; intros result; [done|].
  cbn. unfold rejected in IH. by rewrite IH, fallback_condition_soapy_sfmt.
Qed.

Lemma rejected_snoc formats f result :
  sfmt (rejected (formats ++ [f]) result) = sample_format_from_string (Some f).
Proof. unfold rejected. rewrite foldl_app. cbn. apply fallback_condition_sfmt. Qed.

(** The loop stops at the first usable entry and takes the scale from the
    table of sample kinds; with no usable entry it runs to the end and
    prints nothing. *)
Lemma choose_loop_first {R} source pre f post result s :
  Forall (λ g, ¬ usable (Some g)) pre →
  usable (Some f) →
  choose_loop (R:=R) source (pre ++ f :: post) result s =
    (Next {| sfmt := sample_format_from_string (Some f); soapy_sfmt := Some f;
             full_scale := get_sample_full_scale_value (sample_format_from_string (Some f));
             sample_size := SoapySDR_formatToSize (Some f) |},
     [Stderr (msg_using_non_native source f
                (get_sample_full_scale_value (sample_format_from_string (Some f))))],
     s).
Proof.
  intros Hpre Hf. revert result.
  induction Hpre as [|g pre Hg _ IH]; intros result; cbn.
  - by rewrite fallback_condition_true.
  - pose proof (fallback_condition_false g result Hg) as Hc.
    destruct (fallback_condition g result) as [ok result']. cbn in Hc. subst ok.
    apply IH.
Qed.

Lemma choose_loop_none {R} source formats result s :
  Forall (λ g, ¬ usable (Some g)) formats →
  choose_loop (R:=R) source formats result s = (Next (rejected formats result), [], s).
Proof.
  intros Hall. revert result.
  induction Hall as [|g formats Hg _ IH]; intros result; cbn; [done|].
  pose proof (fallback_condition_false g result Hg) as Hc.
  unfold rejected; cbn.
  destruct (fallback_condition g result) as [ok result']. cbn in Hc. subst ok.
  by rewrite IH.
Qed.

Lemma native_condition_soapy_sfmt fmt fullscale result :
  soapy_sfmt (native_condition fmt fullscale result).2 = soapy_sfmt result.
Proof. unfold native_condition. cbn. by repeat case_bool_decide. Qed.

Lemma first_usable_or_none (formats : list string) :
  Forall (λ g, ¬ usable (Some g)) formats ∨
  ∃ pre f post, formats = pre ++ f :: post ∧
                Forall (λ g, ¬ usable (Some g)) pre ∧ usable (Some f).
Proof.
  induction formats as [|g formats [IH|(pre & f & post & -> & Hpre & Hf)]].
  - by left.
  - destruct (decide (usable (Some g))) as [Hg|Hg].
    + right. by exists [], g, formats.
    + left. by constructor.
  - right. destruct (decide (usable (Some g))) as [Hg|Hg].
    + by exists [], g, (pre ++ f :: post).
    + exists (g :: pre), f, post. split; [done|]. split; [by constructor|done].
Qed.

Lemma choose_loop_next {R} source formats result s :
  ∃ r t, choose_loop (R:=R) source formats result s = (Next r, t, s).
Proof.
  destruct (first_usable_or_none formats) as [Hall|(pre & g & post & -> & Hpre & Hg)].
  - rewrite choose_loop_none by done. eauto.
  - rewrite (choose_loop_first source pre g post) by done. eauto.
Qed.

(** [result] when the native format has been turned down. *)
Definition after_native (fmt : cstr) (fullscale : double) : sample_format_search_result :=
  (native_condition fmt fullscale
     {| sfmt := SFMT_UNDEF; soapy_sfmt := None; full_scale := S754_zero false;
        sample_size := 0 |}).2.

(** The function, once the native format has been turned down: with no
    list to go through ... *)
Lemma choose_unreadable sdr source s fmt fullscale x formats x' :
  api_getNativeStreamFormat sdr (env s) = ((fmt, fullscale), x) →
  ¬ native_accepted fmt fullscale →
  api_getStreamFormats sdr x = (formats, x') →
  formats = None ∨ formats = Some [] →
  run (soapysdr_choose_sample_format sdr source) s =
    (with_sfmt SFMT_UNDEF (after_native fmt fullscale),
     [Ev_getNativeStreamFormat sdr (fmt, fullscale); Ev_getStreamFormats sdr formats;
      Stderr (msg_failed_read_formats source)],
     {| env := x'; self := self s; cfg := cfg s |}).
Proof.
  intros Hnat Hno Hfmts Hempty.
  unfold run, soapysdr_choose_sample_format, bind, SoapySDRDevice_getNativeStreamFormat,
    SoapySDRDevice_getStreamFormats, call, after_native.
  rewrite Hnat. cbn.
  pose proof (native_condition_false fmt fullscale
                {| sfmt := SFMT_UNDEF; soapy_sfmt := None;
                   full_scale := S754_zero false; sample_size := 0 |} Hno) as Hc.
  destruct (native_condition _ _ _) as [ok result]. cbn in Hc. subst ok. cbn.
  rewrite Hfmts. by destruct Hempty as [-> | ->].
Qed.

(** ... and with a list: the result is the one the loop ends with. *)
Lemma choose_listed sdr source s fmt fullscale x l x' r t :
  api_getNativeStreamFormat sdr (env s) = ((fmt, fullscale), x) →
  ¬ native_accepted fmt fullscale →
  api_getStreamFormats sdr x = (Some l, x') →
  l ≠ [] →
  choose_loop (R:=sample_format_search_result) source l (after_native fmt fullscale)
    {| env := x'; self := self s; cfg := cfg s |}
    = (Next r, t, {| env := x'; self := self s; cfg := cfg s |}) →
  run (soapysdr_choose_sample_format sdr source) s =
    (r, Ev_getNativeStreamFormat sdr (fmt, fullscale) :: Ev_getStreamFormats sdr (Some l) :: t,
     {| env := x'; self := self s; cfg := cfg s |}).
Proof.
  intros Hnat Hno Hfmts Hne Hloop.
  unfold run, soapysdr_choose_sample_format, bind, SoapySDRDevice_getNativeStreamFormat,
    SoapySDRDevice_getStreamFormats, call.
  unfold after_native in Hloop.
  rewrite Hnat. cbn.
  pose proof (native_condition_false fmt fullscale
                {| sfmt := SFMT_UNDEF; soapy_sfmt := None;
                   full_scale := S754_zero false; sample_size := 0 |} Hno) as Hc.
  destruct (native_condition _ _ _) as [ok result]. cbn in Hc. cbn [snd] in Hloop.
  subst ok. cbn.
  rewrite Hfmts.
  destruct l as [|f l]; [done|].
  cbn [from_option default length bool_decide decide_rel orb].
  rewrite (bool_decide_eq_false_2 (Some (f :: l) = None)) by done.
  rewrite (bool_decide_eq_false_2 (Z.of_nat (length (f :: l)) = 0)) by (cbn; lia).
  cbn [orb when ret].
  unfold id. rewrite Hloop. cbn. by rewrite app_nil_r.
Qed.

(** With a list in which no entry is usable, the loop runs to the end and
    [result.sfmt] is left at whatever the last entry maps to. *)
Lemma choose_none_usable sdr source s fmt fullscale x pre f x' :
  api_getNativeStreamFormat sdr (env s) = ((fmt, fullscale), x) →
  ¬ native_accepted fmt fullscale →
  api_getStreamFormats sdr x = (Some (pre ++ [f]), x') →
  Forall (λ g, ¬ usable (Some g)) (pre ++ [f]) →
  ∃ result,
    run (soapysdr_choose_sample_format sdr source) s =
      (result,
       [Ev_getNativeStreamFormat sdr (fmt, fullscale);
        Ev_getStreamFormats sdr (Some (pre ++ [f]))],
       {| env := x'; self := self s; cfg := cfg s |}) ∧
    sfmt result = sample_format_from_string (Some f) ∧
    soapy_sfmt result = None.
Proof.
  intros Hnat Hno Hfmts Hall.
  exists (rejected (pre ++ [f]) (after_native fmt fullscale)). split; [|split].
  - eapply choose_listed; try done.
    + by destruct pre.
    + by apply choose_loop_none.
  - apply rejected_snoc.
  - rewrite rejected_soapy_sfmt. unfold after_native.
    by rewrite native_condition_soapy_sfmt.
Qed.

(** C1, as amended.  The native format is returned on the spot exactly
    when it names a known sample kind, the library gives it the byte size
    of that kind and the reported full scale is positive once stored in the
    result's [float] field: then the result carries that stored value and
    the list of formats is not asked for.  Otherwise the list of formats is
    asked for next and no native format is announced. *)
Theorem native_format_taken_iff_accepted sdr source s fmt fullscale x :
  api_getNativeStreamFormat sdr (env s) = ((fmt, fullscale), x) →
  (native_accepted fmt fullscale →
     run (soapysdr_choose_sample_format sdr source) s =
       ({| sfmt := sample_format_from_string fmt; soapy_sfmt := fmt;
           full_scale := float_of_double fullscale;
           sample_size := SoapySDR_formatToSize fmt |},
        [Ev_getNativeStreamFormat sdr (fmt, fullscale);
         Stderr (msg_using_native source fmt (float_of_double fullscale))],
        {| env := x; self := self s; cfg := cfg s |})) ∧
  (¬ native_accepted fmt fullscale →
     ∃ formats rest,
       (run (soapysdr_choose_sample_format sdr source) s).1.2 =
         Ev_getNativeStreamFormat sdr (fmt, fullscale)
           :: Ev_getStreamFormats sdr formats :: rest ∧
       (rest = [] ∨ rest = [Stderr (msg_failed_read_formats source)] ∨
        ∃ f, rest = [Stderr (msg_using_non_native source f
                       (get_sample_full_scale_value (sample_format_from_string (Some f))))])).
Proof.
  intros Hnat. split.
  - intros Hyes.
    unfold run, soapysdr_choose_sample_format, bind, SoapySDRDevice_getNativeStreamFormat, call.
    rewrite Hnat. cbn.
    by rewrite (native_condition_true _ _ _ Hyes).
  - intros Hno.
    destruct (api_getStreamFormats sdr x) as [formats x'] eqn:Hfmts.
    exists formats.
    destruct formats as [l|]; [destruct (decide (l = [])) as [->|Hne]|].
    + erewrite choose_unreadable by eauto. eauto.
    + destruct (first_usable_or_none l) as [Hall|(pre & g & post & -> & Hpre & Hg)].
      * erewrite choose_listed by (try apply choose_loop_none; done). eauto.
      * erewrite choose_listed by (try apply (choose_loop_first source pre g post); done).
        cbn. eauto 6.
    + erewrite choose_unreadable by eauto. eauto.
Qed.

(** C2.  When the native format is turned down and the list of formats
    holds a usable entry, the result is the first such entry in the order
    of the list, and its full scale is the constant of its sample kind. *)
Theorem fallback_takes_first_usable sdr source s fmt fullscale x formats x' pre f post :
  api_getNativeStreamFormat sdr (env s) = ((fmt, fullscale), x) →
  ¬ native_accepted fmt fullscale →
  api_getStreamFormats sdr x = (Some formats, x') →
  formats = pre ++ f :: post →
  Forall (λ g, ¬ usable (Some g)) pre →
  usable (Some f) →
  run (soapysdr_choose_sample_format sdr source) s =
    ({| sfmt := sample_format_from_string (Some f); soapy_sfmt := Some f;
        full_scale := get_sample_full_scale_value (sample_format_from_string (Some f));
        sample_size := SoapySDR_formatToSize (Some f) |},
     [Ev_getNativeStreamFormat sdr (fmt, fullscale);
      Ev_getStreamFormats sdr (Some formats);
      Stderr (msg_using_non_native source f
                (get_sample_full_scale_value (sample_format_from_string (Some f))))],
     {| env := x'; self := self s; cfg := cfg s |}).
Proof.
  intros Hnat Hno Hfmts -> Hpre Hf.
  eapply choose_listed; try done.
  - by destruct pre.
  - by apply choose_loop_first.
Qed.

End Negotiation_facts.

(** ** Reasoning about statements

    A discipline says what a piece of the driver may do while it goes on
    ([quiet] events, a [frame] on the state), what is [known] of the state
    all along, and what must hold when it executes [return] ([final]).  A
    statement that obeys a discipline can be put in sequence with others
    that do; this is how facts about [soapysdr_input_init] are established
    below, statement by statement. *)

Section Discipline.
Context {X : Type} `{!SoapySDR X, !Dumphfdl X}.

Record discipline (R : Type) := {
  quiet : event → Prop;
  frame : state X → state X → Prop;
  known : state X → Prop;
  final : state X → R → list event → state X → Prop;
  frame_refl : ∀ s, frame s s;
  frame_trans : ∀ s1 s2 s3, frame s1 s2 → frame s2 s3 → frame s1 s3;
  frame_env : ∀ s x, frame s {| env := x; self := self s; cfg := cfg s |};
  known_env : ∀ s x, known s → known {| env := x; self := self s; cfg := cfg s |};
  final_after : ∀ s s1 s' r t1 t2,
    Forall quiet t1 → frame s s1 → final s1 r t2 s' → final s r (t1 ++ t2) s';
}.
Arguments quiet {R}.
Arguments frame {R}.
Arguments known {R}.
Arguments final {R}.
Arguments frame_refl {R}.
Arguments frame_trans {R}.
Arguments frame_env {R}.
Arguments known_env {R}.
Arguments final_after {R}.

Definition obeys {R A} (D : discipline R) (m : M X R A) : Prop :=
  ∀ s, known D s →
    match m s with
    | (Next _, t, s') => Forall (quiet D) t ∧ frame D s s' ∧ known D s'
    | (Returned r, t, s') => final D s r t s'
    end.

(** A statement that never falls through. *)
Definition halts {R A} (D : discipline R) (m : M X R A) : Prop :=
  ∀ s, known D s →
    match m s with
    | (Next _, _, _) => False
    | (Returned r, t, s') => final D s r t s'
    end.

(** The discipline of a callee, whose [return] is the caller's going on. *)
Definition relaxed {R} (R' : Type) (D : discipline R) : discipline R'.
Proof.
  refine {| quiet := quiet D; frame := frame D; known := known D;
            final := λ s _ t s', Forall (quiet D) t ∧ frame D s s' ∧ known D s' |}.
  - apply frame_refl.
  - apply frame_trans.
  - apply frame_env.
  - apply known_env.
  - intros s s1 s' _ t1 t2 H1 Hf (H2 & Hf' & Hk). split; [by apply Forall_app|].
    split; [by eapply frame_trans|done].
Defined.

Lemma obeys_ret {R A} (D : discipline R) (a : A) : obeys D (ret a).
Proof. intros s Hs. cbn. split; [constructor|]. split; [apply frame_refl|done]. Qed.

Lemma obeys_Return {R A} (D : discipline R) (r : R) :
  (∀ s, known D s → final D s r [] s) → obeys D (Return (A:=A) r).
Proof. intros H s Hs. cbn. by apply H. Qed.

Lemma obeys_emit {R} (D : discipline R) e : quiet D e → obeys D (emit e).
Proof.
  intros He s Hs. cbn. split; [by repeat constructor|]. split; [apply frame_refl|done].
Qed.

Lemma obeys_call {R A} (D : discipline R) (e : A → event) f :
  (∀ a, quiet D (e a)) → obeys D (call e f).
Proof.
  intros He s Hs. unfold call. destruct (f (env s)) as [a x].
  split; [by repeat constructor|]. split; [apply frame_env|by apply known_env].
Qed.

Lemma obeys_lastError {R} (D : discipline R) : obeys D SoapySDRDevice_lastError.
Proof. intros s Hs. cbn. split; [constructor|]. split; [apply frame_refl|done]. Qed.

Lemma obeys_get_self {R} (D : discipline R) : obeys D get_self.
Proof. intros s Hs. cbn. split; [constructor|]. split; [apply frame_refl|done]. Qed.

Lemma obeys_get_cfg {R} (D : discipline R) : obeys D get_cfg.
Proof. intros s Hs. cbn. split; [constructor|]. split; [apply frame_refl|done]. Qed.

Lemma obeys_put_cfg {R} (D : discipline R) c :
  (∀ s, known D s → let s' := {| env := env s; self := self s; cfg := c |} in
                    frame D s s' ∧ known D s') →
  obeys D (put_cfg c).
Proof. intros H s Hs. cbn. split; [constructor|]. by apply H. Qed.

Lemma obeys_modify_self {R} (D : discipline R) f :
  (∀ s, known D s → let s' := {| env := env s; self := f (self s); cfg := cfg s |} in
                    frame D s s' ∧ known D s') →
  obeys D (modify_self f).
Proof. intros H s Hs. cbn. split; [constructor|]. by apply H. Qed.

Lemma obeys_bind {R A B} (D : discipline R) (m : M X R A) (k : A → M X R B) :
  obeys D m → (∀ a, obeys D (k a)) → obeys D (bind m k).
Proof.
  intros Hm Hk s Hs. unfold bind. specialize (Hm s Hs).
  destruct (m s) as [[[a|r] t] s1]; [|done].
  destruct Hm as (Ht & Hf & Hs1). specialize (Hk a s1 Hs1).
  destruct (k a s1) as [[[b|r] t'] s2].
  - destruct Hk as (Ht' & Hf' & Hs2). split; [by apply Forall_app|].
    split; [by eapply frame_trans|done].
  - by eapply final_after.
Qed.

(** After [cfg = input->config], what is known of the state is known of
    [cfg]. *)
Lemma obeys_bind_get_cfg {R B} (D : discipline R) (k : input_cfg → M X R B) :
  (∀ s0, known D s0 → obeys D (k (cfg s0))) → obeys D (bind get_cfg k).
Proof.
  intros Hk s Hs. unfold bind, get_cfg. specialize (Hk s Hs s Hs).
  by destruct (k (cfg s) s) as [[[b|r] t'] s2].
Qed.

Lemma obeys_bind_get_self {R B} (D : discipline R) (k : soapysdr_input → M X R B) :
  (∀ s0, known D s0 → obeys D (k (self s0))) → obeys D (bind get_self k).
Proof.
  intros Hk s Hs. unfold bind, get_self. specialize (Hk s Hs s Hs).
  by destruct (k (self s) s) as [[[b|r] t'] s2].
Qed.

Lemma obeys_when {R} (D : discipline R) c body : obeys D body → obeys D (when c body).
Proof. intros H. destruct c; [done|apply obeys_ret]. Qed.

Lemma obeys_for_each {R A} (D : discipline R) (body : Z → A → M X R unit) i l :
  (∀ i a, obeys D (body i a)) → obeys D (for_each body i l).
Proof.
  intros H. revert i. induction l as [|a l IH]; intros i; cbn.
  - apply obeys_ret.
  - apply obeys_bind; [apply H|]. intros _. apply IH.
Qed.

Lemma obeys_invoke {R R'} (D : discipline R) (body : M X R' R') :
  obeys (relaxed R' D) body → obeys D (invoke body).
Proof.
  intros H s Hs. specialize (H s Hs). unfold invoke, run.
  by destruct (body s) as [[[a|r] t] s1].
Qed.

Lemma obeys_relaxed_Return {R R' A} (D : discipline R) (r : R') :
  obeys (relaxed R' D) (Return (A:=A) r).
Proof.
  apply obeys_Return. intros s Hs. cbn. split; [constructor|]. split; [apply frame_refl|done].
Qed.

Lemma halts_bind_l {R A B} (D : discipline R) (m : M X R A) (k : A → M X R B) :
  halts D m → halts D (bind m k).
Proof.
  intros Hm s Hs. unfold bind. specialize (Hm s Hs).
  by destruct (m s) as [[[a|r] t] s1].
Qed.

Lemma halts_bind_r {R A B} (D : discipline R) (m : M X R A) (k : A → M X R B) :
  obeys D m → (∀ a, halts D (k a)) → halts D (bind m k).
Proof.
  intros Hm Hk s Hs. unfold bind. specialize (Hm s Hs).
  destruct (m s) as [[[a|r] t] s1]; [|done].
  destruct Hm as (Ht & Hf & Hs1). specialize (Hk a s1 Hs1).
  destruct (k a s1) as [[[b|r] t'] s2]; [done|].
  by eapply final_after.
Qed.

Lemma halts_bind_get_cfg {R B} (D : discipline R) (k : input_cfg → M X R B) :
  (∀ s0, known D s0 → halts D (k (cfg s0))) → halts D (bind get_cfg k).
Proof.
  intros Hk s Hs. unfold bind, get_cfg. specialize (Hk s Hs s Hs).
  by destruct (k (cfg s) s) as [[[b|r] t'] s2].
Qed.

Lemma halts_run {R} (D : discipline R) (body : M X R R) s :
  halts D body → known D s →
  let '(r, t, s') := run body s in final D s r t s'.
Proof.
  intros H Hs. specialize (H s Hs). unfold run.
  by destruct (body s) as [[[a|r] t] s1].
Qed.

End Discipline.

Arguments discipline X R : clear implicits.
Arguments quiet {X R}.
Arguments frame {X R}.
Arguments known {X R}.
Arguments final {X R}.

(** Going through a statement by its shape; what depends on the discipline
    at hand is left to [side]. *)
Ltac side := cbn; intros; try done; try (intuition (try done; try lia)).

(** The loop of the negotiation is gone through by induction, once, in
    [obeys_choose_loop]; until then [obey] leaves it alone. *)
Ltac obey_loop := fail.
(** Likewise for a setter whose status is tested, see [obeys_checked]. *)
Ltac obey_tested := fail.

Ltac obey :=
  cbv beta;
  lazymatch goal with
  | |- obeys _ (bind get_cfg _) => apply obeys_bind_get_cfg; intros ? ?; obey
  | |- obeys _ (bind get_self _) => apply obeys_bind_get_self; intros ? ?; obey
  | |- obeys _ (bind _ _) =>
      first [apply obeys_bind; [solve [obey] | intros ?; obey] | obey_tested | idtac]
  | |- obeys _ (when _ _) => apply obeys_when; obey
  | |- obeys _ (for_each _ _ _) => apply obeys_for_each; intros ? ?; obey
  | |- obeys _ (ret _) => apply obeys_ret
  | |- obeys (relaxed _ _) (Return _) => apply obeys_relaxed_Return
  | |- obeys _ (Return _) => apply obeys_Return; side
  | |- obeys _ (fprintf _) => apply obeys_emit; side
  | |- obeys _ (emit _) => apply obeys_emit; side
  | |- obeys _ (call_void _ _) => apply obeys_call; side
  | |- obeys _ (call _ _) => apply obeys_call; side
  | |- obeys _ SoapySDRDevice_lastError => apply obeys_lastError
  | |- obeys _ get_self => apply obeys_get_self
  | |- obeys _ get_cfg => apply obeys_get_cfg
  | |- obeys _ (put_cfg _) => apply obeys_put_cfg; side
  | |- obeys _ (modify_self _) => apply obeys_modify_self; side
  | |- obeys _ (invoke _) => apply obeys_invoke; obey
  | |- obeys _ (fail_with _) => unfold fail_with; obey
  | |- obeys _ (init_gain _ _) => unfold init_gain; obey
  | |- obeys _ (init_settings _ _) => unfold init_settings; obey
  | |- obeys _ (init_stream _ _ _) => unfold init_stream; obey
  | |- obeys _ soapysdr_verbose_device_search =>
      unfold soapysdr_verbose_device_search; obey
  | |- obeys _ (soapysdr_choose_sample_format _ _) =>
      unfold soapysdr_choose_sample_format, SoapySDRDevice_getNativeStreamFormat,
        SoapySDRDevice_getStreamFormats; obey
  | |- obeys _ (choose_loop _ _ _) => obey_loop
  | |- obeys _ (match ?x with _ => _ end) => destruct x; obey
  | |- _ => idtac
  end.

Section Callees.
Context {X : Type} `{!SoapySDR X, !Dumphfdl X}.

Lemma obeys_choose_loop {R} (D : discipline X R) source formats result :
  (∀ m, quiet D (Stderr m)) →
  obeys D (choose_loop source formats result).
Proof.
  intros H1. revert result. induction formats as [|f formats IH]; intros result; cbn.
  - obey.
  - destruct (fallback_condition f result) as [[] result']; [obey|apply IH].
Qed.

End Callees.

Ltac obey_loop ::= apply obeys_choose_loop; side.

Section Init_facts.
Context {X : Type} `{!SoapySDR X, !Dumphfdl X}.

(** Nothing but the last three statements of [soapysdr_input_init] stores
    into [sdr] or [stream]. *)
Definition handles_kept : discipline X Z.
Proof.
  refine {| quiet := λ _, True;
            frame := λ s s', sdr (self s') = sdr (self s) ∧ stream (self s') = stream (self s);
            known := λ _, True;
            final := λ s r _ s', r = 0 ∨
              (sdr (self s') = sdr (self s) ∧ stream (self s') = stream (self s)) |}.
  - done.
  - intros s1 s2 s3 [-> ->] [-> ->]. done.
  - done.
  - done.
  - intros s s1 s' r t1 t2 _ [<- <-] [->|[-> ->]]; auto.
Defined.

Lemma init_handles_kept : obeys handles_kept soapysdr_input_init.
Proof.
  unfold soapysdr_input_init.
  obey.
  all: intros s _; cbn; by left.
Qed.

Lemma init_failure_keeps_handles (s : state X) :
  let '(r, _, s') := run soapysdr_input_init s in
  r ≠ 0 → sdr (self s') = sdr (self s) ∧ stream (self s') = stream (self s).
Proof.
  pose proof (init_handles_kept s I) as H. unfold run.
  destruct (soapysdr_input_init s) as [[[r|r] t] s']; cbn in H.
  - by destruct H as (_ & H & _).
  - intros Hr. by destruct H as [->|H].
Qed.

(** *** Runs that set up no stream *)

Definition sets_up_stream (e : event) : Prop :=
  match e with
  | Ev_setupStream _ _ _ | Ev_setupStream_legacy _ _ _ => True
  | _ => False
  end.

(** While [P] holds of the configuration: no stream is set up, the
    configuration is left alone, and every [return] is a [return -1]. *)
Definition no_stream (P : input_cfg → Prop) : discipline X Z.
Proof.
  refine {| quiet := λ e, ¬ sets_up_stream e;
            frame := λ s s', cfg s' = cfg s;
            known := λ s, P (cfg s);
            final := λ _ r t _, r = -1 ∧ Forall (λ e, ¬ sets_up_stream e) t |}.
  - done.
  - intros s1 s2 s3 H1 H2. congruence.
  - done.
  - done.
  - intros s s1 s' r t1 t2 H1 _ [-> H2]. split; [done|by apply Forall_app].
Defined.

Definition gains_unparsable (c : input_cfg) : Prop :=
  ∃ gain_elements, cfg_gain_elements c = Some gain_elements ∧
                   SoapySDRKwargs_fromString gain_elements = [].
Definition settings_unparsable (c : input_cfg) : Prop :=
  ∃ device_settings, cfg_device_settings c = Some device_settings ∧
                     SoapySDRKwargs_fromString device_settings = [].

Lemma init_gain_unparsable sdr c (s : state X) :
  gains_unparsable c →
  init_gain sdr c s = (Returned (-1), [Stderr msg_unable_to_parse_gains], s).
Proof. intros (ge & Hge & Hp). unfold init_gain. by rewrite Hge, Hp. Qed.

Lemma init_settings_unparsable sdr c (s : state X) :
  settings_unparsable c →
  ∃ device_settings, cfg_device_settings c = Some device_settings ∧
  init_settings sdr c s =
    (Returned (-1), [Stderr (msg_unable_to_parse_settings (cfg_source c) device_settings)], s).
Proof. intros (ds & Hds & Hp). exists ds. split; [done|]. unfold init_settings. by rewrite Hds, Hp. Qed.

Ltac halt_until stop :=
  repeat lazymatch goal with
  | |- halts _ (bind get_cfg _) => apply halts_bind_get_cfg; intros ? ?
  | |- halts _ (bind ?m _) =>
      tryif stop m then fail
      else (apply halts_bind_r; [solve [obey] | intros ?])
  end.

Lemma init_halts_gains_unparsable : halts (no_stream gains_unparsable) soapysdr_input_init.
Proof.
  unfold soapysdr_input_init.
  halt_until ltac:(fun m => lazymatch m with init_gain _ _ => idtac end).
  apply halts_bind_l. intros s Hs. rewrite init_gain_unparsable by done. cbn.
  split; [done|]. constructor; [cbn; tauto|constructor].
Qed.

Lemma init_halts_settings_unparsable :
  halts (no_stream settings_unparsable) soapysdr_input_init.
Proof.
  unfold soapysdr_input_init.
  halt_until ltac:(fun m => lazymatch m with init_settings _ _ => idtac end).
  apply halts_bind_l. intros s Hs.
  destruct (init_settings_unparsable a0 (cfg s0) s) as (ds & _ & ->); [done|]. cbn.
  split; [done|]. constructor; [cbn; tauto|constructor].
Qed.

(** A gain string or a settings string that parses to no pair makes
    initialization fail whatever the device is and answers: the block that
    parses it prints the diagnostic of the configuration error and returns
    -1 without a single call to the device, and [soapysdr_input_init] as a
    whole returns -1 from every state, with no stream set up. *)
Lemma unparsable_pairs_halt (c : input_cfg) :
  gains_unparsable c ∨ settings_unparsable c →
  (∀ s : state X, cfg s = c →
     let '(r, t, _) := run soapysdr_input_init s in
     r = -1 ∧ Forall (λ e, ¬ sets_up_stream e) t) ∧
  (gains_unparsable c → ∀ sdr (s : state X),
     init_gain sdr c s = (Returned (-1), [Stderr msg_unable_to_parse_gains], s)) ∧
  (settings_unparsable c → ∀ sdr (s : state X), ∃ device_settings,
     cfg_device_settings c = Some device_settings ∧
     init_settings sdr c s =
       (Returned (-1),
        [Stderr (msg_unable_to_parse_settings (cfg_source c) device_settings)], s)).
Proof.
  intros Hc. split; [|split].
  - intros s <-. destruct Hc as [Hg|Hs].
    + apply (halts_run (no_stream gains_unparsable)); [|done].
      apply init_halts_gains_unparsable.
    + apply (halts_run (no_stream settings_unparsable)); [|done].
      apply init_halts_settings_unparsable.
  - intros Hg sdr s. by apply init_gain_unparsable.
  - intros Hs sdr s. by apply init_settings_unparsable.
Qed.

(** *** Setters whose status is tested *)

(** A call of one of the setters that [soapysdr_input_init] tests, answered
    with a status other than 0. *)
Definition failed (e : event) : Prop :=
  match e with
  | Ev_setSampleRate _ _ rc | Ev_setFrequency _ _ rc | Ev_setFrequencyCorrection _ _ rc
  | Ev_setDCOffsetMode _ _ rc | Ev_setGain _ _ rc | Ev_setGainMode _ _ rc
  | Ev_setAntenna _ _ rc => rc ≠ 0
  | _ => False
  end.

(** The line printed for it, [err] being the library's error text. *)
Definition failure_message (source : string) (e : event) (err : string) : option message :=
  match e with
  | Ev_setSampleRate _ _ _ => Some (msg_setSampleRate_failed source err)
  | Ev_setFrequency _ _ _ => Some (msg_setFrequency_failed source err)
  | Ev_setFrequencyCorrection _ _ _ => Some (msg_setFrequencyCorrection_failed source err)
  | Ev_setDCOffsetMode _ _ _ => Some (msg_setDCOffsetMode_failed source err)
  | Ev_setGain _ _ _ => Some (msg_could_not_set_gain source err)
  | Ev_setGainMode _ _ _ => Some (msg_could_not_enable_auto_gain source err)
  | Ev_setAntenna _ name _ => Some (msg_could_not_select_antenna name err)
  | _ => None
  end.

(** A trace that ends with a failed setter and the line printed for it. *)
Definition ends_in_failure (source : string) (t : list event) (s' : state X) : Prop :=
  ∃ pre e m, t = pre ++ [e; Stderr m] ∧ Forall (λ e, ¬ failed e) pre ∧ failed e ∧
             failure_message source e (api_lastError (env s')) = Some m.

Definition setters_checked (source : string) : discipline X Z.
Proof.
  refine {| quiet := λ e, ¬ failed e;
            frame := λ _ _, True;
            known := λ s, cfg_source (cfg s) = source;
            final := λ _ r t s', Forall (λ e, ¬ failed e) t ∨
                                 (r = -1 ∧ ends_in_failure source t s') |}.
  - done.
  - done.
  - done.
  - done.
  - intros s s1 s' r t1 t2 H1 _ [H2|[-> (pre & e & m & -> & Hpre & He & Hm)]].
    + left. by apply Forall_app.
    + right. split; [done|]. exists (t1 ++ pre), e, m.
      rewrite <- app_assoc. split; [done|]. split; [by apply Forall_app|done].
Defined.

Lemma obeys_assoc {R A B C} (D : discipline X R)
    (m : M X R A) (k : A → M X R B) (k' : B → M X R C) :
  obeys D (bind (bind m k) k') → obeys D (bind m (λ a, bind (k a) k')).
Proof.
  intros H s Hs. specialize (H s Hs). unfold bind in *.
  destruct (m s) as [[[a|r] t] s1]; [|done].
  destruct (k a s1) as [[[b|r] t1] s2]; [|done].
  destruct (k' b s2) as [[[c|r] t2] s3]; by rewrite app_assoc.
Qed.

(** [if(setter(...) != 0) { fprintf(..., lastError()); return -1; }] *)
Lemma obeys_checked source (e : Z → event) f (heading : string → message) :
  (∀ rc, failed (e rc) ↔ rc ≠ 0) →
  (∀ rc err, failure_message source (e rc) err = Some (heading err)) →
  obeys (setters_checked source)
    (bind (call e f) (λ rc, when (bool_decide (rc ≠ 0)) (fail_with heading))).
Proof.
  intros He Hm s Hs. unfold bind, call. destruct (f (env s)) as [rc x].
  case_bool_decide as Hrc; cbn.
  - right. split; [done|]. exists [], (e rc), (heading (api_lastError x)).
    split; [done|]. split; [constructor|]. split; [by apply He|apply Hm].
  - split; [|done]. constructor; [|constructor]. rewrite He. tauto.
Qed.

Ltac side_tested := cbn in *; intros; subst; try done; try tauto.
Ltac obey_tested ::=
  first [ apply obeys_assoc; apply obeys_bind;
            [apply obeys_checked; side_tested | intros ?; obey]
        | apply obeys_checked; side_tested ].

Lemma init_setters_checked source :
  obeys (setters_checked source) soapysdr_input_init.
Proof. unfold soapysdr_input_init. obey. Qed.

Lemma failure_is_last pre e post pre' e' m :
  pre ++ e :: post = pre' ++ [e'; Stderr m] →
  failed e → Forall (λ e, ¬ failed e) pre' →
  e = e' ∧ post = [Stderr m].
Proof.
  revert pre'. induction pre as [|a pre IH]; intros pre' Heq He Hpre'.
  - destruct pre' as [|b pre']; cbn in Heq.
    + by injection Heq as -> ->.
    + injection Heq as -> _. apply Forall_cons in Hpre' as [Hb _]. done.
  - destruct pre' as [|b pre']; cbn in Heq.
    + injection Heq as -> Heq. destruct pre as [|c pre]; cbn in Heq.
      * injection Heq as -> _. done.
      * injection Heq as _ Heq. by destruct pre.
    + injection Heq as -> Heq. apply Forall_cons in Hpre' as [_ Hpre'].
      by eapply IH.
Qed.

(** In a run of [soapysdr_input_init], a tested setter that answers a
    status other than 0 is the last call of the run. *)
Lemma tested_failure_ends_run (s : state X) pre e post :
  let '(r, t, s') := run soapysdr_input_init s in
  t = pre ++ e :: post →
  failed e →
  r = -1 ∧
  ∃ m, failure_message (cfg_source (cfg s)) e (api_lastError (env s')) = Some m ∧
       post = [Stderr m].
Proof.
  pose proof (init_setters_checked (cfg_source (cfg s)) s eq_refl) as H. unfold run.
  destruct (soapysdr_input_init s) as [[[r|r] t] s']; cbn in H; intros -> He.
  - destruct H as (H & _). apply Forall_app in H as [_ H].
    by apply Forall_cons in H as [H _].
  - destruct H as [H|[-> (pre' & e' & m & Heq & Hpre' & He' & Hm)]].
    + apply Forall_app in H as [_ H]. by apply Forall_cons in H as [H _].
    + destruct (failure_is_last _ _ _ _ _ _ Heq He Hpre') as [-> ->]. eauto.
Qed.

(** *** Gain *)

(** What applying one gain element leaves in the trace: the setter with
    its status, the getter with the value read back, and the line that
    prints that value. *)
Definition gain_element_events (sdr : ptr) (source : string)
    (pair : string * string) (answer : Z * double) : list event :=
  [Ev_setGainElement sdr pair.1 (atof pair.2) answer.1;
   Ev_getGainElement sdr pair.1 answer.2;
   Stderr (msg_gain_element_set source pair.1 answer.2)].

Definition set_cfg_gain (v : float) (c : input_cfg) : input_cfg :=
  {| cfg_source := cfg_source c; cfg_gain_elements := cfg_gain_elements c;
     cfg_antenna := cfg_antenna c; cfg_device_settings := cfg_device_settings c;
     cfg_gain := v; cfg_correction := cfg_correction c;
     cfg_sample_rate := cfg_sample_rate c; cfg_centerfreq := cfg_centerfreq c;
     cfg_freq_offset := cfg_freq_offset c; cfg_sfmt := cfg_sfmt c |}.

Definition with_env (x : X) (s : state X) : state X :=
  {| env := x; self := self s; cfg := cfg s |}.

Lemma gain_elements_in_order sdr source gains i (s : state X) :
  ∃ answers x,
    length answers = length gains ∧
    for_each (R:=Z) (λ _ '(key, val),
        let* _ := call (Ev_setGainElement sdr key (atof val))
                       (api_setGainElement sdr key (atof val)) in
        let* gain_value := call (Ev_getGainElement sdr key) (api_getGainElement sdr key) in
        fprintf (msg_gain_element_set source key gain_value)) i gains s
    = (Next tt, mjoin (zip_with (gain_element_events sdr source) gains answers), with_env x s).
Proof.
  match goal with |- context [for_each ?f] => set (body := f) end.
  revert i s. induction gains as [|[key val] gains IH]; intros i s.
  - exists [], (env s). split; [done|]. by destruct s.
  - assert (∃ rc g x2, body i (key, val) s =
              (Next tt, gain_element_events sdr source (key, val) (rc, g), with_env x2 s))
      as (rc & g & x2 & Hbody).
    { unfold body, bind, call, fprintf, emit.
      destruct (api_setGainElement sdr key (atof val) (env s)) as [rc x1]. cbn.
      destruct (api_getGainElement sdr key x1) as [g x2]. by exists rc, g, x2. }
    destruct (IH (i + 1) (with_env x2 s)) as (answers & x & Hlen & Hrest).
    exists ((rc, g) :: answers), x. split; [cbn; by rewrite Hlen|].
    cbn [for_each]. unfold bind at 1. rewrite Hbody, Hrest. done.
Qed.

(** The gain block of [soapysdr_input_init] goes by precedence.  With
    a gain string that parses to at least one pair, the pairs are applied
    one after the other in the order given, each followed by reading the
    value back and printing it, and the scalar gain plays no part.  Without
    a gain string and with a scalar gain other than [AUTO_GAIN], the scalar
    is set, and a status other than 0 is fatal.  Otherwise the device is
    asked whether it has an automatic gain mode: not having one is fatal,
    and so is a status other than 0 when the mode is switched on. *)
Lemma init_gain_cases sdr (c : input_cfg) (s : state X) :
  (∀ gain_elements gains,
     cfg_gain_elements c = Some gain_elements →
     SoapySDRKwargs_fromString gain_elements = gains →
     gains ≠ [] →
     (∃ answers x,
        length answers = length gains ∧
        init_gain sdr c s =
          (Next tt,
           mjoin (zip_with (gain_element_events sdr (cfg_source c)) gains answers)
             ++ [Ev_Kwargs_clear],
           with_env x s)) ∧
     (∀ g, init_gain sdr (set_cfg_gain g c) s = init_gain sdr c s)) ∧
  (cfg_gain_elements c = None →
   fp_ne (cfg_gain c) AUTO_GAIN = true →
   ∀ rc x, api_setGain sdr (double_of_float (cfg_gain c)) (env s) = (rc, x) →
     init_gain sdr c s =
       if bool_decide (rc ≠ 0) then
         (Returned (-1),
          [Ev_setGain sdr (double_of_float (cfg_gain c)) rc;
           Stderr (msg_could_not_set_gain (cfg_source c) (api_lastError x))],
          with_env x s)
       else
         (Next tt,
          [Ev_setGain sdr (double_of_float (cfg_gain c)) rc;
           Stderr (msg_gain_set (cfg_source c) (cfg_gain c))],
          with_env x s)) ∧
  (cfg_gain_elements c = None →
   fp_ne (cfg_gain c) AUTO_GAIN = false →
   ∀ has x1 rc x2,
     api_hasGainMode sdr (env s) = (has, x1) →
     api_setGainMode sdr true x1 = (rc, x2) →
     init_gain sdr c s =
       if negb has then
         (Returned (-1),
          [Ev_hasGainMode sdr has; Stderr (msg_no_auto_gain (cfg_source c))],
          with_env x1 s)
       else if bool_decide (rc ≠ 0) then
         (Returned (-1),
          [Ev_hasGainMode sdr has; Ev_setGainMode sdr true rc;
           Stderr (msg_could_not_enable_auto_gain (cfg_source c) (api_lastError x2))],
          with_env x2 s)
       else
         (Next tt,
          [Ev_hasGainMode sdr has; Ev_setGainMode sdr true rc;
           Stderr (msg_auto_gain_enabled (cfg_source c))],
          with_env x2 s)).
Proof.
  split; [|split].
  - intros ge gains Hge Hparse Hne. split.
    + destruct (gain_elements_in_order sdr (cfg_source c) gains 0 s)
        as (answers & x & Hlen & Hloop).
      exists answers, x. split; [done|].
      unfold init_gain. rewrite Hge, Hparse.
      rewrite bool_decide_eq_false_2 by (destruct gains; [done|cbn; lia]).
      unfold when, bind at 1, ret. unfold bind at 1. rewrite Hloop.
      unfold emit. by rewrite app_nil_l.
    + intros g. unfold init_gain. cbn. by rewrite Hge.
  - intros Hnone Hne rc x Hset. unfold init_gain. rewrite Hnone, Hne.
    unfold bind at 1, call at 1. rewrite Hset.
    case_bool_decide; cbn; done.
  - intros Hnone Heq has x1 rc x2 Hhas Hset. unfold init_gain. rewrite Hnone, Heq.
    unfold bind at 1, call at 1. rewrite Hhas.
    destruct has.
    + rewrite (bool_decide_eq_false_2 (true = false)) by done.
      unfold bind, when, ret, call. cbn [env]. rewrite Hset.
      case_bool_decide; cbn; done.
    + rewrite (bool_decide_eq_true_2 (false = false)) by done. cbn. done.
Qed.

(** What writing one vendor setting leaves in the trace: the write with its
    status, the read with the value read back, and the line that compares
    the two. *)
Definition setting_events (sdr : ptr) (source : string)
    (pair : string * string) (answer : Z * string) : list event :=
  [Ev_writeSetting sdr pair.1 pair.2 answer.1;
   Ev_readSetting sdr pair.1 answer.2;
   Stderr (msg_setting source pair.1 answer.2 (bool_decide (pair.2 = answer.2)))].

Lemma settings_in_order sdr source pairs i (s : state X) :
  ∃ answers x,
    length answers = length pairs ∧
    for_each (R:=Z) (λ _ '(key, val),
        let* _ := call (Ev_writeSetting sdr key val) (api_writeSetting sdr key val) in
        let* setting_value := call (Ev_readSetting sdr key) (api_readSetting sdr key) in
        fprintf (msg_setting source key setting_value
                   (bool_decide (val = setting_value)))) i pairs s
    = (Next tt, mjoin (zip_with (setting_events sdr source) pairs answers), with_env x s).
Proof.
  match goal with |- context [for_each ?f] => set (body := f) end.
  revert i s. induction pairs as [|[key val] pairs IH]; intros i s.
  - exists [], (env s). split; [done|]. by destruct s.
  - assert (∃ rc v x2, body i (key, val) s =
              (Next tt, setting_events sdr source (key, val) (rc, v), with_env x2 s))
      as (rc & v & x2 & Hbody).
    { unfold body, bind, call, fprintf, emit.
      destruct (api_writeSetting sdr key val (env s)) as [rc x1]. cbn.
      destruct (api_readSetting sdr key x1) as [v x2]. by exists rc, v, x2. }
    destruct (IH (i + 1) (with_env x2 s)) as (answers & x & Hlen & Hrest).
    exists ((rc, v) :: answers), x. split; [cbn; by rewrite Hlen|].
    cbn [for_each]. unfold bind at 1. rewrite Hbody, Hrest. done.
Qed.

(** C5, as amended.  In a run of [soapysdr_input_init], a call of
    setSampleRate, setFrequency, setFrequencyCorrection, setDCOffsetMode,
    setGain, setGainMode or setAntenna that answers a status other than 0
    is the last call of the run: one line follows, the diagnostic of that
    setter with the library's own error text, and the result is -1.  The
    statuses of setGainElement and writeSetting are not looked at: whatever
    they are, each call is followed by the read-back and its line, and the
    block falls through to the next step. *)
Theorem tested_setter_failure_is_fatal (s : state X) :
  (∀ pre e post,
     let '(r, t, s') := run soapysdr_input_init s in
     t = pre ++ e :: post →
     failed e →
     r = -1 ∧
     ∃ m, failure_message (cfg_source (cfg s)) e (api_lastError (env s')) = Some m ∧
          post = [Stderr m]) ∧
  (∀ sdr c gain_elements,
     cfg_gain_elements c = Some gain_elements →
     SoapySDRKwargs_fromString gain_elements ≠ [] →
     ∃ answers x,
       length answers = length (SoapySDRKwargs_fromString gain_elements) ∧
       init_gain sdr c s =
         (Next tt,
          mjoin (zip_with (gain_element_events sdr (cfg_source c))
                   (SoapySDRKwargs_fromString gain_elements) answers) ++ [Ev_Kwargs_clear],
          with_env x s)) ∧
  (∀ sdr c device_settings,
     cfg_device_settings c = Some device_settings →
     SoapySDRKwargs_fromString device_settings ≠ [] →
     ∃ answers x,
       length answers = length (SoapySDRKwargs_fromString device_settings) ∧
       init_settings sdr c s =
         (Next tt,
          mjoin (zip_with (setting_events sdr (cfg_source c))
                   (SoapySDRKwargs_fromString device_settings) answers) ++ [Ev_Kwargs_clear],
          with_env x s)).
Proof.
  split; [|split].
  - intros pre e post. apply tested_failure_ends_run.
  - intros sdr c ge Hge Hne.
    destruct (gain_elements_in_order sdr (cfg_source c) (SoapySDRKwargs_fromString ge) 0 s)
      as (answers & x & Hlen & Hloop).
    exists answers, x. split; [done|].
    unfold init_gain. rewrite Hge.
    rewrite bool_decide_eq_false_2
      by (destruct (SoapySDRKwargs_fromString ge); [done|cbn; lia]).
    unfold when, bind at 1, ret. unfold bind at 1. rewrite Hloop.
    unfold emit. by rewrite app_nil_l.
  - intros sdr c ds Hds Hne.
    destruct (settings_in_order sdr (cfg_source c) (SoapySDRKwargs_fromString ds) 0 s)
      as (answers & x & Hlen & Hloop).
    exists answers, x. split; [done|].
    unfold init_settings. rewrite Hds.
    rewrite bool_decide_eq_false_2
      by (destruct (SoapySDRKwargs_fromString ds); [done|cbn; lia]).
    unfold when, bind at 1, ret. unfold bind at 1. rewrite Hloop.
    unfold emit. by rewrite app_nil_l.
Qed.

End Init_facts.

(** ** The capture worker *)

Section Capture_facts.
Context {X : Type} `{!SoapySDR X, !Dumphfdl X}.

Lemma length_stored {A} (data buf : list A) : length (stored data buf) = length buf.
Proof.
  unfold stored. rewrite length_take, length_app, length_drop. lia.
Qed.

Lemma take_stored {A} (data buf : list A) :
  (length data ≤ length buf)%nat → take (length data) (stored data buf) = data.
Proof.
  intros Hle. unfold stored. rewrite take_take, Nat.min_l by done.
  by rewrite take_app_length.
Qed.

(** One turn of the loop, by what the test and the read give. *)
Lemma capture_loop_left {R} fuel inbuf outbuf (s : state X) :
  load_do_exit (env s) ≠ 0 →
  capture_loop (R:=R) (S fuel) inbuf outbuf s =
    (Next (Some (inbuf, outbuf)), [Ev_load_do_exit (load_do_exit (env s))], s).
Proof.
  intros Hflag. cbn [capture_loop]. unfold bind at 1, do_exit, call. cbn [env self cfg].
  rewrite bool_decide_eq_false_2 by done. unfold ret. destruct s; done.
Qed.

Lemma capture_loop_turn {R} fuel inbuf outbuf (s : state X) n raw x :
  load_do_exit (env s) = 0 →
  api_readStream (sdr (self s)) (stream (self s)) (in_max_tu (si_input (self s)))
    SOAPYSDR_READSTREAM_TIMEOUT_US (env s) = ((n, raw), x) →
  capture_loop (R:=R) (S fuel) inbuf outbuf s =
    let input := si_input (self s) in
    let read := Ev_readStream (sdr (self s)) (stream (self s)) (in_max_tu input)
                  SOAPYSDR_READSTREAM_TIMEOUT_US (n, raw) in
    let inbuf := stored raw inbuf in
    if bool_decide (n < 0) then
      let '(o, t, s') := capture_loop (R:=R) fuel inbuf outbuf (with_env x s) in
      (o, [Ev_load_do_exit 0; read;
           Stderr (msg_readStream_failed (cfg_source (cfg s)) (SoapySDR_errToStr n))] ++ t, s')
    else
      let len := size_t (int32_t (n * in_bytes_per_sample input)) in
      let outbuf := stored (convert_sample_buffer (cfg s) input (take (Z.to_nat len) inbuf))
                      outbuf in
      let samples := take (Z.to_nat (size_t n)) outbuf in
      let '(o, t, s') := capture_loop (R:=R) fuel inbuf outbuf
                           (with_env (env_complex_samples_produce samples x) s) in
      (o, [Ev_load_do_exit 0; read; Ev_convert_sample_buffer len;
           Ev_complex_samples_produce samples] ++ t, s').
Proof.
  intros Hflag Hread. cbn [capture_loop]. unfold bind at 1, do_exit, call at 1.
  cbn [env self cfg]. rewrite Hflag. rewrite bool_decide_eq_true_2 by done.
  unfold bind at 1, get_self. unfold bind at 1, get_cfg. unfold bind at 1, call at 1.
  cbn [env self cfg]. rewrite Hread. cbv zeta.
  case_bool_decide.
  - unfold bind at 1, fprintf, emit. unfold with_env.
    by destruct (capture_loop fuel _ _ _) as [[o t] s'].
  - unfold bind at 1, emit. unfold bind at 1, call_void, call. cbn [env self cfg].
    unfold with_env.
    by destruct (capture_loop fuel _ _ _) as [[o t] s'].
Qed.

Lemma capture_loop_tests_first {R} fuel inbuf outbuf (s : state X) :
  ∃ rest, (capture_loop (R:=R) (S fuel) inbuf outbuf s).1.2
          = Ev_load_do_exit (load_do_exit (env s)) :: rest.
Proof.
  destruct (decide (load_do_exit (env s) = 0)) as [Hflag|Hflag].
  - destruct (api_readStream (sdr (self s)) (stream (self s))
                (in_max_tu (si_input (self s))) SOAPYSDR_READSTREAM_TIMEOUT_US (env s))
      as [[n raw] x] eqn:Hread.
    rewrite (capture_loop_turn _ _ _ _ n raw x) by done. cbv zeta. rewrite Hflag.
    case_bool_decide; destruct (capture_loop fuel _ _ _) as [[o t] s']; cbn; eauto.
  - rewrite capture_loop_left by done. cbn. eauto.
Qed.

(** C6.  A turn of the loop whose read answers a negative value prints the
    error and goes back to the head of the loop: the turn leaves the test,
    the read and the printed line in the trace, nothing is converted or
    pushed, the output buffer is as before, and what follows is the loop
    itself, which begins by testing [do_exit] again. *)
Theorem negative_read_continues {R} fuel inbuf outbuf (s : state X) n raw x :
  load_do_exit (env s) = 0 →
  api_readStream (sdr (self s)) (stream (self s)) (in_max_tu (si_input (self s)))
    SOAPYSDR_READSTREAM_TIMEOUT_US (env s) = ((n, raw), x) →
  n < 0 →
  capture_loop (R:=R) (S fuel) inbuf outbuf s =
    (let '(o, t, s') := capture_loop (R:=R) fuel (stored raw inbuf) outbuf (with_env x s) in
     (o,
      [Ev_load_do_exit 0;
       Ev_readStream (sdr (self s)) (stream (self s)) (in_max_tu (si_input (self s)))
         SOAPYSDR_READSTREAM_TIMEOUT_US (n, raw);
       Stderr (msg_readStream_failed (cfg_source (cfg s)) (SoapySDR_errToStr n))] ++ t,
      s')) ∧
  ∀ more, ∃ rest,
    (capture_loop (R:=R) (S more) (stored raw inbuf) outbuf (with_env x s)).1.2
    = Ev_load_do_exit (load_do_exit x) :: rest.
Proof.
  intros Hflag Hread Hn. split.
  - rewrite (capture_loop_turn _ _ _ _ n raw x) by done.
    cbv zeta. by rewrite bool_decide_eq_true_2.
  - intros more. apply capture_loop_tests_first.
Qed.

(** C7.  A turn of the loop whose read answers [n >= 0] samples converts
    the first [n * bytes_per_sample] bytes of the input buffer and pushes
    the [n] samples that come out of it, in that order, once; with [n = 0]
    what is pushed is empty.  The read is taken to answer at most [max_tu],
    the buffers to have the sizes they are allocated with, the byte count
    to fit an [int], and the converter to yield one sample per
    [bytes_per_sample] bytes. *)
Theorem read_samples_are_pushed {R} fuel inbuf outbuf (s : state X) n raw x :
  let input := si_input (self s) in
  let bps := in_bytes_per_sample input in
  load_do_exit (env s) = 0 →
  api_readStream (sdr (self s)) (stream (self s)) (in_max_tu input)
    SOAPYSDR_READSTREAM_TIMEOUT_US (env s) = ((n, raw), x) →
  0 ≤ n ≤ in_max_tu input →
  0 < bps →
  in_max_tu input * bps < 2 ^ 31 →
  length inbuf = Z.to_nat (in_max_tu input * bps) →
  length outbuf = Z.to_nat (in_max_tu input) →
  (∀ bytes, length (convert_sample_buffer (cfg s) input bytes)
            = (length bytes / Z.to_nat bps)%nat) →
  let bytes := take (Z.to_nat (n * bps)) (stored raw inbuf) in
  let samples := convert_sample_buffer (cfg s) input bytes in
  length bytes = Z.to_nat (n * bps) ∧
  length samples = Z.to_nat n ∧
  capture_loop (R:=R) (S fuel) inbuf outbuf s =
    let '(o, t, s') := capture_loop (R:=R) fuel (stored raw inbuf) (stored samples outbuf)
                         (with_env (env_complex_samples_produce samples x) s) in
    (o,
     [Ev_load_do_exit 0;
      Ev_readStream (sdr (self s)) (stream (self s)) (in_max_tu input)
        SOAPYSDR_READSTREAM_TIMEOUT_US (n, raw);
      Ev_convert_sample_buffer (n * bps);
      Ev_complex_samples_produce samples] ++ t,
     s').
Proof.
  intros input bps Hflag Hread Hn Hbps Hfit Hin Hout Hconv bytes samples.
  assert (size_t (int32_t (n * bps)) = n * bps) as Hlen.
  { unfold size_t, int32_t.
    rewrite (Z.mod_small (n * bps + 2 ^ 31)) by nia.
    rewrite Z.mod_small by nia. lia. }
  assert (size_t n = n) as Hsize by (unfold size_t; rewrite Z.mod_small; nia).
  assert (length bytes = Z.to_nat (n * bps)) as Hbytes.
  { unfold bytes. rewrite length_take, length_stored, Hin. nia. }
  assert (length samples = Z.to_nat n) as Hsamples.
  { unfold samples. rewrite Hconv, Hbytes, Z2Nat.inj_mul by lia.
    apply Nat.div_mul. lia. }
  split; [done|]. split; [done|].
  rewrite (capture_loop_turn _ _ _ _ n raw x) by done.
  cbv zeta. rewrite bool_decide_eq_false_2 by lia.
  fold input. fold bps. rewrite Hlen, Hsize. fold bytes. fold samples.
  assert (take (Z.to_nat n) (stored samples outbuf) = samples) as ->; [|done].
  rewrite <- Hsamples. apply take_stored. lia.
Qed.

(** *** Shutdown *)

(** The steps of the shutdown sequence, whatever their arguments. *)
Definition tears_down (e : event) : Prop :=
  match e with
  | Ev_deactivateStream _ _ _ | Ev_closeStream _ _ _ | Ev_unmake _ _
  | Ev_connection_shutdown | Ev_store_running _ | Ev_XFREE _ => True
  | _ => False
  end.

(** The sequence itself, on the handles of [o]; the statuses answered by the
    library are not looked at. *)
Definition shutdown_sequence (o : soapysdr_input) (rc1 rc2 rc3 : Z) : list event :=
  [Ev_deactivateStream (sdr o) (stream o) rc1;
   Ev_closeStream (sdr o) (stream o) rc2;
   Ev_unmake (sdr o) rc3;
   Ev_connection_shutdown;
   Ev_store_running false;
   Ev_XFREE Inbuf;
   Ev_XFREE Outbuf].

Lemma capture_loop_runs {R} fuel inbuf outbuf (s : state X) :
  let '(o, t, s') := capture_loop (R:=R) fuel inbuf outbuf s in
  Forall (λ e, ¬ tears_down e) t ∧ self s' = self s ∧ cfg s' = cfg s ∧
  match o with
  | Next (Some _) => ∃ pre v, t = pre ++ [Ev_load_do_exit v] ∧ v ≠ 0
  | Next None => True
  | Returned _ => False
  end.
Proof.
  revert inbuf outbuf s. induction fuel as [|fuel IH]; intros inbuf outbuf s.
  - cbn. by repeat split.
  - destruct (decide (load_do_exit (env s) = 0)) as [Hflag|Hflag].
    + destruct (api_readStream (sdr (self s)) (stream (self s))
                  (in_max_tu (si_input (self s))) SOAPYSDR_READSTREAM_TIMEOUT_US (env s))
        as [[n raw] x] eqn:Hread.
      rewrite (capture_loop_turn _ _ _ _ n raw x) by done. cbv zeta.
      case_bool_decide.
      * specialize (IH (stored raw inbuf) outbuf (with_env x s)).
        destruct (capture_loop fuel _ _ _) as [[o t] s'].
        destruct IH as (Ht & Hself & Hcfg & Ho). cbn in Hself, Hcfg.
        split; [|split; [done|split; [done|]]].
        { repeat (constructor; [cbn; tauto|]). done. }
        destruct o as [[b|]|r]; [|done..].
        destruct Ho as (pre & v & -> & Hv). eexists (_ :: _ :: _ :: pre), v. done.
      * match goal with |- context [capture_loop fuel ?i ?o ?s1] =>
          specialize (IH i o s1); destruct (capture_loop fuel i o s1) as [[o' t] s'] end.
        destruct IH as (Ht & Hself & Hcfg & Ho). cbn in Hself, Hcfg.
        split; [|split; [done|split; [done|]]].
        { repeat (constructor; [cbn; tauto|]). done. }
        destruct o' as [[b|]|r]; [|done..].
        destruct Ho as (pre & v & -> & Hv). eexists (_ :: _ :: _ :: _ :: pre), v. done.
    + rewrite capture_loop_left by done.
      split; [|split; [done|split; [done|]]].
      { repeat (constructor; [cbn; tauto|]). constructor. }
      by exists [], (load_do_exit (env s)).
Qed.

(** The shutdown sequence, run from any state. *)
Lemma shutdown_run (s : state X) :
  let o := self s in
  let '(rc1, x1) := api_deactivateStream (sdr o) (stream o) (env s) in
  let '(rc2, x2) := api_closeStream (sdr o) (stream o) x1 in
  let '(rc3, x3) := api_unmake (sdr o) x2 in
  shutdown s =
    (Returned (Some NULL),
     Debug_shutdown :: shutdown_sequence o rc1 rc2 rc3,
     {| env := env_connection_shutdown x3;
        self := set_input (set_running false) o;
        cfg := cfg s |}).
Proof.
  cbv zeta.
  unfold shutdown, bind, get_self, emit, call_void, call, modify_self, get_self, put_self,
    Return. cbn [env self cfg].
  destruct (api_deactivateStream (sdr (self s)) (stream (self s)) (env s)) as [rc1 x1].
  cbn [env self cfg].
  destruct (api_closeStream (sdr (self s)) (stream (self s)) x1) as [rc2 x2].
  cbn [env self cfg].
  by destruct (api_unmake (sdr (self s)) x2) as [rc3 x3].
Qed.

(** What the worker does before and after its loop. *)
Definition start (o : soapysdr_input) (rc : Z) : list event :=
  [Ev_XCALLOC Inbuf (in_max_tu (si_input o)) (in_bytes_per_sample (si_input o));
   Ev_XCALLOC Outbuf (in_max_tu (si_input o)) 8;
   Ev_activateStream (sdr o) (stream o) rc].

Lemma thread_run fuel (s : state X) :
  let o := self s in
  let input := si_input o in
  let inbuf := replicate (Z.to_nat (in_max_tu input * in_bytes_per_sample input)) Byte.x00 in
  let outbuf := replicate (Z.to_nat (in_max_tu input)) czero in
  let '(rc, x) := api_activateStream (sdr o) (stream o) (env s) in
  soapysdr_input_thread fuel s =
    if bool_decide (rc ≠ 0) then
      let '(r, t, s') := shutdown (with_env (store_do_exit 1 x) s) in
      (r,
       start o rc ++ [Stderr (msg_activate_failed (cfg_source (cfg s)) (SoapySDR_errToStr rc));
                      Ev_store_do_exit 1] ++ t,
       s')
    else
      match capture_loop fuel inbuf outbuf (with_env (env_usleep 100000 x) s) with
      | (Next (Some _), t, s1) =>
          let '(r, t', s') := shutdown s1 in
          (r, start o rc ++ [Ev_usleep 100000] ++ t ++ t', s')
      | (Next None, t, s1) => (Returned None, start o rc ++ [Ev_usleep 100000] ++ t, s1)
      | (Returned r, t, s1) => (Returned r, start o rc ++ [Ev_usleep 100000] ++ t, s1)
      end.
Proof.
  cbv zeta. unfold soapysdr_input_thread.
  unfold bind at 1, get_self. unfold bind at 1, get_cfg.
  unfold bind at 1, emit at 1. unfold bind at 1, emit at 1.
  unfold bind at 1, call at 1. cbn [env self cfg].
  destruct (api_activateStream (sdr (self s)) (stream (self s)) (env s)) as [rc x].
  case_bool_decide as Hrc.
  - unfold bind at 1. unfold bind at 1, fprintf, emit. unfold bind at 1, call_void, call, ret.
    cbn [env self cfg]. unfold with_env.
    by destruct (shutdown _) as [[r t] s'].
  - unfold bind at 1. unfold bind at 1, call_void, call. cbn [env self cfg]. unfold with_env.
    match goal with |- context [capture_loop fuel ?i ?b ?s1] =>
      pose proof (capture_loop_runs (R:=option ptr) fuel i b s1) as Hloop;
      destruct (capture_loop fuel i b s1) as [[[[bufs|]|r] t] s1'] end; cbv beta iota.
    + destruct (shutdown s1') as [[r t'] s']. by cbn.
    + unfold Return. cbn. by rewrite app_nil_r.
    + by destruct Hloop as (_ & _ & _ & []).
Qed.
(** Whenever the worker returns, the shutdown sequence has run once and
    whole, as the last thing in the trace and in the order deactivate,
    close, unmake, shutdown of the connection, [running = false], free of
    both buffers; before it, no step of the sequence occurs.  The worker
    returns either after a failed activation, having stored 1 into
    [do_exit] just before the sequence, or after a test of [do_exit] that
    read a value other than 0.  As long as it has not returned, the
    activation has succeeded and no step of the sequence has run. *)
Lemma worker_returns_through_shutdown fuel (s : state X) :
  let o := self s in
  let input := si_input o in
  let start rc := [Ev_XCALLOC Inbuf (in_max_tu input) (in_bytes_per_sample input);
                   Ev_XCALLOC Outbuf (in_max_tu input) 8;
                   Ev_activateStream (sdr o) (stream o) rc] in
  let '(r, t, s') := run (soapysdr_input_thread fuel) s in
  match r with
  | None =>
      Forall (λ e, ¬ tears_down e) t ∧
      fst (api_activateStream (sdr o) (stream o) (env s)) = 0
  | Some p =>
      p = NULL ∧ in_running (si_input (self s')) = false ∧
      ∃ pre rc1 rc2 rc3,
        t = pre ++ Debug_shutdown :: shutdown_sequence o rc1 rc2 rc3 ∧
        Forall (λ e, ¬ tears_down e) pre ∧
        ((∃ rc m, rc ≠ 0 ∧ pre = start rc ++ [Stderr m; Ev_store_do_exit 1]) ∨
         (∃ turns v, v ≠ 0 ∧
            pre = start 0 ++ [Ev_usleep 100000] ++ turns ++ [Ev_load_do_exit v]))
  end.
Proof.
  intros o input start. unfold run, soapysdr_input_thread.
  unfold bind at 1, get_self. unfold bind at 1, get_cfg.
  unfold bind at 1, emit at 1. unfold bind at 1, emit at 1.
  unfold bind at 1, call at 1. cbn [env self cfg].
  fold o. fold input.
  destruct (api_activateStream (sdr o) (stream o) (env s)) as [rc x] eqn:Hact.
  cbn [fst].
  assert (∀ s1 : state X, self s1 = o →
            ∃ rc1 rc2 rc3 s2,
              shutdown s1 = (Returned (Some NULL),
                             Debug_shutdown :: shutdown_sequence o rc1 rc2 rc3, s2) ∧
              in_running (si_input (self s2)) = false) as Hdown.
  { intros s1 Hs1. unfold shutdown, bind, get_self, emit, call_void, call, modify_self,
      get_self, put_self, Return. cbn [env self cfg]. rewrite Hs1.
    destruct (api_deactivateStream (sdr o) (stream o) (env s1)) as [rc1 x1].
    cbn [env self cfg].
    destruct (api_closeStream (sdr o) (stream o) x1) as [rc2 x2].
    cbn [env self cfg].
    destruct (api_unmake (sdr o) x2) as [rc3 x3]. cbn.
    by eexists rc1, rc2, rc3, _. }
  case_bool_decide as Hrc.
  - unfold bind at 1. unfold bind at 1, fprintf, emit. unfold bind at 1, call_void, call, ret.
    cbn [env self cfg].
    match goal with |- context [shutdown ?s1] =>
      destruct (Hdown s1 eq_refl) as (rc1 & rc2 & rc3 & s2 & -> & Hrun) end.
    cbn. split; [reflexivity|]. split; [exact Hrun|].
    exists (start rc ++ [Stderr (msg_activate_failed (cfg_source (cfg s)) (SoapySDR_errToStr rc));
                         Ev_store_do_exit 1]), rc1, rc2, rc3.
    split; [done|]. split.
    + repeat (constructor; [cbn; tauto|]). constructor.
    + left. by eexists rc, _.
  - assert (rc = 0) as -> by (destruct (decide (rc = 0)); [done|by destruct Hrc]).
    unfold bind at 1. unfold bind at 1, call_void, call. cbn [env self cfg].
    match goal with |- context [capture_loop fuel ?i ?b ?s1] =>
      pose proof (capture_loop_runs (R:=option ptr) fuel i b s1) as Hloop;
      destruct (capture_loop fuel i b s1) as [[[[bufs|]|r] t] s1'] end.
    + destruct Hloop as (Ht & Hself & _ & pre & v & -> & Hv). cbn in Hself.
      destruct (Hdown s1' Hself) as (rc1 & rc2 & rc3 & s2 & -> & Hrun).
      cbn. split; [reflexivity|]. split; [exact Hrun|].
      exists (start 0 ++ [Ev_usleep 100000] ++ pre ++ [Ev_load_do_exit v]), rc1, rc2, rc3.
      split; [cbn; by rewrite <- !app_assoc|]. split.
      * repeat (constructor; [cbn; tauto|]). done.
      * right. by exists pre, v.
    + destruct Hloop as (Ht & _). cbn. split; [|done].
      repeat (constructor; [cbn; tauto|]). by rewrite app_nil_r.
    + by destruct Hloop as (_ & _ & _ & []).
Qed.

(** A loop that was cut goes on, with more fuel, from the state and the
    buffers it was cut at. *)
Lemma capture_loop_cut {R} fuel inbuf outbuf (s : state X) t s1 :
  capture_loop (R:=R) fuel inbuf outbuf s = (Next None, t, s1) →
  ∃ inbuf' outbuf', ∀ more,
    capture_loop (R:=R) (fuel + more) inbuf outbuf s =
      let '(o, t', s') := capture_loop (R:=R) more inbuf' outbuf' s1 in (o, t ++ t', s').
Proof.
  revert inbuf outbuf s t. induction fuel as [|fuel IH]; intros inbuf outbuf s t Hcut.
  - cbn in Hcut. injection Hcut as <- <-. exists inbuf, outbuf. intros more. cbn.
    by destruct (capture_loop more inbuf outbuf s) as [[o t'] s'].
  - destruct (decide (load_do_exit (env s) = 0)) as [Hflag|Hflag].
    + destruct (api_readStream (sdr (self s)) (stream (self s))
                  (in_max_tu (si_input (self s))) SOAPYSDR_READSTREAM_TIMEOUT_US (env s))
        as [[n raw] x] eqn:Hread.
      rewrite (capture_loop_turn _ _ _ _ n raw x) in Hcut by done. cbv zeta in Hcut.
      case_bool_decide.
      * destruct (capture_loop fuel _ _ _) as [[o t0] s0] eqn:Hrest.
        injection Hcut as -> <- ->.
        destruct (IH _ _ _ _ Hrest) as (inbuf' & outbuf' & Hmore).
        exists inbuf', outbuf'. intros more. cbn [Nat.add].
        rewrite (capture_loop_turn _ _ _ _ n raw x) by done. cbv zeta.
        rewrite bool_decide_eq_true_2 by done. rewrite Hmore.
        by destruct (capture_loop more inbuf' outbuf' s1) as [[o t'] s'].
      * destruct (capture_loop fuel _ _ _) as [[o t0] s0] eqn:Hrest.
        injection Hcut as -> <- ->.
        destruct (IH _ _ _ _ Hrest) as (inbuf' & outbuf' & Hmore).
        exists inbuf', outbuf'. intros more. cbn [Nat.add].
        rewrite (capture_loop_turn _ _ _ _ n raw x) by done. cbv zeta.
        rewrite bool_decide_eq_false_2 by done. rewrite Hmore.
        by destruct (capture_loop more inbuf' outbuf' s1) as [[o t'] s'].
    + rewrite capture_loop_left in Hcut by done. discriminate Hcut.
Qed.

(** The worker that is still in its loop after [fuel] tests is at the head
    of the loop, in the state it is cut at: with one more test, a value of
    [do_exit] other than 0 there makes it leave, shut down and return, and
    the value 0 makes it read. *)
Lemma worker_next_test fuel (s : state X) t s1 :
  run (soapysdr_input_thread fuel) s = (None, t, s1) →
  let v := load_do_exit (env s1) in
  self s1 = self s ∧
  (v ≠ 0 →
   ∃ rc1 rc2 rc3 s2,
     run (soapysdr_input_thread (S fuel)) s =
       (Some NULL,
        t ++ Ev_load_do_exit v :: Debug_shutdown :: shutdown_sequence (self s) rc1 rc2 rc3,
        s2) ∧
     in_running (si_input (self s2)) = false) ∧
  (v = 0 →
   ∃ answer rest,
     (run (soapysdr_input_thread (S fuel)) s).1.1 = None ∧
     (run (soapysdr_input_thread (S fuel)) s).1.2 =
       t ++ Ev_load_do_exit 0
         :: Ev_readStream (sdr (self s)) (stream (self s)) (in_max_tu (si_input (self s)))
              SOAPYSDR_READSTREAM_TIMEOUT_US answer
         :: rest).
Proof.
  intros Hrun. cbv zeta. unfold run in *.
  pose proof (thread_run fuel s) as H1. pose proof (thread_run (S fuel) s) as H2.
  cbv zeta in H1, H2.
  destruct (api_activateStream (sdr (self s)) (stream (self s)) (env s)) as [rc x].
  rewrite H1 in Hrun. rewrite H2. clear H1 H2.
  case_bool_decide as Hrc.
  { pose proof (shutdown_run (with_env (store_do_exit 1 x) s)) as Hd. cbv zeta in Hd.
    destruct (api_deactivateStream _ _ _) as [rc1 x1].
    destruct (api_closeStream _ _ _) as [rc2 x2].
    destruct (api_unmake _ _) as [rc3 x3]. rewrite Hd in Hrun. discriminate Hrun. }
  match type of Hrun with context [capture_loop fuel ?i ?b ?s0] =>
    pose proof (capture_loop_runs (R:=option ptr) fuel i b s0) as Hloop;
    destruct (capture_loop fuel i b s0) as [[[[bufs|]|r] t0] s0'] eqn:Hcut end.
  - pose proof (shutdown_run s0') as Hd. cbv zeta in Hd.
    destruct (api_deactivateStream _ _ _) as [rc1 x1].
    destruct (api_closeStream _ _ _) as [rc2 x2].
    destruct (api_unmake _ _) as [rc3 x3]. rewrite Hd in Hrun. discriminate Hrun.
  - injection Hrun as <- <-. destruct Hloop as (_ & Hself & _). cbn in Hself.
    destruct (capture_loop_cut _ _ _ _ _ _ Hcut) as (inbuf' & outbuf' & Hmore).
    specialize (Hmore 1%nat). rewrite Nat.add_1_r in Hmore. rewrite Hmore. clear Hmore.
    split; [done|]. split.
    + intros Hv. rewrite capture_loop_left by done.
      pose proof (shutdown_run s0') as Hd. cbv zeta in Hd.
      destruct (api_deactivateStream _ _ _) as [rc1 x1].
      destruct (api_closeStream _ _ _) as [rc2 x2].
      destruct (api_unmake _ _) as [rc3 x3]. rewrite Hd.
      exists rc1, rc2, rc3. eexists.
      split; [rewrite Hself; cbn; by rewrite <- !app_assoc|reflexivity].
    + intros Hv.
      destruct (api_readStream (sdr (self s0')) (stream (self s0'))
                  (in_max_tu (si_input (self s0'))) SOAPYSDR_READSTREAM_TIMEOUT_US (env s0'))
        as [[n raw] x'] eqn:Hread.
      rewrite (capture_loop_turn _ _ _ _ n raw x') by done. cbv zeta.
      rewrite Hself. exists (n, raw).
      case_bool_decide; cbn; eexists; (split; reflexivity).
  - by destruct Hloop as (_ & _ & _ & []).
Qed.

(** C3.  The shutdown sequence runs once and whole on every exit path, in
    the order deactivate, close, unmake, shutdown of the connection,
    [running = false], free of both buffers.  First, whenever the worker
    has returned, the sequence is the last thing in its trace and no step
    of it occurs before; it has returned either after a failed activation,
    having stored 1 into [do_exit] just before the sequence, or after a
    test of [do_exit] that read a value other than 0; and as long as it has
    not returned, the activation has succeeded and no step of the sequence
    has run.  Second, the worker does return on both paths: a failed
    activation makes it return whatever the fuel, and a worker that is
    still in its loop after [fuel] tests of [do_exit] leaves the loop at
    the next test if that test reads a value other than 0, runs the sequence
    and returns [NULL]; if the test reads 0 it reads the stream and is
    still in the loop. *)
Theorem shutdown_once_in_order fuel (s : state X) :
  let o := self s in
  let input := si_input o in
  let begun rc := [Ev_XCALLOC Inbuf (in_max_tu input) (in_bytes_per_sample input);
                   Ev_XCALLOC Outbuf (in_max_tu input) 8;
                   Ev_activateStream (sdr o) (stream o) rc] in
  (let '(r, t, s') := run (soapysdr_input_thread fuel) s in
   match r with
   | None =>
       Forall (λ e, ¬ tears_down e) t ∧
       fst (api_activateStream (sdr o) (stream o) (env s)) = 0
   | Some p =>
       p = NULL ∧ in_running (si_input (self s')) = false ∧
       ∃ pre rc1 rc2 rc3,
         t = pre ++ Debug_shutdown :: shutdown_sequence o rc1 rc2 rc3 ∧
         Forall (λ e, ¬ tears_down e) pre ∧
         ((∃ rc m, rc ≠ 0 ∧ pre = begun rc ++ [Stderr m; Ev_store_do_exit 1]) ∨
          (∃ turns v, v ≠ 0 ∧
             pre = begun 0 ++ [Ev_usleep 100000] ++ turns ++ [Ev_load_do_exit v]))
   end) ∧
  (fst (api_activateStream (sdr o) (stream o) (env s)) ≠ 0 →
   ∃ p t s', run (soapysdr_input_thread fuel) s = (Some p, t, s')) ∧
  (∀ t s1,
     run (soapysdr_input_thread fuel) s = (None, t, s1) →
     let v := load_do_exit (env s1) in
     (v ≠ 0 →
      ∃ rc1 rc2 rc3 s2,
        run (soapysdr_input_thread (S fuel)) s =
          (Some NULL,
           t ++ Ev_load_do_exit v :: Debug_shutdown :: shutdown_sequence o rc1 rc2 rc3,
           s2) ∧
        in_running (si_input (self s2)) = false) ∧
     (v = 0 →
      ∃ answer rest,
        (run (soapysdr_input_thread (S fuel)) s).1.1 = None ∧
        (run (soapysdr_input_thread (S fuel)) s).1.2 =
          t ++ Ev_load_do_exit 0
            :: Ev_readStream (sdr o) (stream o) (in_max_tu input)
                 SOAPYSDR_READSTREAM_TIMEOUT_US answer
            :: rest)).
Proof.
  intros o input begun. split; [|split].
  - apply worker_returns_through_shutdown.
  - intros Hact.
    pose proof (worker_returns_through_shutdown fuel s) as H. cbv zeta in H.
    destruct (run (soapysdr_input_thread fuel) s) as [[[p|] t] s'].
    + by exists p, t, s'.
    + by destruct H as [_ H].
  - intros t s1 Hrun. by destruct (worker_next_test fuel s t s1 Hrun) as (_ & ? & ?).
Qed.

End Capture_facts.

(** ** Runs on the bench *)

Module Runs.
Import Bench.

Definition choose_on (r : rig) :=
  run (@soapysdr_choose_sample_format _ (soapy r) helpers (rig_handle r) "bench")
      (boot default_cfg []).

Definition init_on (r : rig) (c : input_cfg) :=
  run (@soapysdr_input_init _ (soapy r) helpers) (boot c []).

(** The worker, started on the state a successful initialization leaves,
    with the reads of [script] to come. *)
Definition worker_on (r : rig) (script : list (Z * list Byte.byte)) (fuel : nat) :=
  let s := (run (@soapysdr_input_init _ (soapy r) helpers) (boot default_cfg script)).2 in
  run (@soapysdr_input_thread _ (soapy r) helpers fuel) s.

Definition with_native (v : cstr * double) (r : rig) : rig :=
  {| rig_version := rig_version r; rig_handle := rig_handle r; rig_failing := rig_failing r;
     rig_has_dc_offset_mode := rig_has_dc_offset_mode r;
     rig_has_gain_mode := rig_has_gain_mode r; rig_native := v;
     rig_formats := rig_formats r; rig_format_size := rig_format_size r;
     rig_readback := rig_readback r; rig_stream := rig_stream r; rig_mtu := rig_mtu r;
     rig_activate := rig_activate r |}.
Definition with_formats (v : option (list string)) (size : cstr → Z) (r : rig) : rig :=
  {| rig_version := rig_version r; rig_handle := rig_handle r; rig_failing := rig_failing r;
     rig_has_dc_offset_mode := rig_has_dc_offset_mode r;
     rig_has_gain_mode := rig_has_gain_mode r; rig_native := rig_native r;
     rig_formats := v; rig_format_size := size;
     rig_readback := rig_readback r; rig_stream := rig_stream r; rig_mtu := rig_mtu r;
     rig_activate := rig_activate r |}.
Definition with_failing (v : list string) (r : rig) : rig :=
  {| rig_version := rig_version r; rig_handle := rig_handle r; rig_failing := v;
     rig_has_dc_offset_mode := rig_has_dc_offset_mode r;
     rig_has_gain_mode := rig_has_gain_mode r; rig_native := rig_native r;
     rig_formats := rig_formats r; rig_format_size := rig_format_size r;
     rig_readback := rig_readback r; rig_stream := rig_stream r; rig_mtu := rig_mtu r;
     rig_activate := rig_activate r |}.
Definition with_stream (v : ptr) (activate : Z) (r : rig) : rig :=
  {| rig_version := rig_version r; rig_handle := rig_handle r; rig_failing := rig_failing r;
     rig_has_dc_offset_mode := rig_has_dc_offset_mode r;
     rig_has_gain_mode := rig_has_gain_mode r; rig_native := rig_native r;
     rig_formats := rig_formats r; rig_format_size := rig_format_size r;
     rig_readback := rig_readback r; rig_stream := v; rig_mtu := rig_mtu r;
     rig_activate := activate |}.

Definition with_strings (gain_elements device_settings : cstr) (c : input_cfg) : input_cfg :=
  {| cfg_source := cfg_source c; cfg_gain_elements := gain_elements;
     cfg_antenna := cfg_antenna c; cfg_device_settings := device_settings;
     cfg_gain := cfg_gain c; cfg_correction := cfg_correction c;
     cfg_sample_rate := cfg_sample_rate c; cfg_centerfreq := cfg_centerfreq c;
     cfg_freq_offset := cfg_freq_offset c; cfg_sfmt := cfg_sfmt c |}.

(** 2^-200: a positive [double] below half the smallest positive [float]. *)
Definition tiny : double := binary_normalize 53 1024 1 (-200) false.

(** A device whose native format is CS16 with full scale [tiny]. *)
Definition tiny_scale_rig : rig := with_native (Some "CS16", tiny) default_rig.

(** A device with an unknown native format that lists CF32, CS16, CS8, on a
    library for which a CF32 sample has 4 bytes. *)
Definition odd_size (s : cstr) : Z :=
  if bool_decide (s = Some "CF32") then 4 else honest_size s.
Definition listing_rig : rig :=
  with_formats (Some ["CF32"; "CS16"; "CS8"]) odd_size
    (with_native (Some "CS8", double_of_int 128) default_rig).

(** The same library, and a list that ends with CF32. *)
Definition stale_rig : rig :=
  with_formats (Some ["CS8"; "CF32"]) odd_size
    (with_native (Some "CS8", double_of_int 128) default_rig).

End Runs.

Section Bench_facts.
Import Bench Runs.

Lemma length_groups n l : length (groups n l) = (length l / n)%nat.
Proof. unfold groups. by rewrite length_fmap, length_seq. Qed.

(** C1, as the claim has it, fails on [tiny_scale_rig]: CS16 names a sample
    kind, its size is the size of that kind and the full scale the device
    reports, 2^-200, is a positive [double]; stored in the [float] field it
    is 0, so the list of formats is asked for and the scale of the result is
    the constant of the kind. *)
Lemma tiny_full_scale_not_taken :
  usable (SoapySDR0:=soapy tiny_scale_rig) (Dumphfdl0:=helpers) (Some "CS16") ∧
  valid_binary 53 1024 tiny = true ∧
  gt_zero tiny = true ∧
  float_of_double tiny = S754_zero false ∧
  (choose_on tiny_scale_rig).1 =
    ({| sfmt := 2; soapy_sfmt := Some "CS16"; full_scale := float_of_int 32767;
        sample_size := 4 |},
     [Ev_getNativeStreamFormat 4096 (Some "CS16", tiny);
      Ev_getStreamFormats 4096 (Some ["CS8"; "CS16"; "CF32"]);
      Stderr (msg_using_non_native "bench" "CS16" (float_of_int 32767))]).
Proof.
  split; [split; [vm_compute; discriminate|reflexivity]|].
  repeat split; vm_compute; reflexivity.
Qed.

Lemma native_format_taken_witness :
  let s := boot default_cfg [] in
  let fullscale := double_of_int 32768 in
  api_getNativeStreamFormat (SoapySDR:=soapy default_rig) 4096 (env s)
    = ((Some "CS16", fullscale), env s) ∧
  native_accepted (SoapySDR0:=soapy default_rig) (Dumphfdl0:=helpers) (Some "CS16") fullscale ∧
  run (soapysdr_choose_sample_format (SoapySDR0:=soapy default_rig) (Dumphfdl0:=helpers)
         4096 "bench") s =
    ({| sfmt := 2; soapy_sfmt := Some "CS16"; full_scale := float_of_double fullscale;
        sample_size := 4 |},
     [Ev_getNativeStreamFormat 4096 (Some "CS16", fullscale);
      Stderr (msg_using_native "bench" (Some "CS16") (float_of_double fullscale))],
     {| env := env s; self := self s; cfg := cfg s |}).
Proof.
  intros s fullscale.
  assert (native_accepted (SoapySDR0:=soapy default_rig) (Dumphfdl0:=helpers)
            (Some "CS16") fullscale) as Hyes.
  { split; [split; [vm_compute; discriminate|reflexivity]|reflexivity]. }
  split; [reflexivity|]. split; [exact Hyes|].
  exact (proj1 (native_format_taken_iff_accepted (SoapySDR0:=soapy default_rig)
                  (Dumphfdl0:=helpers) 4096 "bench" s (Some "CS16") fullscale (env s)
                  eq_refl) Hyes).
Defined.

Lemma fallback_takes_first_usable_witness :
  let s := boot default_cfg [] in
  let native := (Some "CS8", double_of_int 128) in
  api_getNativeStreamFormat (SoapySDR:=soapy listing_rig) 4096 (env s) = (native, env s) ∧
  ¬ native_accepted (SoapySDR0:=soapy listing_rig) (Dumphfdl0:=helpers) native.1 native.2 ∧
  api_getStreamFormats (SoapySDR:=soapy listing_rig) 4096 (env s)
    = (Some ["CF32"; "CS16"; "CS8"], env s) ∧
  Forall (λ g, ¬ usable (SoapySDR0:=soapy listing_rig) (Dumphfdl0:=helpers) (Some g)) ["CF32"] ∧
  usable (SoapySDR0:=soapy listing_rig) (Dumphfdl0:=helpers) (Some "CS16") ∧
  run (soapysdr_choose_sample_format (SoapySDR0:=soapy listing_rig) (Dumphfdl0:=helpers)
         4096 "bench") s =
    ({| sfmt := 2; soapy_sfmt := Some "CS16"; full_scale := float_of_int 32767;
        sample_size := 4 |},
     [Ev_getNativeStreamFormat 4096 native;
      Ev_getStreamFormats 4096 (Some ["CF32"; "CS16"; "CS8"]);
      Stderr (msg_using_non_native "bench" "CS16" (float_of_int 32767))],
     {| env := env s; self := self s; cfg := cfg s |}).
Proof.
  intros s native.
  assert (¬ native_accepted (SoapySDR0:=soapy listing_rig) (Dumphfdl0:=helpers)
            native.1 native.2) as Hno.
  { intros [[Hk _] _]. by vm_compute in Hk. }
  assert (Forall (λ g, ¬ usable (SoapySDR0:=soapy listing_rig) (Dumphfdl0:=helpers) (Some g))
            ["CF32"]) as Hpre.
  { constructor; [|constructor]. intros [_ Hs]. by vm_compute in Hs. }
  assert (usable (SoapySDR0:=soapy listing_rig) (Dumphfdl0:=helpers) (Some "CS16")) as Hf.
  { split; [vm_compute; discriminate|reflexivity]. }
  split; [reflexivity|]. split; [exact Hno|]. split; [reflexivity|].
  split; [exact Hpre|]. split; [exact Hf|].
  exact (fallback_takes_first_usable (SoapySDR0:=soapy listing_rig) (Dumphfdl0:=helpers)
           4096 "bench" s native.1 native.2 (env s) ["CF32"; "CS16"; "CS8"] (env s)
           ["CF32"] "CS16" ["CS8"] eq_refl Hno eq_refl eq_refl Hpre Hf).
Defined.

(** C8: negotiation on [stale_rig].  The native format CS8 names no sample
    kind; of the formats listed, CS8 names none and CF32 names kind 3 at a
    size that is not the size of kind 3, so no entry is usable.  The result
    nevertheless carries kind 3, not [SFMT_UNDEF], with no format name, and
    [soapysdr_input_init] goes on to set up a stream for the format [NULL]
    and returns 0. *)
Theorem stale_kind_passes_for_a_format :
  ¬ native_accepted (SoapySDR0:=soapy stale_rig) (Dumphfdl0:=helpers)
      (Some "CS8") (double_of_int 128) ∧
  Forall (λ g, ¬ usable (SoapySDR0:=soapy stale_rig) (Dumphfdl0:=helpers) (Some g))
    ["CS8"; "CF32"] ∧
  (choose_on stale_rig).1 =
    ({| sfmt := 3; soapy_sfmt := None; full_scale := S754_zero false; sample_size := 4 |},
     [Ev_getNativeStreamFormat 4096 (Some "CS8", double_of_int 128);
      Ev_getStreamFormats 4096 (Some ["CS8"; "CF32"])]) ∧
  SFMT_UNDEF (Dumphfdl:=helpers) = 0 ∧
  let '(r, t, s') := init_on stale_rig default_cfg in
  r = 0 ∧ cfg_sfmt (cfg s') = 3 ∧
(Stderr (msg_no_suitable_format "driver=bench") ∉ t) ∧
  t !! 20%nat = Some (Ev_setupStream 4096 None 8192).
Proof.
  split; [intros [[Hk _] _]; by vm_compute in Hk|].
  split.
  { constructor; [intros [Hk _]; by vm_compute in Hk|].
    constructor; [intros [_ Hs]; by vm_compute in Hs|constructor]. }
  split; [vm_compute; reflexivity|]. split; [reflexivity|].
  vm_compute. split; [reflexivity|]. split; [reflexivity|]. split; [|reflexivity].
  intros Hin. repeat (apply elem_of_cons in Hin as [Hin|Hin]; [discriminate Hin|]).
  by apply elem_of_nil in Hin.
Qed.

(** C5, as the claim has it, fails on a device whose setGainElement and
    writeSetting answer -1: both statuses are in the trace and
    [soapysdr_input_init] returns 0. *)
Lemma gain_element_and_setting_failures_pass :
  let '(r, t, _) := init_on (with_failing ["setGainElement"; "writeSetting"] default_rig)
                      (with_strings (Some "LNA=20,VGA=10") (Some "biastee=true") default_cfg) in
  r = 0 ∧
  t !! 12%nat = Some (Ev_setGainElement 4096 "LNA" (double_of_int 20) (-1)) ∧
  t !! 15%nat = Some (Ev_setGainElement 4096 "VGA" (double_of_int 10) (-1)) ∧
  t !! 21%nat = Some (Ev_writeSetting 4096 "biastee" "true" (-1)).
Proof. vm_compute. repeat split; reflexivity. Qed.

Lemma tested_setter_failure_witness :
  let s := boot (set_cfg_gain (float_of_int 30) default_cfg) [] in
  let API := soapy (with_failing ["setGain"] default_rig) in
  let e := Ev_setGain 4096 (double_of_float (float_of_int 30)) (-1) in
  let t := (run (soapysdr_input_init (SoapySDR0:=API) (Dumphfdl0:=helpers)) s).1.2 in
  t = take 12 t ++ e :: drop 13 t ∧
  failed e ∧
  (run (soapysdr_input_init (SoapySDR0:=API) (Dumphfdl0:=helpers)) s).1.1 = -1 ∧
  drop 13 t = [Stderr (msg_could_not_set_gain "driver=bench" "bench error")].
Proof.
  intros s API e t.
  assert (t = take 12 t ++ e :: drop 13 t) as Hsplit by (vm_compute; reflexivity).
  assert (failed e) as He by (vm_compute; discriminate).
  pose proof (proj1 (tested_setter_failure_is_fatal (SoapySDR0:=API) (Dumphfdl0:=helpers) s)
                (take 12 t) e (drop 13 t)) as H.
  fold t in Hsplit. unfold t in *. clear t.
  destruct (run soapysdr_input_init s) as [[r t] s'] eqn:E. cbn [fst snd] in *.
  destruct (H Hsplit He) as [Hr (m & Hm & Hpost)].
  split; [exact Hsplit|]. split; [exact He|]. split; [exact Hr|].
  rewrite Hpost. f_equal. f_equal.
  assert (api_lastError (SoapySDR:=API) (env s') = "bench error") as Herr by reflexivity.
  rewrite Herr in Hm. cbn in Hm. by injection Hm as <-.
Defined.

End Bench_facts.

Section Bench_worker.
Import Bench Runs.

(** The state a successful initialization on [default_rig] leaves, with the
    reads of [script] to come: [max_tu] is 4, a sample has 4 bytes. *)
Definition ready (script : list (Z * list Byte.byte)) : state world :=
  (run (soapysdr_input_init (SoapySDR0:=soapy default_rig) (Dumphfdl0:=helpers))
       (boot default_cfg script)).2.

Definition two_samples : list Byte.byte :=
  [Byte.x01; Byte.x02; Byte.x03; Byte.x04; Byte.x05; Byte.x06; Byte.x07; Byte.x08].

Lemma negative_read_witness :
  let s := ready [(-3, [])] in
  let x := {| reads := []; flag := 0 |} in
  load_do_exit (Dumphfdl:=helpers) (env s) = 0 ∧
  api_readStream (SoapySDR:=soapy default_rig) (sdr (self s)) (stream (self s))
    (in_max_tu (si_input (self s))) SOAPYSDR_READSTREAM_TIMEOUT_US (env s) = ((-3, []), x) ∧
  -3 < 0 ∧
  capture_loop (SoapySDR0:=soapy default_rig) (Dumphfdl0:=helpers) (R:=option ptr)
    1 [] [] s =
    (Next None,
     [Ev_load_do_exit 0; Ev_readStream 4096 8192 4 1000000 (-3, []);
      Stderr (msg_readStream_failed "driver=bench" "TIMEOUT")],
     with_env x s).
Proof.
  intros s x.
  split; [reflexivity|]. split; [reflexivity|]. split; [lia|].
  exact (proj1 (negative_read_continues (SoapySDR0:=soapy default_rig) (Dumphfdl0:=helpers)
                  (R:=option ptr) 0 [] [] s (-3) [] x eq_refl eq_refl eq_refl)).
Defined.

Lemma read_samples_witness :
  let s := ready [(2, two_samples)] in
  let x := {| reads := []; flag := 0 |} in
  let inbuf := replicate 16 Byte.x00 in
  let outbuf := replicate 4 czero in
  let samples := [(float_of_int 1, S754_zero false); (float_of_int 5, S754_zero false)] in
  (load_do_exit (Dumphfdl:=helpers) (env s) = 0 ∧
   api_readStream (SoapySDR:=soapy default_rig) (sdr (self s)) (stream (self s))
     (in_max_tu (si_input (self s))) SOAPYSDR_READSTREAM_TIMEOUT_US (env s)
     = ((2, two_samples), x) ∧
   0 ≤ 2 ≤ in_max_tu (si_input (self s)) ∧
   0 < in_bytes_per_sample (si_input (self s)) ∧
   in_max_tu (si_input (self s)) * in_bytes_per_sample (si_input (self s)) < 2 ^ 31 ∧
   length inbuf
     = Z.to_nat (in_max_tu (si_input (self s)) * in_bytes_per_sample (si_input (self s))) ∧
   length outbuf = Z.to_nat (in_max_tu (si_input (self s))) ∧
   (∀ bytes, length (convert_sample_buffer (Dumphfdl:=helpers) (cfg s) (si_input (self s)) bytes)
             = (length bytes / Z.to_nat (in_bytes_per_sample (si_input (self s))))%nat)) ∧
  convert_sample_buffer (Dumphfdl:=helpers) (cfg s) (si_input (self s))
    (take 8 (stored two_samples inbuf)) = samples ∧
  capture_loop (SoapySDR0:=soapy default_rig) (Dumphfdl0:=helpers) (R:=option ptr)
    1 inbuf outbuf s =
    (Next None,
     [Ev_load_do_exit 0; Ev_readStream 4096 8192 4 1000000 (2, two_samples);
      Ev_convert_sample_buffer 8; Ev_complex_samples_produce samples],
     with_env x s).
Proof.
  intros s x inbuf outbuf samples.
  assert (∀ bytes, length (convert_sample_buffer (Dumphfdl:=helpers) (cfg s)
                             (si_input (self s)) bytes)
                   = (length bytes / Z.to_nat (in_bytes_per_sample (si_input (self s))))%nat)
    as Hconv by (intros bytes; apply length_groups).
  assert (0 ≤ 2 ≤ in_max_tu (si_input (self s))) as Hn by (vm_compute; split; discriminate).
  assert (0 < in_bytes_per_sample (si_input (self s))) as Hbps by reflexivity.
  assert (in_max_tu (si_input (self s)) * in_bytes_per_sample (si_input (self s)) < 2 ^ 31)
    as Hfit by reflexivity.
  split; [repeat split; try reflexivity; try apply Hn; done|].
  split; [reflexivity|].
  destruct (read_samples_are_pushed (SoapySDR0:=soapy default_rig) (Dumphfdl0:=helpers)
              (R:=option ptr) 0 inbuf outbuf s 2 two_samples x
              eq_refl eq_refl Hn Hbps Hfit eq_refl eq_refl Hconv) as (_ & _ & Hloop).
  exact Hloop.
Defined.

(** The worker on the bench: two reads, then the controller sets [do_exit]
    during the third. *)
Example worker_cancelled :
  (worker_on default_rig [(2, two_samples); (-3, [])] 5).1 =
    (Some NULL,
     [Ev_XCALLOC Inbuf 4 4; Ev_XCALLOC Outbuf 4 8; Ev_activateStream 4096 8192 0;
      Ev_usleep 100000;
      Ev_load_do_exit 0; Ev_readStream 4096 8192 4 1000000 (2, two_samples);
      Ev_convert_sample_buffer 8;
      Ev_complex_samples_produce
        [(float_of_int 1, S754_zero false); (float_of_int 5, S754_zero false)];
      Ev_load_do_exit 0; Ev_readStream 4096 8192 4 1000000 (-3, []);
      Stderr (msg_readStream_failed "driver=bench" "TIMEOUT");
      Ev_load_do_exit 0; Ev_readStream 4096 8192 4 1000000 (-1, []);
      Stderr (msg_readStream_failed "driver=bench" "TIMEOUT");
      Ev_load_do_exit 1;
      Debug_shutdown; Ev_deactivateStream 4096 8192 0; Ev_closeStream 4096 8192 0;
      Ev_unmake 4096 0; Ev_connection_shutdown; Ev_store_running false;
      Ev_XFREE Inbuf; Ev_XFREE Outbuf]).
Proof. vm_compute. reflexivity. Qed.

(** The same with two turns of fuel: the worker is still in its loop. *)
Example worker_still_running :
  (worker_on default_rig [(2, two_samples); (-3, [])] 2).1.1 = None.
Proof. vm_compute. reflexivity. Qed.

(** A device whose stream cannot be activated. *)
Example worker_activation_failed :
  (worker_on (with_stream 8192 (-5) default_rig) [] 0).1 =
    (Some NULL,
     [Ev_XCALLOC Inbuf 4 4; Ev_XCALLOC Outbuf 4 8; Ev_activateStream 4096 8192 (-5);
      Stderr (msg_activate_failed "driver=bench" "TIMEOUT"); Ev_store_do_exit 1;
      Debug_shutdown; Ev_deactivateStream 4096 8192 0; Ev_closeStream 4096 8192 0;
      Ev_unmake 4096 0; Ev_connection_shutdown; Ev_store_running false;
      Ev_XFREE Inbuf; Ev_XFREE Outbuf]).
Proof. vm_compute. reflexivity. Qed.

End Bench_worker.

(** C10.  A run of [soapysdr_input_init] that returns anything but 0 leaves
    the fields [sdr] and [stream] of the object as they were, [NULL] for an
    object fresh from [soapysdr_input_create]; the sample format, the full
    scale and the bytes per sample can be written by then, as they are when
    the stream cannot be set up on the bench. *)
Theorem failed_init_leaves_handles :
  (∀ X (API : SoapySDR X) (H : Dumphfdl X) (s : state X),
     let '(r, _, s') := run soapysdr_input_init s in
     r ≠ 0 →
     sdr (self s') = sdr (self s) ∧ stream (self s') = stream (self s) ∧
     (∀ c, self s = soapysdr_input_create c →
           sdr (self s') = NULL ∧ stream (self s') = NULL)) ∧
  (let s := Bench.boot Bench.default_cfg [] in
   let '(r, t, s') := Runs.init_on (Runs.with_stream NULL 0 Bench.default_rig)
                        Bench.default_cfg in
   r = -1 ∧
   last t = Some (Stderr (msg_could_not_set_up_stream "driver=bench" "bench error")) ∧
   sdr (self s') = NULL ∧ stream (self s') = NULL ∧
   (cfg_sfmt (cfg s), cfg_sfmt (cfg s')) = (0, 2) ∧
   (in_full_scale (si_input (self s)), in_full_scale (si_input (self s')))
     = (S754_zero false, float_of_int 32768) ∧
   (in_bytes_per_sample (si_input (self s)), in_bytes_per_sample (si_input (self s')))
     = (0, 4)).
Proof.
  split.
  - intros X API H s. pose proof (init_failure_keeps_handles s) as Hkeep.
    destruct (run soapysdr_input_init s) as [[r t] s']. intros Hr.
    destruct (Hkeep Hr) as [Hsdr Hstream]. split; [done|]. split; [done|].
    intros c Hc. rewrite Hsdr, Hstream, Hc. done.
  - vm_compute. repeat split; reflexivity.
Qed.

Lemma failed_init_witness :
  let s := Bench.boot Bench.default_cfg [] in
  let API := Bench.soapy (Runs.with_stream NULL 0 Bench.default_rig) in
  let result := run (soapysdr_input_init (SoapySDR0:=API) (Dumphfdl0:=Bench.helpers)) s in
  result.1.1 ≠ 0 ∧ sdr (self result.2) = NULL ∧ stream (self result.2) = NULL.
Proof.
  intros s API result.
  assert (result.1.1 ≠ 0) as Hr by (vm_compute; discriminate).
  pose proof (proj1 failed_init_leaves_handles _ API Bench.helpers s) as H.
  fold result in H. destruct result as [[r t] s']. cbn [fst snd] in *.
  destruct (H Hr) as (_ & _ & Hnull).
  split; [exact Hr|]. exact (Hnull Bench.default_cfg eq_refl).
Defined.

(** * Further properties *)

(** ** Negotiation *)

Section Negotiation_more.
Context {X : Type} `{!SoapySDR X, !Dumphfdl X}.

Lemma choose_native sdr source (s : state X) fmt fullscale x :
  api_getNativeStreamFormat sdr (env s) = ((fmt, fullscale), x) →
  native_accepted fmt fullscale →
  run (soapysdr_choose_sample_format sdr source) s =
    ({| sfmt := sample_format_from_string fmt; soapy_sfmt := fmt;
        full_scale := float_of_double fullscale;
        sample_size := SoapySDR_formatToSize fmt |},
     [Ev_getNativeStreamFormat sdr (fmt, fullscale);
      Stderr (msg_using_native source fmt (float_of_double fullscale))],
     with_env x s).
Proof.
  intros Hnat Hyes.
  unfold run, soapysdr_choose_sample_format, bind, SoapySDRDevice_getNativeStreamFormat, call.
  rewrite Hnat. cbn.
  by rewrite (native_condition_true _ _ _ Hyes).
Qed.

(** The four ways a negotiation can go. *)
Inductive negotiated (sdr : ptr) (source : string) (s : state X) :
    sample_format_search_result → list event → state X → Prop :=
  | negotiated_native fmt fullscale x :
      api_getNativeStreamFormat sdr (env s) = ((fmt, fullscale), x) →
      native_accepted fmt fullscale →
      negotiated sdr source s
        {| sfmt := sample_format_from_string fmt; soapy_sfmt := fmt;
           full_scale := float_of_double fullscale;
           sample_size := SoapySDR_formatToSize fmt |}
        [Ev_getNativeStreamFormat sdr (fmt, fullscale);
         Stderr (msg_using_native source fmt (float_of_double fullscale))]
        (with_env x s)
  | negotiated_unreadable fmt fullscale x formats x' :
      api_getNativeStreamFormat sdr (env s) = ((fmt, fullscale), x) →
      ¬ native_accepted fmt fullscale →
      api_getStreamFormats sdr x = (formats, x') →
      formats = None ∨ formats = Some [] →
      negotiated sdr source s
        (with_sfmt SFMT_UNDEF (after_native fmt fullscale))
        [Ev_getNativeStreamFormat sdr (fmt, fullscale); Ev_getStreamFormats sdr formats;
         Stderr (msg_failed_read_formats source)]
        (with_env x' s)
  | negotiated_listed fmt fullscale x pre f post x' :
      api_getNativeStreamFormat sdr (env s) = ((fmt, fullscale), x) →
      ¬ native_accepted fmt fullscale →
      api_getStreamFormats sdr x = (Some (pre ++ f :: post), x') →
      Forall (λ g, ¬ usable (Some g)) pre →
      usable (Some f) →
      negotiated sdr source s
        {| sfmt := sample_format_from_string (Some f); soapy_sfmt := Some f;
           full_scale := get_sample_full_scale_value (sample_format_from_string (Some f));
           sample_size := SoapySDR_formatToSize (Some f) |}
        [Ev_getNativeStreamFormat sdr (fmt, fullscale);
         Ev_getStreamFormats sdr (Some (pre ++ f :: post));
         Stderr (msg_using_non_native source f
                   (get_sample_full_scale_value (sample_format_from_string (Some f))))]
        (with_env x' s)
  | negotiated_nothing fmt fullscale x l x' :
      api_getNativeStreamFormat sdr (env s) = ((fmt, fullscale), x) →
      ¬ native_accepted fmt fullscale →
      api_getStreamFormats sdr x = (Some l, x') →
      l ≠ [] →
      Forall (λ g, ¬ usable (Some g)) l →
      negotiated sdr source s
        (rejected l (after_native fmt fullscale))
        [Ev_getNativeStreamFormat sdr (fmt, fullscale); Ev_getStreamFormats sdr (Some l)]
        (with_env x' s).

Lemma native_accepted_dec fmt fullscale :
  native_accepted fmt fullscale ∨ ¬ native_accepted fmt fullscale.
Proof.
  unfold native_accepted.
  destruct (decide (usable fmt)) as [Hu|Hu];
    destruct (gt_zero (float_of_double fullscale)); intuition congruence.
Qed.

Lemma choose_negotiated sdr source (s : state X) :
  let '(r, t, s') := run (soapysdr_choose_sample_format sdr source) s in
  negotiated sdr source s r t s'.
Proof.
  destruct (api_getNativeStreamFormat sdr (env s)) as [[fmt fullscale] x] eqn:Hnat.
  destruct (native_accepted_dec fmt fullscale) as [Hyes|Hno].
  - rewrite (choose_native sdr source s fmt fullscale x) by done. by econstructor.
  - destruct (api_getStreamFormats sdr x) as [formats x'] eqn:Hfmts.
    destruct formats as [l|]; [destruct (decide (l = [])) as [->|Hne]|].
    + erewrite choose_unreadable by eauto. eapply negotiated_unreadable; eauto.
    + destruct (first_usable_or_none l) as [Hall|(pre & g & post & -> & Hpre & Hg)].
      * erewrite choose_listed by (try apply choose_loop_none; done).
        by eapply negotiated_nothing.
      * erewrite choose_listed by (try apply (choose_loop_first source pre g post); done).
        by eapply negotiated_listed.
    + erewrite choose_unreadable by eauto. eapply negotiated_unreadable; eauto.
Qed.

(** X1.  Whatever the device answers, a result of the negotiation that
    carries a format name is consistent: the name maps to the kind of the
    result, the byte size of the result is both the size the library gives
    the name and the size of the kind, and the full scale is either positive
    (the native format) or the constant of the kind (a listed format). *)
Theorem named_result_is_consistent sdr source (s : state X) :
  let '(r, _, _) := run (soapysdr_choose_sample_format sdr source) s in
  soapy_sfmt r ≠ None →
  sfmt r = sample_format_from_string (soapy_sfmt r) ∧
  sfmt r ≠ SFMT_UNDEF ∧
  sample_size r = SoapySDR_formatToSize (soapy_sfmt r) ∧
  sample_size r = get_sample_size (sfmt r) ∧
  (gt_zero (full_scale r) = true ∨ full_scale r = get_sample_full_scale_value (sfmt r)).
Proof.
  pose proof (choose_negotiated sdr source s) as H.
  destruct (run (soapysdr_choose_sample_format sdr source) s) as [[r t] s'].
  destruct H as [fmt fullscale x _ [[Hk Hs] Hp]
                |fmt fullscale x formats x' _ _ _ _
                |fmt fullscale x pre f post x' _ _ _ _ [Hk Hs]
                |fmt fullscale x l x' _ _ _ _ _]; cbn.
  - intros _. repeat split; try done. by left.
  - intros Hname. destruct Hname. unfold after_native. apply native_condition_soapy_sfmt.
  - intros _. repeat split; try done. by right.
  - intros Hname. destruct Hname. rewrite rejected_soapy_sfmt. unfold after_native.
    apply native_condition_soapy_sfmt.
Qed.

Definition is_query (sdr : ptr) (e : event) : Prop :=
  match e with
  | Ev_getNativeStreamFormat sdr' _ | Ev_getStreamFormats sdr' _ => sdr' = sdr
  | Stderr _ => True
  | _ => False
  end.

(** X2.  The negotiation only asks: it leaves the object and the
    configuration as they are, and its trace is one of these.  Either the
    query for the native format and the line "using native sample format",
    and nothing else.  Or the query for the native format, the query for
    the list of formats, and then at most one line, which is "failed to
    read supported sample formats" or "using non-native sample format".
    Both queries are on the device given. *)
Theorem negotiation_only_asks sdr source (s : state X) :
  let '(_, t, s') := run (soapysdr_choose_sample_format sdr source) s in
  self s' = self s ∧ cfg s' = cfg s ∧
  ∃ answer,
    (∃ fmt fs,
       t = [Ev_getNativeStreamFormat sdr answer; Stderr (msg_using_native source fmt fs)]) ∨
    (∃ formats line,
       t = Ev_getNativeStreamFormat sdr answer :: Ev_getStreamFormats sdr formats :: line ∧
       (line = [] ∨
        line = [Stderr (msg_failed_read_formats source)] ∨
        ∃ f fs, line = [Stderr (msg_using_non_native source f fs)])).
Proof.
  pose proof (choose_negotiated sdr source s) as H.
  destruct (run (soapysdr_choose_sample_format sdr source) s) as [[r t] s'].
  destruct H as [fmt fullscale x _ _
                |fmt fullscale x formats x' _ _ _ _
                |fmt fullscale x pre f post x' _ _ _ _ _
                |fmt fullscale x l x' _ _ _ _ _];
    (split; [done|]); (split; [done|]); exists (fmt, fullscale).
  - left. by eexists _, _.
  - right. eexists _, _. split; [reflexivity|]. right. by left.
  - right. eexists _, _. split; [reflexivity|]. right. right. by eexists _, _.
  - right. eexists _, _. split; [reflexivity|]. by left.
Qed.

(** X3.  When the native format is turned down, the negotiation returns
    [SFMT_UNDEF] in each of these cases: the list of formats is [NULL], it
    is empty, or none of its entries maps to a sample kind.  In the first
    two the line "failed to read supported sample formats" is printed. *)
Theorem negotiation_fails_without_known_format sdr source (s : state X)
    fmt fullscale x formats x' :
  api_getNativeStreamFormat sdr (env s) = ((fmt, fullscale), x) →
  ¬ native_accepted fmt fullscale →
  api_getStreamFormats sdr x = (formats, x') →
  Forall (λ g, sample_format_from_string (Some g) = SFMT_UNDEF) (default [] formats) →
  let '(r, t, s') := run (soapysdr_choose_sample_format sdr source) s in
  sfmt r = SFMT_UNDEF ∧ soapy_sfmt r = None ∧ s' = with_env x' s ∧
  t = [Ev_getNativeStreamFormat sdr (fmt, fullscale); Ev_getStreamFormats sdr formats]
      ++ (if bool_decide (default [] formats = [])
          then [Stderr (msg_failed_read_formats source)] else []).
Proof.
  intros Hnat Hno Hfmts Hall.
  assert (soapy_sfmt (after_native fmt fullscale) = None) as Hname
    by (unfold after_native; apply native_condition_soapy_sfmt).
  destruct formats as [l|]; [destruct (decide (l = [])) as [->|Hne]|].
  - erewrite choose_unreadable by eauto. done.
  - assert (Forall (λ g, ¬ usable (Some g)) l) as Hun.
    { eapply Forall_impl; [exact Hall|]. intros g Hg [Hk _]. done. }
    erewrite choose_listed by (try apply choose_loop_none; done).
    cbn [default] in *. rewrite bool_decide_eq_false_2 by done.
    split; [|by rewrite rejected_soapy_sfmt].
    destruct (exists_last Hne) as (pre & g & ->).
    rewrite rejected_snoc. apply Forall_app in Hall as [_ Hg].
    by apply Forall_cons in Hg as [Hg _].
  - erewrite choose_unreadable by eauto. done.
Qed.

End Negotiation_more.

(** ** Initialization *)

Section Init_more.
Context {X : Type} `{!SoapySDR X, !Dumphfdl X}.

Ltac obey_tested ::= fail.

(** What belongs to the worker: the stream in use and its release, the
    buffers, the flags. *)
Definition of_worker (e : event) : Prop :=
  match e with
  | Ev_activateStream _ _ _ | Ev_readStream _ _ _ _ _ | Ev_deactivateStream _ _ _
  | Ev_closeStream _ _ _ | Ev_unmake _ _ | Ev_usleep _ | Ev_convert_sample_buffer _
  | Ev_complex_samples_produce _ | Ev_connection_shutdown | Ev_XCALLOC _ _ _ | Ev_XFREE _
  | Ev_load_do_exit _ | Ev_store_do_exit _ | Ev_store_running _ | Debug_shutdown => True
  | _ => False
  end.

Definition setting_up : discipline X Z.
Proof.
  refine {| quiet := λ e, ¬ of_worker e;
            frame := λ s s', in_running (si_input (self s')) = in_running (si_input (self s));
            known := λ _, True;
            final := λ s _ t s', Forall (λ e, ¬ of_worker e) t ∧
              in_running (si_input (self s')) = in_running (si_input (self s)) |}.
  - done.
  - intros s1 s2 s3 H1 H2. congruence.
  - done.
  - done.
  - intros s s1 s' r t1 t2 H1 Hf [H2 Hr]. split; [by apply Forall_app|congruence].
Defined.

Lemma init_setting_up : obeys setting_up soapysdr_input_init.
Proof. unfold soapysdr_input_init. obey. Qed.

(** X4.  Initialization stays within setting up: in no run, failed or not,
    does it release the device it has opened ([unmake]), close, activate,
    deactivate or read a stream, allocate or free a buffer, read or write
    [do_exit], or write [running]. *)
Theorem init_never_releases (s : state X) :
  let '(_, t, s') := run soapysdr_input_init s in
  Forall (λ e, ¬ of_worker e) t ∧
  in_running (si_input (self s')) = in_running (si_input (self s)).
Proof.
  pose proof (init_setting_up s I) as H. unfold run.
  destruct (soapysdr_input_init s) as [[[r|r] t] s']; cbn in H; [|done].
  by destruct H as (H1 & H2 & _).
Qed.

(** While [P] holds of the configuration, no event of [q] occurs. *)
Definition skipping (P : input_cfg → Prop) (q : event → Prop)
    (HP : ∀ c v, P c → P (set_cfg_sfmt v c)) : discipline X Z.
Proof.
  refine {| quiet := λ e, ¬ q e;
            frame := λ _ _, True;
            known := λ s, P (cfg s);
            final := λ _ _ t _, Forall (λ e, ¬ q e) t |}.
  - done.
  - done.
  - done.
  - done.
  - intros s s1 s' r t1 t2 H1 _ H2. by apply Forall_app.
Defined.

Definition is_setAntenna (e : event) : Prop :=
  match e with Ev_setAntenna _ _ _ => True | _ => False end.
Definition is_setting (e : event) : Prop :=
  match e with Ev_writeSetting _ _ _ _ | Ev_readSetting _ _ _ => True | _ => False end.
Definition is_gain_element (e : event) : Prop :=
  match e with Ev_setGainElement _ _ _ _ | Ev_getGainElement _ _ _ => True | _ => False end.
Definition is_overall_gain (e : event) : Prop :=
  match e with
  | Ev_setGain _ _ _ | Ev_hasGainMode _ _ | Ev_setGainMode _ _ _ => True
  | _ => False
  end.

Ltac skip_by field :=
  unfold soapysdr_input_init;
  apply obeys_bind; [obey|intros _];
  apply obeys_bind_get_cfg; intros s0 Hk; cbn in Hk;
  unfold init_gain, init_settings;
  destruct (field (cfg s0)) eqn:Hfield; try done;
  obey;
  try (apply obeys_bind;
         [apply obeys_put_cfg; cbn; intros; split; [done|congruence] | intros ?; obey]).

Lemma init_skips_antenna H :
  obeys (skipping (λ c, cfg_antenna c = None) is_setAntenna H) soapysdr_input_init.
Proof. skip_by cfg_antenna. Qed.

Lemma init_skips_settings H :
  obeys (skipping (λ c, cfg_device_settings c = None) is_setting H) soapysdr_input_init.
Proof. skip_by cfg_device_settings. Qed.

Lemma init_skips_gain_elements H :
  obeys (skipping (λ c, cfg_gain_elements c = None) is_gain_element H) soapysdr_input_init.
Proof. skip_by cfg_gain_elements. Qed.

Lemma init_skips_overall_gain H :
  obeys (skipping (λ c, cfg_gain_elements c ≠ None) is_overall_gain H) soapysdr_input_init.
Proof. skip_by cfg_gain_elements. Qed.

Lemma obeys_run {R} (D : discipline X R) (body : M X R R) (s : state X) :
  obeys D body → known D s →
  (∀ r t s', Forall (quiet D) t → final D s r t s') →
  let '(r, t, s') := run body s in final D s r t s'.
Proof.
  intros H Hs Hnext. specialize (H s Hs). unfold run.
  destruct (body s) as [[[a|r] t] s1]; [|done].
  apply Hnext. by destruct H.
Qed.

(** X5.  What the configuration does not ask for is not done: without an
    antenna name no antenna is selected, without a settings string no
    setting is written or read, without a gain string no gain element is
    set or read, and with a gain string neither the overall gain nor the
    automatic gain mode is touched, in any run of the initialization. *)
Theorem unconfigured_steps_are_skipped (s : state X) :
  let t := (run soapysdr_input_init s).1.2 in
  (cfg_antenna (cfg s) = None → Forall (λ e, ¬ is_setAntenna e) t) ∧
  (cfg_device_settings (cfg s) = None → Forall (λ e, ¬ is_setting e) t) ∧
  (cfg_gain_elements (cfg s) = None → Forall (λ e, ¬ is_gain_element e) t) ∧
  (cfg_gain_elements (cfg s) ≠ None → Forall (λ e, ¬ is_overall_gain e) t).
Proof.
  cbv zeta. repeat split; intros Hc.
  - pose proof (obeys_run (skipping (λ c, cfg_antenna c = None) is_setAntenna (λ c v H, H)) _ s
                  (init_skips_antenna _) Hc) as H.
    destruct (run soapysdr_input_init s) as [[r t] s']. by apply H.
  - pose proof (obeys_run (skipping (λ c, cfg_device_settings c = None) is_setting (λ c v H, H)) _ s
                  (init_skips_settings _) Hc) as H.
    destruct (run soapysdr_input_init s) as [[r t] s']. by apply H.
  - pose proof (obeys_run (skipping (λ c, cfg_gain_elements c = None) is_gain_element (λ c v H, H)) _ s
                  (init_skips_gain_elements _) Hc) as H.
    destruct (run soapysdr_input_init s) as [[r t] s']. by apply H.
  - pose proof (obeys_run (skipping (λ c, cfg_gain_elements c ≠ None) is_overall_gain (λ c v H, H)) _ s
                  (init_skips_overall_gain _) Hc) as H.
    destruct (run soapysdr_input_init s) as [[r t] s']. by apply H.
Qed.

(** The body of [soapysdr_input_init] never runs off its end: every path
    executes a [return]. *)
Definition anything : discipline X Z.
Proof.
  refine {| quiet := λ _, True; frame := λ _ _, True; known := λ _, True;
            final := λ _ _ _ _, True |}; done.
Defined.

Lemma init_returns (s : state X) :
  ∃ r t s', soapysdr_input_init s = (Returned r, t, s').
Proof.
  assert (halts anything soapysdr_input_init) as H.
  { unfold soapysdr_input_init.
    repeat lazymatch goal with
    | |- halts _ (bind get_cfg _) => apply halts_bind_get_cfg; intros ? ?
    | |- halts _ (bind _ _) => apply halts_bind_r; [solve [obey] | intros ?]
    end.
    by intros s1 _. }
  specialize (H s I). destruct (soapysdr_input_init s) as [[[r|r] t] s']; [done|eauto].
Qed.

(** *** Failing before the stream *)

Definition is_no_suitable (e : event) : Prop :=
  match e with Stderr (msg_no_suitable_format _) => True | _ => False end.

Definition before_stream (e : event) : Prop := ¬ sets_up_stream e ∧ ¬ is_no_suitable e.

(** A run that returns either has come to setting up the stream, or has
    returned -1 with the object and the configuration as they were, after
    printing the "no suitable sample format" line last or not at all. *)
Definition stream_or_nothing : discipline X Z.
Proof.
  refine {| quiet := before_stream;
            frame := λ s s', self s' = self s ∧ cfg s' = cfg s;
            known := λ _, True;
            final := λ s r t s',
              ((∃ e, e ∈ t ∧ sets_up_stream e) ∧ Forall (λ e, ¬ is_no_suitable e) t) ∨
              (r = -1 ∧ self s' = self s ∧ cfg s' = cfg s ∧
               ∃ pre, Forall before_stream pre ∧
                      (t = pre ∨ ∃ e, is_no_suitable e ∧ t = pre ++ [e])) |}.
  - done.
  - intros s1 s2 s3 [-> ->] [-> ->]. done.
  - done.
  - done.
  - intros s s1 s' r t1 t2 H1 [Hs Hc]
      [[(e & He & Hsetup) Hno]|(-> & Hs' & Hc' & pre & Hpre & Ht)].
    + left. split.
      * exists e. split; [|done]. apply elem_of_app. by right.
      * apply Forall_app. split; [|done]. eapply Forall_impl; [exact H1|]. by intros ? [_ ?].
    + right. split; [done|]. split; [congruence|]. split; [congruence|].
      exists (t1 ++ pre). split; [by apply Forall_app|].
      destruct Ht as [->|(e & He & ->)]; [by left|].
      right. exists e. by rewrite app_assoc.
Defined.

Lemma obeys_choose_loop_line {R} (D : discipline X R) source formats result :
  (∀ f fs, quiet D (Stderr (msg_using_non_native source f fs))) →
  obeys D (choose_loop source formats result).
Proof.
  intros H1. revert result. induction formats as [|f formats IH]; intros result; cbn.
  - obey.
  - destruct (fallback_condition f result) as [[] result']; [obey|apply IH].
Qed.

Ltac obey_loop ::= apply obeys_choose_loop_line; side.

Lemma stream_or_nothing_Return (s : state X) : final stream_or_nothing s (-1) [] s.
Proof. right. split; [done|]. split; [done|]. split; [done|]. exists []. split; [constructor|by left]. Qed.

Ltac side ::=
  try (intros; apply stream_or_nothing_Return);
  cbn; unfold before_stream; cbn; intros; try done; try (intuition (try done; try lia)).

Ltac pick_setup :=
  match goal with
  | |- context [Ev_setupStream_legacy ?a ?b ?c] => exists (Ev_setupStream_legacy a b c)
  | |- context [Ev_setupStream ?a ?b ?c] => exists (Ev_setupStream a b c)
  end; split; [repeat first [apply list_elem_of_here | apply list_elem_of_further]|exact I].

Lemma init_stream_or_nothing : obeys stream_or_nothing soapysdr_input_init.
Proof.
  unfold soapysdr_input_init. obey.
  intros s _. unfold bind at 1.
  case_bool_decide as Hundef.
  - cbn. right. split; [done|]. split; [done|]. split; [done|].
    exists []. split; [constructor|]. right. eexists. split; [|reflexivity]. exact I.
  - unfold when, ret, bind, put_cfg, modify_self, get_self, put_self, emit, init_stream.
    destruct (SOAPY_SDR_API_VERSION <? 524288).
    + unfold bind, call, when, fail_with, SoapySDRDevice_lastError, fprintf, emit, Return,
        ret, bind. cbn.
      match goal with |- context [api_setupStream_legacy ?a ?b ?c] =>
        destruct (api_setupStream_legacy a b c) as [[rc st] x1] end.
      case_bool_decide; cbn.
      * left. split; [|repeat (constructor; [cbn; tauto|]); constructor].
        pick_setup.
      * match goal with |- context [api_getStreamMTU ?a ?b ?c] =>
          destruct (api_getStreamMTU a b c) as [mtu x2] end. cbn.
        left. split; [|repeat (constructor; [cbn; tauto|]); constructor].
        pick_setup.
    + unfold bind, call, when, fail_with, SoapySDRDevice_lastError, fprintf, emit, Return,
        ret, bind. cbn.
      match goal with |- context [api_setupStream ?a ?b ?c] =>
        destruct (api_setupStream a b c) as [st x1] end.
      case_bool_decide; cbn.
      * left. split; [|repeat (constructor; [cbn; tauto|]); constructor].
        pick_setup.
      * match goal with |- context [api_getStreamMTU ?a ?b ?c] =>
          destruct (api_getStreamMTU a b c) as [mtu x2] end. cbn.
        left. split; [|repeat (constructor; [cbn; tauto|]); constructor].
        pick_setup.
Qed.

Ltac side ::= cbn; intros; try done; try (intuition (try done; try lia)).

Lemma flagged_is_last {A} (Q : A → Prop) pre e post pre' e' :
  pre ++ e :: post = pre' ++ [e'] → ¬ Q e → Forall Q pre' → pre = pre' ∧ post = [].
Proof.
  revert pre'. induction pre as [|a pre IH]; intros pre' Heq He Hpre'.
  - destruct pre' as [|b pre']; cbn in Heq.
    + by injection Heq as _ ->.
    + injection Heq as -> _. by apply Forall_cons in Hpre' as [Hb _].
  - destruct pre' as [|b pre']; cbn in Heq.
    + injection Heq as _ Heq. by destruct pre.
    + injection Heq as -> Heq. apply Forall_cons in Hpre' as [_ Hpre'].
      destruct (IH pre' Heq He Hpre') as [-> ->]. done.
Qed.

(** X6.  A run of the initialization that sets up no stream returns -1 and
    leaves the object and the configuration exactly as they were.  The line
    "could not find a suitable sample format" is printed in such runs only,
    and it is the last thing they do. *)
Theorem failure_before_stream_changes_nothing (s : state X) :
  let '(r, t, s') := run soapysdr_input_init s in
  (Forall (λ e, ¬ sets_up_stream e) t → r = -1 ∧ self s' = self s ∧ cfg s' = cfg s) ∧
  (∀ pre e post, t = pre ++ e :: post → is_no_suitable e →
     post = [] ∧ r = -1 ∧ Forall (λ e, ¬ sets_up_stream e) pre ∧
     self s' = self s ∧ cfg s' = cfg s).
Proof.
  pose proof (init_stream_or_nothing s I) as H. unfold run.
  destruct (soapysdr_input_init s) as [[[r|r] t] s'] eqn:E; cbn in H.
  - destruct (init_returns s) as (r' & t' & s'' & E'). congruence.
  - destruct H as [[(e & He & Hsetup) Hno]|(-> & Hs' & Hc' & pre' & Hpre' & Ht)].
    + split.
      * intros Hall. rewrite Forall_forall in Hall. by destruct (Hall e He).
      * intros pre e' post -> He'. apply Forall_app in Hno as [_ Hno].
        by apply Forall_cons in Hno as [Hno _].
    + split; [done|]. intros pre e post Heq He.
      destruct Ht as [->|(e' & He' & ->)].
      * subst pre'. apply Forall_app in Hpre' as [_ Hpre'].
        apply Forall_cons in Hpre' as [[_ Hpre'] _]. done.
      * destruct (flagged_is_last before_stream pre e post pre' e' (eq_sym Heq)) as [-> ->];
          [by intros [_ ?]|done|].
        repeat split; try done. eapply Forall_impl; [exact Hpre'|]. by intros ? [? _].
Qed.

(** *** The device search *)

(** The lines printed for the device of index [i]. *)
Definition device_lines (i : Z) (kw : SoapySDRKwargs) : list event :=
  Stderr (msg_found_device (int32_t i))
    :: ((λ pair, Stderr (msg_device_key pair.1 pair.2)) <$> kw).

Lemma search_pairs {R} i kw (s : state X) :
  for_each (R:=R) (λ _ '(k, v), fprintf (msg_device_key k v)) i kw s =
    (Next tt, (λ pair, Stderr (msg_device_key pair.1 pair.2)) <$> kw, s).
Proof.
  revert i. induction kw as [|[k v] kw IH]; intros i; [done|].
  cbn [for_each]. unfold bind at 1. unfold fprintf at 1, emit. by rewrite IH.
Qed.

Lemma search_devices {R} i results (s : state X) :
  for_each (R:=R) (λ i kw,
      fprintf (msg_found_device (int32_t i));;;
      for_each (λ _ '(k, v), fprintf (msg_device_key k v)) 0 kw) i results s =
    (Next tt, mjoin (imap (λ j kw, device_lines (i + Z.of_nat j) kw) results), s).
Proof.
  revert i. induction results as [|kw results IH]; intros i; [done|].
  cbn [for_each]. unfold bind at 1. unfold bind at 1. unfold fprintf at 1, emit.
  rewrite search_pairs, IH. cbn [imap mjoin list_join]. rewrite Z.add_0_r.
  rewrite (imap_ext ((λ j kw, device_lines (i + Z.of_nat j) kw) ∘ S)
             (λ j kw, device_lines (i + 1 + Z.of_nat j) kw) results); [done|].
  intros j kw' _. cbn. f_equal. lia.
Qed.

Lemma search_run (s : state X) :
  run soapysdr_verbose_device_search s =
    (tt,
     Ev_enumerate (api_enumerate (env s)).1
       :: mjoin (imap (λ j kw, device_lines (Z.of_nat j) kw) (api_enumerate (env s)).1)
       ++ [Ev_KwargsList_clear],
     with_env (api_enumerate (env s)).2 s).
Proof.
  destruct (api_enumerate (env s)) as [results x] eqn:Henum.
  unfold run, soapysdr_verbose_device_search. unfold bind at 1, call. rewrite Henum.
  unfold bind at 1. rewrite search_devices. unfold emit. cbn.
  do 3 f_equal.
Qed.

(** X7.  The device search prints, for each device the enumeration
    answers, in order, one line with its index and then one line for each of
    its key/value pairs in order, and hands the list back to the library.
    It touches nothing else: the state after it differs only by what the
    two library calls did. *)
Theorem search_lists_every_device (s : state X) :
  let '(results, x) := api_enumerate (env s) in
  run soapysdr_verbose_device_search s =
    (tt,
     Ev_enumerate results
       :: mjoin (imap (λ j kw, device_lines (Z.of_nat j) kw) results)
       ++ [Ev_KwargsList_clear],
     with_env x s).
Proof.
  pose proof (search_run s) as H.
  by destruct (api_enumerate (env s)) as [results x].
Qed.

Lemma search_invoked {R} (s : state X) :
  invoke (R':=R) soapysdr_verbose_device_search s
    = (Next tt, (run soapysdr_verbose_device_search s).1.2,
       with_env (api_enumerate (env s)).2 s).
Proof. unfold invoke. by rewrite search_run. Qed.

(** X8.  When the device cannot be opened ([makeStrArgs] answers [NULL]),
    the initialization prints "could not open SoapySDR device" with the
    library's error text and returns -1; nothing is called on the device
    and the object and the configuration are as before. *)
Theorem open_failure_is_fatal (s : state X) :
  let x1 := (api_enumerate (env s)).2 in
  let '(sdr, x2) := api_makeStrArgs (cfg_source (cfg s)) x1 in
  sdr = NULL →
  run soapysdr_input_init s =
    (-1,
     (run soapysdr_verbose_device_search s).1.2
       ++ [Ev_makeStrArgs (cfg_source (cfg s)) NULL;
           Stderr (msg_could_not_open (cfg_source (cfg s)) (api_lastError x2))],
     with_env x2 s).
Proof.
  cbv zeta.
  destruct (api_makeStrArgs (cfg_source (cfg s)) (api_enumerate (env s)).2)
    as [sdr x2] eqn:Hopen.
  intros ->.
  unfold run at 1. unfold soapysdr_input_init. unfold bind at 1. rewrite search_invoked.
  unfold bind at 1, get_cfg. unfold bind at 1, call. unfold with_env. cbn [env self cfg].
  rewrite Hopen. cbn. done.
Qed.

End Init_more.

(** ** The initialization, stage by stage

    [soapysdr_input_init] is a sequence of stages, each of which either
    goes on to the next or executes [return -1].  The stages are named
    here, and [init_by_stages] shows that the function is their sequence;
    what a run does is then read off stage by stage. *)

Section Init_stages.
Context {X : Type} `{!SoapySDR X, !Dumphfdl X}.

Ltac obey_tested ::= fail.
Ltac obey_loop ::= apply obeys_choose_loop_line; side.

(** Lines 88-95: the device search and the opening of the device.  The
    stage hands on [cfg] and the device. *)
Definition init_open : M X Z (input_cfg * ptr) :=
  invoke soapysdr_verbose_device_search;;;
  let* cfg := get_cfg in
  let* sdr := call (Ev_makeStrArgs (cfg_source cfg)) (api_makeStrArgs (cfg_source cfg)) in
  when (bool_decide (sdr = NULL)) (fail_with (msg_could_not_open (cfg_source cfg)));;;
  ret (cfg, sdr).

(** Lines 96-117: sample rate, frequency, correction, DC offset mode. *)
Definition init_tune (sdr : ptr) (cfg : input_cfg) : M X Z unit :=
  let* rc := call (Ev_setSampleRate sdr (double_of_int (cfg_sample_rate cfg)))
                  (api_setSampleRate sdr (double_of_int (cfg_sample_rate cfg))) in
  when (bool_decide (rc ≠ 0)) (fail_with (msg_setSampleRate_failed (cfg_source cfg)));;;
  let hz := int32_t (cfg_centerfreq cfg + cfg_freq_offset cfg) in
  let* rc := call (Ev_setFrequency sdr (double_of_int hz))
                  (api_setFrequency sdr (double_of_int hz)) in
  when (bool_decide (rc ≠ 0)) (fail_with (msg_setFrequency_failed (cfg_source cfg)));;;
  fprintf (msg_center_frequency_set (cfg_source cfg) hz);;;
  let* rc := call (Ev_setFrequencyCorrection sdr (double_of_float (cfg_correction cfg)))
                  (api_setFrequencyCorrection sdr (double_of_float (cfg_correction cfg))) in
  when (bool_decide (rc ≠ 0)) (fail_with (msg_setFrequencyCorrection_failed (cfg_source cfg)));;;
  fprintf (msg_frequency_correction_set (cfg_source cfg) (cfg_correction cfg));;;
  let* has := call (Ev_hasDCOffsetMode sdr) (api_hasDCOffsetMode sdr) in
  when has (
    let* rc := call (Ev_setDCOffsetMode sdr true) (api_setDCOffsetMode sdr true) in
    when (bool_decide (rc ≠ 0)) (fail_with (msg_setDCOffsetMode_failed (cfg_source cfg)))).

(** Lines 152-158: the antenna. *)
Definition init_antenna (sdr : ptr) (cfg : input_cfg) : M X Z unit :=
  match cfg_antenna cfg with
  | Some antenna =>
      let* rc := call (Ev_setAntenna sdr antenna) (api_setAntenna sdr antenna) in
      when (bool_decide (rc ≠ 0)) (fail_with (msg_could_not_select_antenna antenna))
  | None => ret tt
  end;;;
  let* antenna := call (Ev_getAntenna sdr) (api_getAntenna sdr) in
  fprintf (msg_using_antenna (cfg_source cfg) antenna).

(** Lines 177-187: the negotiation of the sample format, and the stores
    of its result. *)
Definition init_format (sdr : ptr) (cfg : input_cfg) : M X Z sample_format_search_result :=
  let* chosen := invoke (soapysdr_choose_sample_format sdr (cfg_source cfg)) in
  when (bool_decide (sfmt chosen = SFMT_UNDEF)) (
    fprintf (msg_no_suitable_format (cfg_source cfg));;;
    Return (-1));;;
  put_cfg (set_cfg_sfmt (sfmt chosen) cfg);;;
  modify_self (set_input (set_full_scale (full_scale chosen)));;;
  modify_self (set_input (set_bytes_per_sample (int32_t (sample_size chosen))));;;
  let* o := get_self in
  emit (Debug_chosen (cfg_source cfg) (sfmt chosen) (soapy_sfmt chosen)
          (in_full_scale (si_input o)) (in_bytes_per_sample (si_input o)));;;
  ret chosen.

(** Lines 189-203: the stream, its MTU, and the stores of the handles. *)
Definition init_finish (sdr : ptr) (cfg : input_cfg) (chosen : sample_format_search_result)
    : M X Z Z :=
  let* stream := init_stream sdr cfg chosen in
  let* mtu := call (Ev_getStreamMTU sdr stream) (api_getStreamMTU sdr stream) in
  modify_self (set_input (set_max_tu mtu));;;
  modify_self (set_sdr sdr);;;
  modify_self (set_stream stream);;;
  Return 0.

(** The stages of [m], and then one more. *)
Definition and_then (m : M X Z (input_cfg * ptr)) (stage : ptr → input_cfg → M X Z unit)
    : M X Z (input_cfg * ptr) :=
  let* (cfg, sdr) := m in
  stage sdr cfg;;;
  ret (cfg, sdr).

(** Lines 88-117: what comes before the gain block. *)
Definition init_upto_gain : M X Z (input_cfg * ptr) := and_then init_open init_tune.
(** Lines 88-151: up to and with the gain block. *)
Definition init_upto_antenna : M X Z (input_cfg * ptr) := and_then init_upto_gain init_gain.
(** Lines 88-158: what comes before the vendor settings. *)
Definition init_upto_settings : M X Z (input_cfg * ptr) :=
  and_then init_upto_antenna init_antenna.
(** Lines 88-176: what comes before the negotiation. *)
Definition init_configure : M X Z (input_cfg * ptr) := and_then init_upto_settings init_settings.

(** *** The function is the sequence of its stages *)

Lemma bind_assoc {R A B C} (m : M X R A) (k : A → M X R B) (h : B → M X R C) (s : state X) :
  bind (bind m k) h s = bind m (λ a, bind (k a) h) s.
Proof.
  unfold bind. destruct (m s) as [[[a|r] t] s1]; [|done].
  destruct (k a s1) as [[[b|r] t1] s2]; [|done].
  destruct (h b s2) as [[o t2] s3]. by rewrite app_assoc.
Qed.

Lemma bind_ret_l {R A B} (a : A) (k : A → M X R B) (s : state X) :
  bind (ret a) k s = k a s.
Proof. unfold bind, ret. by destruct (k a s) as [[o t] s1]. Qed.

Lemma bind_ext {R A B} (m : M X R A) (k k' : A → M X R B) (s : state X) :
  (∀ a s1, k a s1 = k' a s1) → bind m k s = bind m k' s.
Proof.
  intros H. unfold bind. destruct (m s) as [[[a|r] t] s1]; [|done]. by rewrite H.
Qed.

Lemma init_by_stages (s : state X) :
  soapysdr_input_init s =
    (let* (cfg, sdr) := init_configure in
     let* chosen := init_format sdr cfg in
     init_finish sdr cfg chosen) s.
Proof.
  unfold soapysdr_input_init, init_configure, init_upto_settings, init_upto_antenna,
    init_upto_gain, and_then, init_open, init_tune, init_antenna, init_format, init_finish.
  repeat first [ progress cbv beta iota zeta | rewrite bind_assoc | rewrite bind_ret_l
               | reflexivity | apply bind_ext; intros ? ? ].
Qed.

Lemma and_then_run m stage (s : state X) :
  and_then m stage s =
    match m s with
    | (Next (c, d), t0, s0) =>
        match stage d c s0 with
        | (Next _, t1, s1) => (Next (c, d), t0 ++ t1, s1)
        | (Returned r, t1, s1) => (Returned r, t0 ++ t1, s1)
        end
    | (Returned r, t0, s0) => (Returned r, t0, s0)
    end.
Proof.
  unfold and_then, bind, ret. destruct (m s) as [[[[c d]|r] t0] s0]; [|done].
  destruct (stage d c s0) as [[[[]|r] t1] s1]; [|done]. by rewrite app_nil_r.
Qed.

(** *** What a stage may do *)

Inductive stage := Opening | Tuning | Gain | Antenna | Settings | Format | Finish.

(** The lines each stage prints. *)
Definition line_of (st : stage) (m : message) : Prop :=
  match st with
  | Opening =>
      match m with
      | msg_found_device _ | msg_device_key _ _ | msg_could_not_open _ _ => True
      | _ => False
      end
  | Tuning =>
      match m with
      | msg_setSampleRate_failed _ _ | msg_setFrequency_failed _ _
      | msg_center_frequency_set _ _ | msg_setFrequencyCorrection_failed _ _
      | msg_frequency_correction_set _ _ | msg_setDCOffsetMode_failed _ _ => True
      | _ => False
      end
  | Gain =>
      match m with
      | msg_unable_to_parse_gains | msg_gain_element_set _ _ _ | msg_could_not_set_gain _ _
      | msg_gain_set _ _ | msg_no_auto_gain _ | msg_could_not_enable_auto_gain _ _
      | msg_auto_gain_enabled _ => True
      | _ => False
      end
  | Antenna =>
      match m with
      | msg_could_not_select_antenna _ _ | msg_using_antenna _ _ => True
      | _ => False
      end
  | Settings =>
      match m with
      | msg_unable_to_parse_settings _ _ | msg_setting _ _ _ _ => True
      | _ => False
      end
  | Format =>
      match m with
      | msg_using_native _ _ _ | msg_failed_read_formats _ | msg_using_non_native _ _ _
      | msg_no_suitable_format _ => True
      | _ => False
      end
  | Finish =>
      match m with
      | msg_could_not_set_up_stream _ _ => True
      | _ => False
      end
  end.

(** The events of each stage: its lines and its calls. *)
Definition belongs (st : stage) (e : event) : Prop :=
  match e with
  | Stderr m => line_of st m
  | Ev_enumerate _ | Ev_KwargsList_clear | Ev_makeStrArgs _ _ => st = Opening
  | Ev_setSampleRate _ _ _ | Ev_setFrequency _ _ _ | Ev_setFrequencyCorrection _ _ _
  | Ev_hasDCOffsetMode _ _ | Ev_setDCOffsetMode _ _ _ => st = Tuning
  | Ev_setGainElement _ _ _ _ | Ev_getGainElement _ _ _ | Ev_setGain _ _ _
  | Ev_hasGainMode _ _ | Ev_setGainMode _ _ _ => st = Gain
  | Ev_Kwargs_clear => st = Gain ∨ st = Settings
  | Ev_setAntenna _ _ _ | Ev_getAntenna _ _ => st = Antenna
  | Ev_writeSetting _ _ _ _ | Ev_readSetting _ _ _ => st = Settings
  | Ev_getNativeStreamFormat _ _ | Ev_getStreamFormats _ _ | Debug_chosen _ _ _ _ _ =>
      st = Format
  | Ev_setupStream _ _ _ | Ev_setupStream_legacy _ _ _ | Ev_getStreamMTU _ _ _ => st = Finish
  | _ => False
  end.

(** Before the gain block; before the vendor settings; from the antenna
    on. *)
Definition early (e : event) : Prop := belongs Opening e ∨ belongs Tuning e.
Definition before_settings (e : event) : Prop :=
  early e ∨ belongs Gain e ∨ belongs Antenna e.
Definition late (e : event) : Prop :=
  belongs Antenna e ∨ belongs Settings e ∨ belongs Format e ∨ belongs Finish e.

Definition is_gain_call (e : event) : Prop := is_gain_element e ∨ is_overall_gain e.

Lemma early_spec e :
  early e → ¬ is_gain_call e ∧ ¬ sets_up_stream e ∧ e ≠ Stderr msg_unable_to_parse_gains.
Proof.
  unfold early, is_gain_call.
  destruct e; try (match goal with m : message |- _ => destruct m end);
    cbn; intuition (try done; try discriminate).
Qed.

Lemma before_settings_spec e :
  before_settings e →
  ¬ sets_up_stream e ∧ ¬ is_setting e ∧
  ∀ source settings, e ≠ Stderr (msg_unable_to_parse_settings source settings).
Proof.
  unfold before_settings, early.
  destruct e; try (match goal with m : message |- _ => destruct m end);
    cbn; intuition (try done; try discriminate).
Qed.

Lemma late_spec e : late e → ¬ is_gain_call e.
Proof.
  unfold late, is_gain_call.
  destruct e; try (match goal with m : message |- _ => destruct m end);
    cbn; intuition (try done; try discriminate).
Qed.

(** A stage that keeps to the events of [q], leaves the object and the
    configuration alone, and has [return -1] as its only [return]. *)
Definition within (q : event → Prop) : discipline X Z.
Proof.
  refine {| quiet := q;
            frame := λ s s', self s' = self s ∧ cfg s' = cfg s;
            known := λ _, True;
            final := λ s r t s', r = -1 ∧ Forall q t ∧ self s' = self s ∧ cfg s' = cfg s |}.
  - done.
  - intros s1 s2 s3 [-> ->] [-> ->]. done.
  - done.
  - done.
  - intros s s1 s' r t1 t2 H1 [Hs Hc] (-> & H2 & Hs' & Hc').
    split; [done|]. split; [by apply Forall_app|]. split; congruence.
Defined.

(** A stage that keeps to the events of [q]. *)
Definition only (q : event → Prop) : discipline X Z.
Proof.
  refine {| quiet := q; frame := λ _ _, True; known := λ _, True;
            final := λ _ _ t _, Forall q t |}.
  - done.
  - done.
  - done.
  - done.
  - intros s s1 s' r t1 t2 H1 _ H2. by apply Forall_app.
Defined.

Lemma within_run {A} q (m : M X Z A) (s : state X) :
  obeys (within q) m →
  let '(o, t, s') := m s in
  Forall q t ∧ self s' = self s ∧ cfg s' = cfg s ∧
  match o with Next _ => True | Returned r => r = -1 end.
Proof.
  intros H. specialize (H s I). destruct (m s) as [[[a|r] t] s']; cbn in H.
  - by destruct H as (? & [? ?] & _).
  - by destruct H as (? & ? & ? & ?).
Qed.

Lemma only_run {A} q (m : M X Z A) (s : state X) :
  obeys (only q) m → Forall q (m s).1.2.
Proof.
  intros H. specialize (H s I). destruct (m s) as [[[a|r] t] s']; cbn in H; [|done].
  by destruct H.
Qed.

Ltac stage_obey :=
  unfold init_configure, init_upto_settings, init_upto_antenna, init_upto_gain, and_then,
    init_open, init_tune, init_antenna, init_format, init_finish,
    before_settings, late, early;
  obey.

Lemma upto_gain_early : obeys (within early) init_upto_gain.
Proof. stage_obey. Qed.

Lemma upto_settings_before : obeys (within before_settings) init_upto_settings.
Proof. stage_obey. Qed.

Lemma configure_within : obeys (within (λ _, True)) init_configure.
Proof. stage_obey. Qed.

Lemma antenna_late sdr c : obeys (within late) (init_antenna sdr c).
Proof. stage_obey. Qed.

Lemma settings_late sdr c : obeys (within late) (init_settings sdr c).
Proof. stage_obey. Qed.

Lemma format_late sdr c : obeys (only late) (init_format sdr c).
Proof. stage_obey. Qed.

Lemma finish_late sdr c chosen : obeys (only late) (init_finish sdr c chosen).
Proof. stage_obey. Qed.

(** *** The device that was opened *)

(** What a stage hands on: the configuration, and the device that
    [makeStrArgs] answered in this run, which is not [NULL]. *)
Definition opened (s : state X) (c : input_cfg) (dev : ptr) (t : list event) : Prop :=
  c = cfg s ∧ dev ≠ NULL ∧ Ev_makeStrArgs (cfg_source c) dev ∈ t.

Lemma open_next (s : state X) c dev t s0 :
  init_open s = (Next (c, dev), t, s0) → opened s c dev t.
Proof.
  unfold init_open. unfold bind at 1. rewrite search_invoked.
  unfold bind at 1, get_cfg. unfold bind at 1, call. cbn [env self cfg].
  destruct (api_makeStrArgs _ _) as [d x].
  unfold bind, when. case_bool_decide as Hd; cbn; [done|].
  intros [= <- <- <- _]. split; [done|]. split; [done|].
  apply elem_of_app. right. apply list_elem_of_here.
Qed.

Lemma and_then_next m stage (s : state X) c d t s1 :
  and_then m stage s = (Next (c, d), t, s1) →
  ∃ t0 s0 t1, m s = (Next (c, d), t0, s0) ∧ stage d c s0 = (Next tt, t1, s1) ∧ t = t0 ++ t1.
Proof.
  rewrite and_then_run. destruct (m s) as [[[[c' d']|r] t0] s0]; [|done].
  destruct (stage d' c' s0) as [[[[]|r] t1] s1'] eqn:Hstage; [|done].
  intros [= -> -> <- <-]. by exists t0, s0, t1.
Qed.

Lemma and_then_opened m stage (s : state X) :
  (∀ c d t s0, m s = (Next (c, d), t, s0) → opened s c d t) →
  ∀ c d t s1, and_then m stage s = (Next (c, d), t, s1) → opened s c d t.
Proof.
  intros Hm c d t s1 (t0 & s0 & t1 & H0 & _ & ->)%and_then_next.
  destruct (Hm _ _ _ _ H0) as (? & ? & ?). split; [done|]. split; [done|].
  apply elem_of_app. by left.
Qed.

Lemma upto_gain_opened (s : state X) c d t s0 :
  init_upto_gain s = (Next (c, d), t, s0) → opened s c d t.
Proof. apply and_then_opened, open_next. Qed.

Lemma upto_settings_opened (s : state X) c d t s0 :
  init_upto_settings s = (Next (c, d), t, s0) → opened s c d t.
Proof. apply and_then_opened, and_then_opened, upto_gain_opened. Qed.

Lemma configure_opened (s : state X) c d t s0 :
  init_configure s = (Next (c, d), t, s0) → opened s c d t.
Proof. apply and_then_opened, upto_settings_opened. Qed.

(** *** The gain block *)

(** What the gain block leaves in the trace, by the configuration; the
    index says whether the initialization goes on after it.  [answers] are
    the status and the value read back for each gain element, [rc] the
    status of a setter, [err] the error text of the library. *)
Inductive gain_applied (dev : ptr) (c : input_cfg) : bool → list event → Prop :=
  | gain_by_elements gain_elements answers :
      cfg_gain_elements c = Some gain_elements →
      SoapySDRKwargs_fromString gain_elements ≠ [] →
      length answers = length (SoapySDRKwargs_fromString gain_elements) →
      gain_applied dev c true
        (mjoin (zip_with (gain_element_events dev (cfg_source c))
                  (SoapySDRKwargs_fromString gain_elements) answers)
           ++ [Ev_Kwargs_clear])
  | gain_by_elements_unparsable gain_elements :
      cfg_gain_elements c = Some gain_elements →
      SoapySDRKwargs_fromString gain_elements = [] →
      gain_applied dev c false [Stderr msg_unable_to_parse_gains]
  | gain_by_scalar :
      cfg_gain_elements c = None →
      fp_ne (cfg_gain c) AUTO_GAIN = true →
      gain_applied dev c true
        [Ev_setGain dev (double_of_float (cfg_gain c)) 0;
         Stderr (msg_gain_set (cfg_source c) (cfg_gain c))]
  | gain_by_scalar_failed rc err :
      cfg_gain_elements c = None →
      fp_ne (cfg_gain c) AUTO_GAIN = true →
      rc ≠ 0 →
      gain_applied dev c false
        [Ev_setGain dev (double_of_float (cfg_gain c)) rc;
         Stderr (msg_could_not_set_gain (cfg_source c) err)]
  | gain_automatic :
      cfg_gain_elements c = None →
      fp_ne (cfg_gain c) AUTO_GAIN = false →
      gain_applied dev c true
        [Ev_hasGainMode dev true; Ev_setGainMode dev true 0;
         Stderr (msg_auto_gain_enabled (cfg_source c))]
  | gain_automatic_unsupported :
      cfg_gain_elements c = None →
      fp_ne (cfg_gain c) AUTO_GAIN = false →
      gain_applied dev c false
        [Ev_hasGainMode dev false; Stderr (msg_no_auto_gain (cfg_source c))]
  | gain_automatic_failed rc err :
      cfg_gain_elements c = None →
      fp_ne (cfg_gain c) AUTO_GAIN = false →
      rc ≠ 0 →
      gain_applied dev c false
        [Ev_hasGainMode dev true; Ev_setGainMode dev true rc;
         Stderr (msg_could_not_enable_auto_gain (cfg_source c) err)].

Lemma gain_block dev c (s : state X) :
  let '(o, tg, sg) := init_gain dev c s in
  ∃ ok, gain_applied dev c ok tg ∧
        match o with Next _ => ok = true | Returned r => ok = false ∧ r = -1 end.
Proof.
  destruct (cfg_gain_elements c) as [ge|] eqn:Hge.
  - destruct (SoapySDRKwargs_fromString ge) as [|p gains] eqn:Hp.
    + rewrite init_gain_unparsable by (by exists ge).
      exists false. split; [by eapply gain_by_elements_unparsable|done].
    + destruct (init_gain_cases dev c s) as (H1 & _ & _).
      destruct (H1 ge _ Hge Hp) as [(answers & x & Hlen & ->) _]; [done|].
      exists true. split; [|done]. rewrite <- Hp. eapply gain_by_elements; by rewrite ?Hp.
  - destruct (fp_ne (cfg_gain c) AUTO_GAIN) eqn:Hne.
    + destruct (api_setGain dev (double_of_float (cfg_gain c)) (env s)) as [rc x] eqn:Hset.
      destruct (init_gain_cases dev c s) as (_ & H2 & _).
      rewrite (H2 Hge Hne rc x Hset). case_bool_decide as Hrc.
      * exists false. split; [by apply gain_by_scalar_failed|done].
      * assert (rc = 0) as -> by (destruct (decide (rc = 0)); [done|by destruct Hrc]).
        exists true. split; [by apply gain_by_scalar|done].
    + destruct (api_hasGainMode dev (env s)) as [has x1] eqn:Hhas.
      destruct (api_setGainMode dev true x1) as [rc x2] eqn:Hset.
      destruct (init_gain_cases dev c s) as (_ & _ & H3).
      rewrite (H3 Hge Hne has x1 rc x2 Hhas Hset).
      destruct has; cbn [negb].
      * case_bool_decide as Hrc.
        -- exists false. split; [by apply gain_automatic_failed|done].
        -- assert (rc = 0) as -> by (destruct (decide (rc = 0)); [done|by destruct Hrc]).
           exists true. split; [by apply gain_automatic|done].
      * exists false. split; [by apply gain_automatic_unsupported|done].
Qed.

(** The step after the gain block begins on the same device. *)
Definition begins_antenna (dev : ptr) (e : event) : Prop :=
  match e with
  | Ev_setAntenna d _ _ | Ev_getAntenna d _ => d = dev
  | _ => False
  end.

Lemma antenna_first dev c (s : state X) :
  ∃ e rest, (init_antenna dev c s).1.2 = e :: rest ∧ begins_antenna dev e.
Proof.
  unfold init_antenna. destruct (cfg_antenna c) as [a|].
  - unfold bind at 1. unfold bind at 1, call at 1.
    destruct (api_setAntenna dev a (env s)) as [rc x].
    destruct (when _ _ _) as [[[[]|r] t1] s1].
    + destruct (bind _ _ s1) as [[o t2] s2]. cbn. eexists _, _. by split.
    + cbn. eexists _, _. by split.
  - unfold bind at 1, ret. unfold bind at 1, call at 1.
    cbn [env self cfg]. destruct (api_getAntenna dev (env s)) as [a x].
    destruct (fprintf _ _) as [[o t2] s2]. cbn. eexists _, _. by split.
Qed.

(** *** Where a run ends *)

(** A run of the function, by the stage it ends in: from the gain block
    on. *)
Lemma init_run_from_gain (s : state X) :
  let '(r, t, s') := run soapysdr_input_init s in
  match init_upto_gain s with
  | (Returned r0, t0, s0) => r = r0 ∧ t = t0 ∧ s' = s0
  | (Next (c, dev), t0, s0) =>
      match init_gain dev c s0 with
      | (Returned rg, tg, sg) => r = rg ∧ t = t0 ++ tg ∧ s' = sg
      | (Next _, tg, sg) =>
          ∃ e rest, t = t0 ++ tg ++ e :: rest ∧ begins_antenna dev e ∧ Forall late (e :: rest)
      end
  end.
Proof.
  unfold run. rewrite init_by_stages. unfold bind at 1.
  unfold init_configure, init_upto_settings, init_upto_antenna. rewrite !and_then_run.
  destruct (init_upto_gain s) as [[[[c dev]|r0] t0] s0]; [|done].
  destruct (init_gain dev c s0) as [[[[]|rg] tg] sg]; [|done].
  destruct (antenna_first dev c sg) as (e & rest & Hfirst & He).
  pose proof (within_run late _ sg (antenna_late dev c)) as Ha.
  destruct (init_antenna dev c sg) as [[oa ta] sa]. cbn in Hfirst. subst ta.
  destruct Ha as (Ha & _).
  destruct oa as [[]|ra].
  2: { exists e, rest. rewrite <- app_assoc. done. }
  pose proof (within_run late _ sa (settings_late dev c)) as Hs.
  destruct (init_settings dev c sa) as [[os ts] ss]. destruct Hs as (Hs & _).
  destruct os as [[]|rs].
  2: { exists e, (rest ++ ts). rewrite <- !app_assoc. split; [done|]. split; [done|].
       rewrite app_comm_cons. by apply Forall_app. }
  cbv beta iota. unfold bind at 1.
  pose proof (only_run late _ ss (format_late dev c)) as Hf.
  destruct (init_format dev c ss) as [[[chosen|rf] tf] sf]; cbn in Hf.
  2: { exists e, (rest ++ ts ++ tf). rewrite <- !app_assoc. split; [done|]. split; [done|].
       rewrite app_comm_cons. apply Forall_app. split; [done|]. by apply Forall_app. }
  pose proof (only_run late _ sf (finish_late dev c chosen)) as Hn.
  destruct (init_finish dev c chosen sf) as [[[a|rn] tn] sn]; cbn in Hn;
    exists e, (rest ++ ts ++ tf ++ tn);
    (split; [by rewrite <- !app_assoc|]); (split; [done|]);
    rewrite app_comm_cons; (apply Forall_app; split; [done|]);
    (apply Forall_app; split; [done|]); by apply Forall_app.
Qed.

(** The same, from the vendor settings on. *)
Lemma init_run_from_settings (s : state X) :
  let '(r, t, s') := run soapysdr_input_init s in
  match init_upto_settings s with
  | (Returned r0, t0, s0) => r = r0 ∧ t = t0 ∧ s' = s0
  | (Next (c, dev), t0, s0) =>
      match init_settings dev c s0 with
      | (Returned rs, ts, ss) => r = rs ∧ t = t0 ++ ts ∧ s' = ss
      | (Next _, ts, ss) => ∃ rest, t = t0 ++ ts ++ rest
      end
  end.
Proof.
  unfold run. rewrite init_by_stages. unfold bind at 1.
  unfold init_configure. rewrite and_then_run.
  destruct (init_upto_settings s) as [[[[c dev]|r0] t0] s0]; [|done].
  destruct (init_settings dev c s0) as [[[[]|rs] ts] ss]; [|done].
  cbv beta iota.
  destruct (bind _ _ ss) as [[[a|r] t] s']; exists t; by rewrite <- app_assoc.
Qed.

(** The same, from the negotiation on. *)
Lemma init_run_from_format (s : state X) :
  let '(r, t, s') := run soapysdr_input_init s in
  match init_configure s with
  | (Returned r0, t0, s0) => r = r0 ∧ t = t0 ∧ s' = s0
  | (Next (c, dev), t0, s1) =>
      match init_format dev c s1 with
      | (Returned rf, tf, sf) => r = rf ∧ t = t0 ++ tf ∧ s' = sf
      | (Next chosen, tf, sf) =>
          let '(rn, tn, sn) := run (init_finish dev c chosen) sf in
          r = rn ∧ t = t0 ++ tf ++ tn ∧ s' = sn
      end
  end.
Proof.
  unfold run. rewrite init_by_stages. unfold bind at 1.
  destruct (init_configure s) as [[[[c dev]|r0] t0] s1]; [|done].
  cbv beta iota. unfold bind at 1.
  destruct (init_format dev c s1) as [[[chosen|rf] tf] sf]; [|done].
  by destruct (init_finish dev c chosen sf) as [[[a|r] tn] sn].
Qed.

(** C4.  In every run of [soapysdr_input_init], the gain is configured by
    precedence, on the device the run has opened and with the configuration
    of the input.  A run that ends before the gain block (the device does
    not open, or a setter of lines 96-117 fails) returns -1 and makes no
    gain call.  In every other run the trace is what came before, then what
    the gain block did, then what came after, and the gain calls are those
    of the block alone.  With a gain string that parses to at least one
    pair, the pairs are applied on the opened device one after the other in
    the order given, each followed by reading the value back and printing
    it, and neither the scalar gain nor the automatic mode is touched,
    whatever the scalar is.  Without a gain string and with a scalar other
    than [AUTO_GAIN], the scalar is set on the device, and a status other
    than 0 is fatal: the line that reports it is the last event and the
    result is -1.  Otherwise the device is asked for its automatic gain
    mode: not having one is fatal, and so is a status other than 0 when the
    mode is switched on.  When the block is not fatal, the run goes on with
    the antenna of the same device. *)
Theorem gain_precedence (s : state X) :
  let c := cfg s in
  let '(r, t, s') := run soapysdr_input_init s in
  (cfg_gain_elements c ≠ None → Forall (λ e, ¬ is_overall_gain e) t) ∧
  match init_upto_gain s with
  | (Returned _, t0, _) => r = -1 ∧ t = t0 ∧ Forall (λ e, ¬ is_gain_call e) t
  | (Next (_, dev), t0, _) =>
      dev ≠ NULL ∧ Ev_makeStrArgs (cfg_source c) dev ∈ t0 ∧
      ∃ ok tg after,
        t = t0 ++ tg ++ after ∧
        gain_applied dev c ok tg ∧
        Forall (λ e, ¬ is_gain_call e) (t0 ++ after) ∧
        (if ok then ∃ e rest, after = e :: rest ∧ begins_antenna dev e
         else r = -1 ∧ after = [])
  end.
Proof.
  intros c.
  pose proof (obeys_run (skipping (λ c, cfg_gain_elements c ≠ None) is_overall_gain
                           (λ c v H, H)) _ s (init_skips_overall_gain _)) as Hscalar.
  pose proof (init_run_from_gain s) as Hrun.
  destruct (run soapysdr_input_init s) as [[r t] s'].
  split. { intros Hc. by apply Hscalar. }
  clear Hscalar.
  pose proof (within_run early _ s upto_gain_early) as Hearly.
  pose proof (upto_gain_opened s) as Hopened.
  destruct (init_upto_gain s) as [[[[c' dev]|r0] t0] s0].
  - destruct Hearly as (Hearly & _).
    destruct (Hopened _ _ _ _ eq_refl) as (-> & Hdev & Hmk). fold c in Hrun |- *.
    assert (Forall (λ e, ¬ is_gain_call e) t0) as Hno.
    { eapply Forall_impl; [exact Hearly|]. intros e He. by apply early_spec. }
    split; [done|]. split; [done|].
    pose proof (gain_block dev c s0) as Hgain.
    destruct (init_gain dev c s0) as [[[[]|rg] tg] sg].
    + destruct Hgain as (ok & Hgain & ->).
      destruct Hrun as (e & rest & -> & He & Hlate).
      exists true, tg, (e :: rest). split; [done|]. split; [done|].
      split; [|by exists e, rest].
      apply Forall_app. split; [done|].
      eapply Forall_impl; [exact Hlate|]. intros e' He'. by apply late_spec.
    + destruct Hgain as (ok & Hgain & -> & ->). destruct Hrun as (-> & -> & _).
      exists false, tg, []. rewrite !app_nil_r. done.
  - destruct Hearly as (Hearly & _ & _ & ->). destruct Hrun as (-> & -> & _).
    split; [done|]. split; [done|].
    eapply Forall_impl; [exact Hearly|]. intros e He. by apply early_spec.
Qed.

(** C9.  A gain string, or a settings string, that parses to no pair makes
    the initialization fail whatever the device is and answers: the result
    is -1, no stream is set up, and the object and the configuration are
    left as they were.  The failure is the configuration error whenever the
    run comes to the block that parses the string: the line of the
    configuration error is then the last event of the run, right after what
    came before the block, and the block makes no call.  A run that ends
    before the block, because the device does not open or an earlier step
    fails, ends with what that step did, and the line of the configuration
    error is not printed. *)
Theorem unparsable_pairs_are_fatal (s : state X) :
  let c := cfg s in
  let '(r, t, s') := run soapysdr_input_init s in
  (gains_unparsable c →
   r = -1 ∧ Forall (λ e, ¬ sets_up_stream e) t ∧ Forall (λ e, ¬ is_gain_call e) t ∧
   self s' = self s ∧ cfg s' = c ∧
   match init_upto_gain s with
   | (Returned _, t0, _) => t = t0 ∧ Stderr msg_unable_to_parse_gains ∉ t
   | (Next _, t0, _) => t = t0 ++ [Stderr msg_unable_to_parse_gains]
   end) ∧
  (settings_unparsable c →
   r = -1 ∧ Forall (λ e, ¬ sets_up_stream e) t ∧ Forall (λ e, ¬ is_setting e) t ∧
   self s' = self s ∧ cfg s' = c ∧
   match init_upto_settings s with
   | (Returned _, t0, _) =>
       t = t0 ∧ ∀ source settings, Stderr (msg_unable_to_parse_settings source settings) ∉ t
   | (Next _, t0, _) =>
       ∃ settings, cfg_device_settings c = Some settings ∧
                   t = t0 ++ [Stderr (msg_unable_to_parse_settings (cfg_source c) settings)]
   end).
Proof.
  intros c.
  pose proof (init_run_from_gain s) as Hgain.
  pose proof (init_run_from_settings s) as Hset.
  destruct (run soapysdr_input_init s) as [[r t] s'].
  split.
  - intros Hc. clear Hset.
    pose proof (within_run early _ s upto_gain_early) as Hearly.
    pose proof (upto_gain_opened s) as Hopened.
    destruct (init_upto_gain s) as [[[[c' dev]|r0] t0] s0].
    + destruct Hearly as (Hearly & Hself & Hcfg & _).
      destruct (Hopened _ _ _ _ eq_refl) as (-> & _). fold c in Hgain, Hc.
      rewrite init_gain_unparsable in Hgain by done. destruct Hgain as (-> & -> & ->).
      split; [done|].
      split. { apply Forall_app. split; [|repeat (constructor; [cbn; tauto|]); constructor].
               eapply Forall_impl; [exact Hearly|]. intros e He. by apply early_spec. }
      split. { apply Forall_app. split; [|repeat (constructor; [unfold is_gain_call; cbn; tauto|]); constructor].
               eapply Forall_impl; [exact Hearly|]. intros e He. by apply early_spec. }
      done.
    + destruct Hearly as (Hearly & Hself & Hcfg & ->). destruct Hgain as (-> & -> & ->).
      split; [done|].
      split. { eapply Forall_impl; [exact Hearly|]. intros e He. by apply early_spec. }
      split. { eapply Forall_impl; [exact Hearly|]. intros e He. by apply early_spec. }
      split; [done|]. split; [done|]. split; [done|].
      intros Hin. rewrite Forall_forall in Hearly.
      by destruct (early_spec _ (Hearly _ Hin)) as (_ & _ & ?).
  - intros Hc. clear Hgain.
    pose proof (within_run before_settings _ s upto_settings_before) as Hbefore.
    pose proof (upto_settings_opened s) as Hopened.
    destruct (init_upto_settings s) as [[[[c' dev]|r0] t0] s0].
    + destruct Hbefore as (Hbefore & Hself & Hcfg & _).
      destruct (Hopened _ _ _ _ eq_refl) as (-> & _). fold c in Hset, Hc.
      destruct (init_settings_unparsable dev c s0 Hc) as (ds & Hds & Hrun).
      rewrite Hrun in Hset. destruct Hset as (-> & -> & ->).
      split; [done|].
      split. { apply Forall_app. split; [|repeat (constructor; [cbn; tauto|]); constructor].
               eapply Forall_impl; [exact Hbefore|]. intros e He. by apply before_settings_spec. }
      split. { apply Forall_app. split; [|repeat (constructor; [cbn; tauto|]); constructor].
               eapply Forall_impl; [exact Hbefore|]. intros e He. by apply before_settings_spec. }
      split; [done|]. split; [done|]. by exists ds.
    + destruct Hbefore as (Hbefore & Hself & Hcfg & ->). destruct Hset as (-> & -> & ->).
      split; [done|].
      split. { eapply Forall_impl; [exact Hbefore|]. intros e He. by apply before_settings_spec. }
      split. { eapply Forall_impl; [exact Hbefore|]. intros e He. by apply before_settings_spec. }
      split; [done|]. split; [done|]. split; [done|].
      intros source settings Hin. rewrite Forall_forall in Hbefore.
      destruct (before_settings_spec _ (Hbefore _ Hin)) as (_ & _ & Hne).
      exact (Hne source settings eq_refl).
Qed.

(** *** A successful initialization *)

Lemma format_run sdr c (s1 : state X) :
  init_format sdr c s1 =
    let '(chosen, tn, s2) := run (soapysdr_choose_sample_format sdr (cfg_source c)) s1 in
    if bool_decide (sfmt chosen = SFMT_UNDEF) then
      (Returned (-1), tn ++ [Stderr (msg_no_suitable_format (cfg_source c))], s2)
    else
      (Next chosen,
       tn ++ [Debug_chosen (cfg_source c) (sfmt chosen) (soapy_sfmt chosen)
                (full_scale chosen) (int32_t (sample_size chosen))],
       {| env := env s2;
          self := set_input (set_bytes_per_sample (int32_t (sample_size chosen)))
                    (set_input (set_full_scale (full_scale chosen)) (self s2));
          cfg := set_cfg_sfmt (sfmt chosen) c |}).
Proof.
  unfold init_format. unfold bind at 1, invoke.
  destruct (run (soapysdr_choose_sample_format sdr (cfg_source c)) s1) as [[chosen tn] s2].
  unfold bind at 1, when. case_bool_decide; [done|]. by cbn.
Qed.

(** The event of a stream having been set up: a stream that is not [NULL]
    with the API of 0.8 and later, status 0 before that. *)
Definition stream_set_up (dev : ptr) (fmt : cstr) (strm : ptr) (e : event) : Prop :=
  match e with
  | Ev_setupStream d f st => d = dev ∧ f = fmt ∧ st = strm ∧ strm ≠ NULL
  | Ev_setupStream_legacy d f (rc, st) => d = dev ∧ f = fmt ∧ rc = 0 ∧ st = strm
  | _ => False
  end.

Lemma finish_zero sdr c chosen (sf : state X) t s' :
  run (init_finish sdr c chosen) sf = (0, t, s') →
  ∃ strm mtu e x,
    t = [e; Ev_getStreamMTU sdr strm mtu] ∧
    stream_set_up sdr (soapy_sfmt chosen) strm e ∧
    api_getStreamMTU sdr strm x = (mtu, env s') ∧
    self s' = set_stream strm (set_sdr sdr (set_input (set_max_tu mtu) (self sf))) ∧
    cfg s' = cfg sf.
Proof.
  unfold run, init_finish, init_stream.
  destruct (SOAPY_SDR_API_VERSION <? 524288).
  - unfold bind at 1. unfold bind at 1, call at 1.
    destruct (api_setupStream_legacy sdr (soapy_sfmt chosen) (env sf)) as [[rc st] x1].
    unfold bind at 1, when. case_bool_decide as Hrc; [by cbn|].
    unfold ret. unfold bind at 1, call at 1. cbn [env self cfg].
    destruct (api_getStreamMTU sdr st x1) as [mtu x2] eqn:Hmtu. cbn.
    intros [= <- <-]. exists st, mtu, (Ev_setupStream_legacy sdr (soapy_sfmt chosen) (rc, st)), x1.
    split; [done|]. split; [|done].
    cbn. repeat split; try done; try (destruct (decide (rc = 0)); [done|by destruct Hrc]).
  - unfold bind at 1. unfold bind at 1, call at 1.
    destruct (api_setupStream sdr (soapy_sfmt chosen) (env sf)) as [st x1].
    unfold bind at 1, when. case_bool_decide as Hst; [by cbn|].
    unfold ret. unfold bind at 1, call at 1. cbn [env self cfg].
    destruct (api_getStreamMTU sdr st x1) as [mtu x2] eqn:Hmtu. cbn.
    intros [= <- <-]. exists st, mtu, (Ev_setupStream sdr (soapy_sfmt chosen) st), x1.
    split; [done|]. split; [|done]. cbn. done.
Qed.

(** What a run that returns 0 has done, and what it leaves.  [dev] is the
    device that the part of the function before the negotiation has
    opened, [s1] the state that part ends in, [chosen] the result of the
    negotiation run there, [strm] the stream set up, [mtu] its MTU. *)
Definition set_up (s : state X) (t : list event) (s' : state X)
    (dev : ptr) (chosen : sample_format_search_result) (strm : ptr) (mtu : Z) : Prop :=
  ∃ t0 s1 tn s2 e x,
    init_configure s = (Next (cfg s, dev), t0, s1) ∧
    dev ≠ NULL ∧ Ev_makeStrArgs (cfg_source (cfg s)) dev ∈ t0 ∧
    self s1 = self s ∧ cfg s1 = cfg s ∧
    run (soapysdr_choose_sample_format dev (cfg_source (cfg s))) s1 = (chosen, tn, s2) ∧
    sfmt chosen ≠ SFMT_UNDEF ∧
    t = t0 ++ tn
          ++ [Debug_chosen (cfg_source (cfg s)) (sfmt chosen) (soapy_sfmt chosen)
                (full_scale chosen) (int32_t (sample_size chosen));
              e; Ev_getStreamMTU dev strm mtu] ∧
    stream_set_up dev (soapy_sfmt chosen) strm e ∧
    api_getStreamMTU dev strm x = (mtu, env s') ∧
    self s' =
      {| si_input := {| in_max_tu := mtu;
                        in_running := in_running (si_input (self s));
                        in_full_scale := full_scale chosen;
                        in_bytes_per_sample := int32_t (sample_size chosen) |};
         sdr := dev; stream := strm |} ∧
    cfg s' = set_cfg_sfmt (sfmt chosen) (cfg s).

Lemma init_sets_up (s : state X) t s' :
  run soapysdr_input_init s = (0, t, s') →
  ∃ dev chosen strm mtu, set_up s t s' dev chosen strm mtu.
Proof.
  intros Hrun. pose proof (init_run_from_format s) as H. rewrite Hrun in H.
  pose proof (within_run (λ _, True) _ s configure_within) as Hconf.
  pose proof (configure_opened s) as Hopened.
  destruct (init_configure s) as [[[[c dev]|r0] t0] s1] eqn:Hconfigure.
  2: { destruct Hconf as (_ & _ & _ & ->). by destruct H. }
  destruct Hconf as (_ & Hself & Hcfg & _).
  destruct (Hopened _ _ _ _ eq_refl) as (-> & Hdev & Hmk). clear Hopened.
  rewrite format_run in H.
  pose proof (choose_negotiated dev (cfg_source (cfg s)) s1) as Hneg.
  destruct (run (soapysdr_choose_sample_format dev (cfg_source (cfg s))) s1)
    as [[chosen tn] s2] eqn:Hchoose.
  assert (self s2 = self s1) as Hself2 by (destruct Hneg; done).
  case_bool_decide as Hfmt; [by destruct H|].
  match type of H with context [run ?m ?sf] => destruct (run m sf) as [[rn tfin] sn] eqn:Hfin end.
  destruct H as (<- & -> & ->).
  destruct (finish_zero _ _ _ _ _ _ Hfin) as (strm & mtu & e & x & -> & He & Hmtu & Hobj & Hc).
  exists dev, chosen, strm, mtu, t0, s1, tn, s2, e, x.
  split; [done|]. split; [done|]. split; [done|]. split; [done|]. split; [done|].
  split; [done|]. split; [done|]. split; [by rewrite <- app_assoc|].
  split; [done|]. split; [done|]. split; [|done].
  rewrite Hobj. cbn. by rewrite Hself2, Hself.
Qed.

(** X9.  When the initialization returns 0: the part of the function
    before the negotiation (lines 88-176) has run to its end and has opened
    a device, which is not [NULL]; the negotiation was run on that device,
    from the state that part has left, and its result has a kind other than
    [SFMT_UNDEF]; the trace is the trace of that part, then that of the
    negotiation, then the debug line, the stream set up on that device in
    the negotiated format, with success, and last the query for the
    stream's MTU.  The object then holds that device, that stream, that MTU
    and the full scale and sample size of the negotiation result; [running]
    is as it was, and the configuration differs in [sfmt] only, which is the
    negotiated kind. *)
Theorem successful_init_populates (s : state X) t s' :
  run soapysdr_input_init s = (0, t, s') →
  ∃ dev chosen strm mtu t0 s1 tn s2 e x,
    init_configure s = (Next (cfg s, dev), t0, s1) ∧
    dev ≠ NULL ∧ Ev_makeStrArgs (cfg_source (cfg s)) dev ∈ t0 ∧
    self s1 = self s ∧ cfg s1 = cfg s ∧
    run (soapysdr_choose_sample_format dev (cfg_source (cfg s))) s1 = (chosen, tn, s2) ∧
    sfmt chosen ≠ SFMT_UNDEF ∧
    t = t0 ++ tn
          ++ [Debug_chosen (cfg_source (cfg s)) (sfmt chosen) (soapy_sfmt chosen)
                (full_scale chosen) (int32_t (sample_size chosen));
              e; Ev_getStreamMTU dev strm mtu] ∧
    stream_set_up dev (soapy_sfmt chosen) strm e ∧
    api_getStreamMTU dev strm x = (mtu, env s') ∧
    self s' =
      {| si_input := {| in_max_tu := mtu;
                        in_running := in_running (si_input (self s));
                        in_full_scale := full_scale chosen;
                        in_bytes_per_sample := int32_t (sample_size chosen) |};
         sdr := dev; stream := strm |} ∧
    cfg s' = set_cfg_sfmt (sfmt chosen) (cfg s).
Proof.
  intros Hrun. destruct (init_sets_up s t s' Hrun) as (dev & chosen & strm & mtu & H).
  exists dev, chosen, strm, mtu. exact H.
Qed.

End Init_stages.

(** ** The worker *)

Section Capture_more.
Context {X : Type} `{!SoapySDR X, !Dumphfdl X}.

(** The trace of the loop: turns, each of which begins with a test of
    [do_exit] that reads 0 and a read on the handles of [o], and last, when
    the loop was left, the test that read something else.  The index says
    whether the loop was left. *)
Inductive turns (o : soapysdr_input) (c : input_cfg) : bool → list event → Prop :=
  | turns_cut : turns o c false []
  | turns_left v : v ≠ 0 → turns o c true [Ev_load_do_exit v]
  | turns_failed exited n raw t :
      n < 0 →
      turns o c exited t →
      turns o c exited
        (Ev_load_do_exit 0
         :: Ev_readStream (sdr o) (stream o) (in_max_tu (si_input o))
              SOAPYSDR_READSTREAM_TIMEOUT_US (n, raw)
         :: Stderr (msg_readStream_failed (cfg_source c) (SoapySDR_errToStr n))
         :: t)
  | turns_pushed exited n raw samples t :
      0 ≤ n →
      turns o c exited t →
      turns o c exited
        (Ev_load_do_exit 0
         :: Ev_readStream (sdr o) (stream o) (in_max_tu (si_input o))
              SOAPYSDR_READSTREAM_TIMEOUT_US (n, raw)
         :: Ev_convert_sample_buffer
              (size_t (int32_t (n * in_bytes_per_sample (si_input o))))
         :: Ev_complex_samples_produce samples
         :: t).

Definition was_left (exited : option buffers) : bool :=
  match exited with Some _ => true | None => false end.

Lemma capture_loop_turns {R} fuel inbuf outbuf (s : state X) :
  let '(o, t, s') := capture_loop (R:=R) fuel inbuf outbuf s in
  ∃ exited, o = Next exited ∧ turns (self s) (cfg s) (was_left exited) t ∧
            self s' = self s ∧ cfg s' = cfg s.
Proof.
  revert inbuf outbuf s. induction fuel as [|fuel IH]; intros inbuf outbuf s.
  - cbn. exists None. repeat split. constructor.
  - destruct (decide (load_do_exit (env s) = 0)) as [Hflag|Hflag].
    + destruct (api_readStream (sdr (self s)) (stream (self s))
                  (in_max_tu (si_input (self s))) SOAPYSDR_READSTREAM_TIMEOUT_US (env s))
        as [[n raw] x] eqn:Hread.
      rewrite (capture_loop_turn _ _ _ _ n raw x) by done. cbv zeta.
      case_bool_decide.
      * specialize (IH (stored raw inbuf) outbuf (with_env x s)).
        destruct (capture_loop fuel _ _ _) as [[o t] s'].
        destruct IH as (exited & -> & Ht & Hself & Hcfg). cbn in Ht, Hself, Hcfg.
        exists exited. repeat split; try done. by apply turns_failed.
      * match goal with |- context [capture_loop fuel ?i ?o ?s1] =>
          specialize (IH i o s1); destruct (capture_loop fuel i o s1) as [[o' t] s'] end.
        destruct IH as (exited & -> & Ht & Hself & Hcfg). cbn in Ht, Hself, Hcfg.
        exists exited. repeat split; try done. apply turns_pushed; [lia|done].
    + rewrite capture_loop_left by done.
      exists (Some (inbuf, outbuf)). repeat split. by apply turns_left.
Qed.

(** X10.  The loop, however long it is followed, leaves a trace made of
    whole turns: a test of [do_exit] that read 0, a read of [max_tu] elements
    on the device and the stream of the object with a timeout of one second,
    and then either the error line alone, when the read answered a negative
    value, or one conversion and one push.  When the loop was left, the
    trace ends with the one test that read a value other than 0.  The loop
    executes no [return] and leaves the object and the configuration as
    they are. *)
Theorem loop_trace_is_whole_turns {R} fuel inbuf outbuf (s : state X) :
  let '(o, t, s') := capture_loop (R:=R) fuel inbuf outbuf s in
  ∃ exited, o = Next exited ∧ turns (self s) (cfg s) (was_left exited) t ∧
            self s' = self s ∧ cfg s' = cfg s.
Proof. apply capture_loop_turns. Qed.

(** What is not the worker's to call: everything of the initialization. *)
Definition of_init (e : event) : Prop :=
  match e with
  | Stderr _ => False
  | _ => ¬ of_worker e
  end.

Lemma turns_not_of_init o c exited t : turns o c exited t → Forall (λ e, ¬ of_init e) t.
Proof.
  induction 1; repeat (constructor; [cbn; tauto|]); done || constructor.
Qed.

(** X12.  The worker keeps to its own: it calls nothing of what the
    initialization calls (no setter, no query, no stream set up), it leaves
    the configuration as it is, and of the object it writes the field
    [running] only, to [false], once it returns. *)
Theorem worker_keeps_to_its_own fuel (s : state X) :
  let '(r, t, s') := run (soapysdr_input_thread fuel) s in
  Forall (λ e, ¬ of_init e) t ∧
  cfg s' = cfg s ∧
  self s' = match r with
            | Some _ => set_input (set_running false) (self s)
            | None => self s
            end.
Proof.
  unfold run.
  pose proof (thread_run fuel s) as H1. cbv zeta in H1.
  destruct (api_activateStream (sdr (self s)) (stream (self s)) (env s)) as [rc x].
  rewrite H1. clear H1.
  case_bool_decide as Hrc.
  - pose proof (shutdown_run (with_env (store_do_exit 1 x) s)) as Hd. cbv zeta in Hd.
    destruct (api_deactivateStream _ _ _) as [rc1 x1].
    destruct (api_closeStream _ _ _) as [rc2 x2].
    destruct (api_unmake _ _) as [rc3 x3]. rewrite Hd.
    split; [|done]. repeat (constructor; [cbn; tauto|]). constructor.
  - match goal with |- context [capture_loop fuel ?i ?b ?s1] =>
      pose proof (capture_loop_turns (R:=option ptr) fuel i b s1) as Hloop;
      destruct (capture_loop fuel i b s1) as [[o t] s1'] end.
    destruct Hloop as (exited & -> & Ht & Hself & Hcfg). cbn in Hself, Hcfg.
    apply turns_not_of_init in Ht.
    destruct exited as [bufs|].
    + pose proof (shutdown_run s1') as Hd. cbv zeta in Hd.
      destruct (api_deactivateStream _ _ _) as [rc1 x1].
      destruct (api_closeStream _ _ _) as [rc2 x2].
      destruct (api_unmake _ _) as [rc3 x3]. rewrite Hd.
      split; [|by rewrite Hself, Hcfg].
      repeat (constructor; [cbn; tauto|]). apply Forall_app. split; [done|].
      repeat (constructor; [cbn; tauto|]). constructor.
    + split; [|done]. repeat (constructor; [cbn; tauto|]). done.
Qed.

End Capture_more.

(** ** From the initialization to the worker *)

Section Start_to_end.
Context {X : Type} `{!SoapySDR X, !Dumphfdl X}.

(** The calls of the worker that name a device, a stream or a number of
    elements name these. *)
Definition on_handles (dev strm : ptr) (mtu : Z) (e : event) : Prop :=
  match e with
  | Ev_activateStream d st _ | Ev_deactivateStream d st _ | Ev_closeStream d st _ =>
      d = dev ∧ st = strm
  | Ev_readStream d st n _ _ => d = dev ∧ st = strm ∧ n = mtu
  | Ev_unmake d _ => d = dev
  | Ev_XCALLOC _ n _ => n = mtu
  | _ => True
  end.

Lemma turns_on_handles o c exited t :
  turns o c exited t → Forall (on_handles (sdr o) (stream o) (in_max_tu (si_input o))) t.
Proof.
  induction 1; repeat (constructor; [cbn; tauto|]); done || constructor.
Qed.

Lemma thread_on_handles fuel (s : state X) :
  let o := self s in
  Forall (on_handles (sdr o) (stream o) (in_max_tu (si_input o)))
    (run (soapysdr_input_thread fuel) s).1.2.
Proof.
  cbv zeta. unfold run.
  pose proof (thread_run fuel s) as H1. cbv zeta in H1.
  destruct (api_activateStream (sdr (self s)) (stream (self s)) (env s)) as [rc x].
  rewrite H1. clear H1.
  case_bool_decide as Hrc.
  - pose proof (shutdown_run (with_env (store_do_exit 1 x) s)) as Hd. cbv zeta in Hd.
    destruct (api_deactivateStream _ _ _) as [rc1 x1].
    destruct (api_closeStream _ _ _) as [rc2 x2].
    destruct (api_unmake _ _) as [rc3 x3]. rewrite Hd.
    repeat (constructor; [cbn; tauto|]). constructor.
  - match goal with |- context [capture_loop fuel ?i ?b ?s1] =>
      pose proof (capture_loop_turns (R:=option ptr) fuel i b s1) as Hloop;
      destruct (capture_loop fuel i b s1) as [[o t] s1'] end.
    destruct Hloop as (exited & -> & Ht & Hself & Hcfg). cbn in Ht, Hself, Hcfg.
    apply turns_on_handles in Ht.
    destruct exited as [bufs|].
    + pose proof (shutdown_run s1') as Hd. cbv zeta in Hd.
      destruct (api_deactivateStream _ _ _) as [rc1 x1].
      destruct (api_closeStream _ _ _) as [rc2 x2].
      destruct (api_unmake _ _) as [rc3 x3]. rewrite Hd.
      repeat (constructor; [cbn; tauto|]). apply Forall_app. split; [done|].
      rewrite Hself. repeat (constructor; [cbn; tauto|]). constructor.
    + repeat (constructor; [cbn; tauto|]). done.
Qed.

Lemma thread_allocates_first fuel (s : state X) :
  ∃ rest, (run (soapysdr_input_thread fuel) s).1.2 =
    Ev_XCALLOC Inbuf (in_max_tu (si_input (self s))) (in_bytes_per_sample (si_input (self s)))
    :: rest.
Proof.
  unfold run.
  pose proof (thread_run fuel s) as H1. cbv zeta in H1.
  destruct (api_activateStream (sdr (self s)) (stream (self s)) (env s)) as [rc x].
  rewrite H1. clear H1.
  case_bool_decide as Hrc.
  - destruct (shutdown _) as [[[r|r] t] s']; cbn; eauto.
  - destruct (capture_loop fuel _ _ _) as [[[[bufs|]|r] t] s1].
    + destruct (shutdown s1) as [[[r|r] t'] s']; cbn; eauto.
    + cbn; eauto.
    + cbn; eauto.
Qed.

(** X13.  A worker started on the object a successful initialization has
    left works on what that run of the initialization obtained.  With
    [dev] the device that run has opened, [chosen] the result of the
    negotiation that run has made on it, [strm] the stream it has set up and
    [mtu] the MTU the library then answered (all of which [set_up] says of
    the run): the worker's first event allocates the input buffer with
    [mtu] elements of the sample size of [chosen]; every activation, read,
    deactivation and closing names [dev] and [strm], every read asks for
    [mtu] elements, and the device released is [dev]. *)
Theorem worker_uses_what_init_set_up fuel (s : state X) t s' (s2 : state X) :
  run soapysdr_input_init s = (0, t, s') →
  self s2 = self s' →
  ∃ dev chosen strm mtu rest,
    set_up s t s' dev chosen strm mtu ∧
    Forall (on_handles dev strm mtu) (run (soapysdr_input_thread fuel) s2).1.2 ∧
    (run (soapysdr_input_thread fuel) s2).1.2 =
      Ev_XCALLOC Inbuf mtu (int32_t (sample_size chosen)) :: rest.
Proof.
  intros Hrun Hself.
  destruct (init_sets_up s t s' Hrun) as (dev & chosen & strm & mtu & Hup).
  pose proof Hup as (t0 & s1 & tn & sn & e & x & _ & _ & _ & _ & _ & _ & _ & _ & _ & _ & Hobj & _).
  pose proof (thread_on_handles fuel s2) as Hon. cbv zeta in Hon.
  destruct (thread_allocates_first fuel s2) as (rest & Hfirst).
  rewrite Hself, Hobj in Hon, Hfirst. cbn in Hon, Hfirst.
  by exists dev, chosen, strm, mtu, rest.
Qed.

End Start_to_end.

(** ** Failures of the initialization are told *)

Section Init_diagnosed.
Context {X : Type} `{!SoapySDR X, !Dumphfdl X}.

(** A [return] is [return 0], or [return -1] right after a line on
    [stderr]. *)
Definition diagnosed : discipline X Z.
Proof.
  refine {| quiet := λ _, True; frame := λ _ _, True; known := λ _, True;
            final := λ _ r t _, r = 0 ∨ (r = -1 ∧ ∃ pre m, t = pre ++ [Stderr m]) |}.
  - done.
  - done.
  - done.
  - done.
  - intros s s1 s' r t1 t2 _ _ [->|[-> (pre & m & ->)]]; [by left|].
    right. split; [done|]. exists (t1 ++ pre), m. by rewrite app_assoc.
Defined.

Lemma obeys_told (m : message) :
  obeys diagnosed (bind (fprintf m) (λ _, Return (A:=unit) (-1))).
Proof. intros s _. cbn. right. split; [done|]. by exists [], m. Qed.

Ltac side ::= cbn; intros; solve [done | by left | intuition (try done; try lia)].
Ltac obey_tested ::= apply obeys_told.
Ltac obey_loop ::= apply obeys_choose_loop; side.

Lemma init_diagnosed : obeys diagnosed soapysdr_input_init.
Proof. unfold soapysdr_input_init. obey. Qed.

Ltac side ::= cbn; intros; try done; try (intuition (try done; try lia)).
Ltac obey_tested ::= fail.

(** X14.  The initialization returns 0 or -1 and nothing else, and a run
    that returns -1 has printed a line on [stderr] as the last thing it
    did. *)
Theorem init_failure_is_told (s : state X) :
  let '(r, t, _) := run soapysdr_input_init s in
  r = 0 ∨ (r = -1 ∧ ∃ pre m, t = pre ++ [Stderr m]).
Proof.
  pose proof (init_diagnosed s I) as H. unfold run.
  destruct (soapysdr_input_init s) as [[[r|r] t] s'] eqn:E; [|done].
  destruct (init_returns s) as (r' & t' & s'' & E'). congruence.
Qed.

End Init_diagnosed.

(** ** More runs on the bench *)

Section Bench_more.
Import Bench Runs.

(** A library on which no device can be opened. *)
Definition closed_rig : rig :=
  {| rig_version := rig_version default_rig; rig_handle := NULL;
     rig_failing := rig_failing default_rig;
     rig_has_dc_offset_mode := rig_has_dc_offset_mode default_rig;
     rig_has_gain_mode := rig_has_gain_mode default_rig;
     rig_native := rig_native default_rig; rig_formats := rig_formats default_rig;
     rig_format_size := rig_format_size default_rig;
     rig_readback := rig_readback default_rig; rig_stream := rig_stream default_rig;
     rig_mtu := rig_mtu default_rig; rig_activate := rig_activate default_rig |}.

(** A device none of whose formats, native or listed, names a sample kind. *)
Definition unknown_rig : rig :=
  with_formats (Some ["CS8"; "CU16"]) honest_size
    (with_native (Some "CS8", double_of_int 128) default_rig).

Lemma named_result_witness :
  let result := choose_on default_rig in
  soapy_sfmt result.1.1 ≠ None ∧
  sfmt result.1.1 = sample_format_from_string (Dumphfdl:=helpers) (soapy_sfmt result.1.1) ∧
  sample_size result.1.1 = get_sample_size (Dumphfdl:=helpers) (sfmt result.1.1).
Proof.
  intros result.
  assert (soapy_sfmt result.1.1 ≠ None) as Hname by (vm_compute; discriminate).
  pose proof (named_result_is_consistent (SoapySDR0:=soapy default_rig) (Dumphfdl0:=helpers)
                (rig_handle default_rig) "bench" (boot default_cfg [])) as H.
  fold (choose_on default_rig) in H. fold result in H.
  destruct result as [[r t] s']. cbn [fst snd] in *.
  destruct (H Hname) as (Hk & _ & _ & Hs & _).
  split; [exact Hname|]. split; [exact Hk|exact Hs].
Defined.

Lemma negotiation_fails_witness :
  let s := boot default_cfg [] in
  let native := (Some "CS8", double_of_int 128) in
  let formats := Some ["CS8"; "CU16"] in
  (api_getNativeStreamFormat (SoapySDR:=soapy unknown_rig) 4096 (env s) = (native, env s) ∧
   ¬ native_accepted (SoapySDR0:=soapy unknown_rig) (Dumphfdl0:=helpers) native.1 native.2 ∧
   api_getStreamFormats (SoapySDR:=soapy unknown_rig) 4096 (env s) = (formats, env s) ∧
   Forall (λ g, sample_format_from_string (Dumphfdl:=helpers) (Some g) = 0)
     (default [] formats)) ∧
  let '(r, t, s') := choose_on unknown_rig in
  sfmt r = 0 ∧ soapy_sfmt r = None ∧
  t = [Ev_getNativeStreamFormat 4096 native; Ev_getStreamFormats 4096 formats].
Proof.
  intros s native formats.
  assert (¬ native_accepted (SoapySDR0:=soapy unknown_rig) (Dumphfdl0:=helpers)
            native.1 native.2) as Hno.
  { intros [[Hk _] _]. by vm_compute in Hk. }
  assert (Forall (λ g, sample_format_from_string (Dumphfdl:=helpers) (Some g) = 0)
            (default [] formats)) as Hall.
  { repeat (constructor; [reflexivity|]). constructor. }
  split; [repeat split; [exact Hno|exact Hall]|].
  pose proof (negotiation_fails_without_known_format (SoapySDR0:=soapy unknown_rig)
                (Dumphfdl0:=helpers) 4096 "bench" s native.1 native.2 (env s) formats (env s)
                eq_refl Hno eq_refl Hall) as H.
  vm_compute in H. destruct H as (Hk & Hname & _ & Ht).
  vm_compute. split; [exact Hk|]. split; [exact Hname|exact Ht].
Defined.

Lemma unconfigured_steps_witness :
  let t := (init_on default_rig default_cfg).1.2 in
  cfg_antenna default_cfg = None ∧ cfg_device_settings default_cfg = None ∧
  cfg_gain_elements default_cfg = None ∧
  Forall (λ e, ¬ is_setAntenna e) t ∧ Forall (λ e, ¬ is_setting e) t ∧
  Forall (λ e, ¬ is_gain_element e) t.
Proof.
  intros t.
  pose proof (unconfigured_steps_are_skipped (SoapySDR0:=soapy default_rig)
                (Dumphfdl0:=helpers) (boot default_cfg [])) as H.
  cbv zeta in H. destruct H as (H1 & H2 & H3 & _).
  split; [reflexivity|]. split; [reflexivity|]. split; [reflexivity|].
  split; [exact (H1 eq_refl)|]. split; [exact (H2 eq_refl)|exact (H3 eq_refl)].
Defined.

Lemma failure_before_stream_witness :
  let s := boot default_cfg [] in
  let result := init_on (with_failing ["setFrequency"] default_rig) default_cfg in
  Forall (λ e, ¬ sets_up_stream e) result.1.2 ∧
  result.1.1 = -1 ∧ self result.2 = self s ∧ cfg result.2 = cfg s.
Proof.
  intros s result.
  pose proof (failure_before_stream_changes_nothing
                (SoapySDR0:=soapy (with_failing ["setFrequency"] default_rig))
                (Dumphfdl0:=helpers) s) as H.
  vm_compute in H. destruct H as [H _]. vm_compute.
  match type of H with ?A → _ =>
    assert A as Hnone by (repeat (constructor; [tauto|]); constructor) end.
  split; [exact Hnone|exact (H Hnone)].
Defined.

Lemma open_failure_witness :
  let s := boot default_cfg [] in
  (api_makeStrArgs (SoapySDR:=soapy closed_rig) (cfg_source (cfg s)) (env s)).1 = NULL ∧
  init_on closed_rig default_cfg =
    (-1,
     [Ev_enumerate [[("driver", "bench")]]; Stderr (msg_found_device 0);
      Stderr (msg_device_key "driver" "bench"); Ev_KwargsList_clear;
      Ev_makeStrArgs "driver=bench" NULL;
      Stderr (msg_could_not_open "driver=bench" "bench error")],
     s).
Proof.
  intros s. split; [reflexivity|].
  pose proof (open_failure_is_fatal (SoapySDR0:=soapy closed_rig) (Dumphfdl0:=helpers) s) as H.
  cbv zeta in H.
  change (api_makeStrArgs (SoapySDR:=soapy closed_rig) (cfg_source (cfg s))
            (api_enumerate (SoapySDR:=soapy closed_rig) (env s)).2)
    with (NULL, env s) in H.
  cbv beta iota in H. unfold init_on. fold s. rewrite (H eq_refl).
  vm_compute. reflexivity.
Defined.

Lemma successful_init_witness :
  let s := boot default_cfg [] in
  let result := init_on default_rig default_cfg in
  run (soapysdr_input_init (SoapySDR0:=soapy default_rig) (Dumphfdl0:=helpers)) s
    = (0, result.1.2, result.2) ∧
  ∃ dev chosen strm mtu,
    dev ≠ NULL ∧ sfmt chosen ≠ SFMT_UNDEF (Dumphfdl:=helpers) ∧
    sdr (self result.2) = dev ∧ stream (self result.2) = strm ∧
    in_max_tu (si_input (self result.2)) = mtu ∧
    in_bytes_per_sample (si_input (self result.2)) = int32_t (sample_size chosen).
Proof.
  intros s result.
  assert (run (soapysdr_input_init (SoapySDR0:=soapy default_rig) (Dumphfdl0:=helpers)) s
          = (0, result.1.2, result.2)) as Hrun by (vm_compute; reflexivity).
  split; [exact Hrun|].
  destruct (successful_init_populates (SoapySDR0:=soapy default_rig) (Dumphfdl0:=helpers)
              s result.1.2 result.2 Hrun)
    as (dev & chosen & strm & mtu & t0 & s1 & tn & s2 & e & x
        & _ & Hdev & _ & _ & _ & _ & Hfmt & _ & _ & _ & Hobj & _).
  exists dev, chosen, strm, mtu.
  split; [exact Hdev|]. split; [exact Hfmt|].
  split; [exact (f_equal sdr Hobj)|]. split; [exact (f_equal stream Hobj)|].
  split; [exact (f_equal (λ o, in_max_tu (si_input o)) Hobj)|].
  exact (f_equal (λ o, in_bytes_per_sample (si_input o)) Hobj).
Defined.

Lemma worker_uses_witness :
  let s := boot default_cfg [] in
  let result := init_on default_rig default_cfg in
  let s2 := with_env {| reads := [(2, two_samples)]; flag := 0 |} result.2 in
  let t2 := (run (soapysdr_input_thread (SoapySDR0:=soapy default_rig) (Dumphfdl0:=helpers) 3)
               s2).1.2 in
  (run (soapysdr_input_init (SoapySDR0:=soapy default_rig) (Dumphfdl0:=helpers)) s
     = (0, result.1.2, result.2) ∧
   self s2 = self result.2) ∧
  ∃ dev chosen strm mtu rest,
    set_up (SoapySDR0:=soapy default_rig) (Dumphfdl0:=helpers) s result.1.2 result.2
      dev chosen strm mtu ∧
    Forall (on_handles dev strm mtu) t2 ∧
    t2 = Ev_XCALLOC Inbuf mtu (int32_t (sample_size chosen)) :: rest.
Proof.
  intros s result s2 t2.
  assert (run (soapysdr_input_init (SoapySDR0:=soapy default_rig) (Dumphfdl0:=helpers)) s
          = (0, result.1.2, result.2)) as Hrun by (vm_compute; reflexivity).
  split; [split; [exact Hrun|reflexivity]|].
  exact (worker_uses_what_init_set_up (SoapySDR0:=soapy default_rig) (Dumphfdl0:=helpers)
           3 s result.1.2 result.2 s2 Hrun eq_refl).
Defined.

(** The worker on the bench after three turns: it is still in its loop, the
    controller has set [do_exit] during the third read, and the next test
    makes it shut down and return. *)
Lemma shutdown_witness :
  let s := ready [(2, two_samples); (-3, [])] in
  let result :=
    run (soapysdr_input_thread (SoapySDR0:=soapy default_rig) (Dumphfdl0:=helpers) 3) s in
  let v := load_do_exit (Dumphfdl:=helpers) (env result.2) in
  (run (soapysdr_input_thread (SoapySDR0:=soapy default_rig) (Dumphfdl0:=helpers) 3) s
     = (None, result.1.2, result.2) ∧
   v ≠ 0) ∧
  ∃ rc1 rc2 rc3 s2,
    run (soapysdr_input_thread (SoapySDR0:=soapy default_rig) (Dumphfdl0:=helpers) 4) s =
      (Some NULL,
       result.1.2 ++ Ev_load_do_exit v :: Debug_shutdown
         :: shutdown_sequence (self s) rc1 rc2 rc3,
       s2).
Proof.
  intros s result v.
  assert (run (soapysdr_input_thread (SoapySDR0:=soapy default_rig) (Dumphfdl0:=helpers) 3) s
          = (None, result.1.2, result.2)) as Hrun by (vm_compute; reflexivity).
  assert (v ≠ 0) as Hv by (vm_compute; discriminate).
  split; [split; [exact Hrun|exact Hv]|].
  pose proof (shutdown_once_in_order (SoapySDR0:=soapy default_rig) (Dumphfdl0:=helpers) 3 s)
    as H.
  cbv zeta in H. destruct H as (_ & _ & H).
  destruct (H result.1.2 result.2 Hrun) as [Hleave _].
  destruct (Hleave Hv) as (rc1 & rc2 & rc3 & s2 & Heq & _).
  exists rc1, rc2, rc3, s2. exact Heq.
Defined.

(** The gain block on the bench, with a gain string and a scalar gain both
    given: the two elements are applied on the device opened, in order. *)
Lemma gain_precedence_witness :
  let c := set_cfg_gain (float_of_int 30)
             (with_strings (Some "LNA=20,VGA=10") None default_cfg) in
  let s := boot c [] in
  let t0 := (init_upto_gain (SoapySDR0:=soapy default_rig) s).1.2 in
  let result := run (soapysdr_input_init (SoapySDR0:=soapy default_rig) (Dumphfdl0:=helpers)) s in
  cfg_gain_elements c ≠ None ∧
  result.1.1 = 0 ∧
  Forall (λ e, ¬ is_overall_gain e) result.1.2 ∧
  ∃ tg after,
    result.1.2 = t0 ++ tg ++ after ∧
    gain_applied (SoapySDR0:=soapy default_rig) (Dumphfdl0:=helpers) 4096 c true tg.
Proof.
  intros c s t0 result.
  assert (run (soapysdr_input_init (SoapySDR0:=soapy default_rig) (Dumphfdl0:=helpers)) s
          = (0, result.1.2, result.2)) as Hrun by (vm_compute; reflexivity).
  assert (init_upto_gain (SoapySDR0:=soapy default_rig) s
          = (Next (c, 4096), t0, (init_upto_gain (SoapySDR0:=soapy default_rig) s).2))
    as Hpre by (vm_compute; reflexivity).
  pose proof (gain_precedence (SoapySDR0:=soapy default_rig) (Dumphfdl0:=helpers) s) as H.
  cbv zeta in H. rewrite Hrun, Hpre in H. cbv beta iota in H.
  destruct H as (Hnone & _ & _ & ok & tg & after & Ht & Hgain & _ & Hok).
  destruct ok; [|destruct Hok as [Hr _]; discriminate Hr].
  split; [discriminate|].
  split; [exact (f_equal (λ x : Z * list event * state world, x.1.1) Hrun)|].
  split; [apply Hnone; discriminate|].
  exists tg, after. split; [exact Ht|exact Hgain].
Defined.

(** C9, as the claim has it, fails on a library that opens no device: the
    gain string parses to no pair, the initialization fails, but what it
    reports is that the device could not be opened; the line of the
    configuration error is not printed, the string is not even parsed. *)
Lemma unparsable_gains_not_reported :
  let c := with_strings (Some EmptyString) None default_cfg in
  let result := init_on closed_rig c in
  gains_unparsable (SoapySDR0:=soapy closed_rig) c ∧
  result.1.1 = -1 ∧
  last result.1.2 = Some (Stderr (msg_could_not_open "driver=bench" "bench error")) ∧
  Stderr msg_unable_to_parse_gains ∉ result.1.2.
Proof.
  intros c result.
  assert (result.1.2 =
          [Ev_enumerate [[("driver", "bench")]]; Stderr (msg_found_device 0);
           Stderr (msg_device_key "driver" "bench"); Ev_KwargsList_clear;
           Ev_makeStrArgs "driver=bench" NULL;
           Stderr (msg_could_not_open "driver=bench" "bench error")]) as Ht
    by (vm_compute; reflexivity).
  split; [exists EmptyString; split; reflexivity|].
  split; [vm_compute; reflexivity|].
  rewrite Ht. split; [reflexivity|].
  intros H. repeat (apply elem_of_cons in H as [H|H]; [discriminate H|]).
  by apply elem_of_nil in H.
Qed.

(** The same string on a device that opens and takes the settings of lines
    96-117: the configuration error is the last line. *)
Lemma unparsable_pairs_witness :
  let c := with_strings (Some EmptyString) None default_cfg in
  let s := boot c [] in
  let t0 := (init_upto_gain (SoapySDR0:=soapy default_rig) s).1.2 in
  let result := run (soapysdr_input_init (SoapySDR0:=soapy default_rig) (Dumphfdl0:=helpers)) s in
  gains_unparsable (SoapySDR0:=soapy default_rig) c ∧
  result.1.1 = -1 ∧
  result.1.2 = t0 ++ [Stderr msg_unable_to_parse_gains] ∧
  Forall (λ e, ¬ sets_up_stream e) result.1.2.
Proof.
  intros c s t0 result.
  assert (gains_unparsable (SoapySDR0:=soapy default_rig) c) as Hg
    by (exists EmptyString; split; reflexivity).
  assert (run (soapysdr_input_init (SoapySDR0:=soapy default_rig) (Dumphfdl0:=helpers)) s
          = (result.1.1, result.1.2, result.2)) as Hrun by (vm_compute; reflexivity).
  assert (init_upto_gain (SoapySDR0:=soapy default_rig) s
          = (Next (c, 4096), t0, (init_upto_gain (SoapySDR0:=soapy default_rig) s).2))
    as Hpre by (vm_compute; reflexivity).
  pose proof (unparsable_pairs_are_fatal (SoapySDR0:=soapy default_rig) (Dumphfdl0:=helpers) s)
    as H.
  cbv zeta in H. rewrite Hrun, Hpre in H. cbv beta iota in H.
  destruct H as [H _]. destruct (H Hg) as (Hr & Hstream & _ & _ & _ & Ht).
  split; [exact Hg|]. split; [exact Hr|]. split; [exact Ht|exact Hstream].
Defined.

End Bench_more.
